(** * AppMRR: credential cipher, metrics adapter, refresh job, registration

    A shallow embedding of the server side of AppMRR:

    - [src/lib/encryption.ts]   the credential cipher ([encryptApiKey],
      [decryptApiKey], [getEncryptionKey]) and the rate limiter;
    - [src/lib/revenuecat.ts]   the metrics source adapter
      ([fetchRevenueCatMetrics], [validateRevenueCatApiKey]);
    - [src/lib/db.ts]           the persistence operations;
    - [src/lib/validation.ts]   the sanitizer and the six validators;
    - [src/pages/api/cron/update-metrics.ts]  the refresh job ([GET]);
    - the registration endpoint ([POST]).

    Conventions.  A JavaScript string is a Rocq [string]: the sequence of its
    UTF-8 bytes, which is the form in which [cipher.update (apiKey, 'utf8',
    ...)] hands it to the cipher.  This is exact for well-formed text; where
    a string may hold an unpaired surrogate (the plaintext of the cipher) it
    is also given by its UTF-16 code units.  A thrown value is a [JsError] carrying the
    [name] and [message] the handlers dispatch on.  Code that talks to the
    outside (HTTP, the datastore, the clock, the random generator) runs in
    the monad [M]; every such interaction is appended to a trace, and the
    answers of the outside are given by a [World] that may depend on the
    whole history.  Functions of the Node and JavaScript libraries that the
    code calls (JSON.parse, the URL parser, PBKDF2, AES-256-GCM) are
    the fields of a [Platform]. *)

From Stdlib Require Import ZArith QArith_base Strings.String Strings.Ascii Strings.Byte List Lia.
From stdpp Require Import base option list gmap strings pretty.

Close Scope Q_scope.
Set Warnings "-register-all".
Local Open Scope string_scope.
Local Open Scope Z_scope.

(** ** JavaScript values, errors and results *)

(** The values [JSON.parse] can produce.  Numbers are rationals; an object
    lists its properties, and a property is looked up from the front. *)
Inductive JValue : Type :=
| JNull
| JBool (b : bool)
| JNum (q : Q)
| JStr (s : string)
| JArr (items : list JValue)
| JObj (fields : list (string * JValue)).

Record JsError : Type := mkError { name : string; message : string }.

Definition Error (msg : string) : JsError := mkError "Error" msg.
Definition TypeError (msg : string) : JsError := mkError "TypeError" msg.
Definition SyntaxError (msg : string) : JsError := mkError "SyntaxError" msg.

Inductive Result (A : Type) : Type :=
| Ok (a : A)
| Throw (e : JsError).
Arguments Ok {A} a.
Arguments Throw {A} e.

Definition result_bind {A B} (r : Result A) (k : A -> Result B) : Result B :=
  match r with
  | Ok a => k a
  | Throw e => Throw e
  end.

(** [try { body } catch (error) { throw handler(error) }] on pure code. *)
Definition rethrow {A} (body : Result A) (handler : JsError -> JsError) : Result A :=
  match body with
  | Ok a => Ok a
  | Throw e => Throw (handler e)
  end.

(** JavaScript truthiness, for the values the code tests with [!x] and [||]. *)
Definition truthy_string (s : string) : bool :=
  match s with
  | EmptyString => false
  | String _ _ => true
  end.

Definition truthy (v : JValue) : bool :=
  match v with
  | JNull => false
  | JBool b => b
  | JNum q => negb (Qnum q =? 0)
  | JStr s => truthy_string s
  | JArr _ => true
  | JObj _ => true
  end.

(** A possibly [undefined] or [null] value: [None] is falsy. *)
Definition truthy_opt {A} (t : A -> bool) (o : option A) : bool :=
  match o with
  | Some a => t a
  | None => false
  end.

(** [a || b] *)
Definition js_or {A} (t : A -> bool) (a b : option A) : option A :=
  if truthy_opt t a then a else b.

(** [haystack.includes (needle)] on strings. *)
Fixpoint includes (haystack needle : string) : bool :=
  if String.prefix needle haystack then true
  else match haystack with
       | EmptyString => false
       | String _ rest => includes rest needle
       end.

(** [s.split (sep)] for a one-character separator: the empty string splits
    into one empty field. *)
Fixpoint split (sep : ascii) (s : string) : list string :=
  match s with
  | EmptyString => [EmptyString]
  | String c rest =>
      if Ascii.eqb c sep then EmptyString :: split sep rest
      else match split sep rest with
           | field :: fields => String c field :: fields
           | [] => [String c EmptyString]
           end
  end.

Fixpoint occurrences (sep : ascii) (s : string) : nat :=
  match s with
  | EmptyString => O
  | String c rest =>
      if Ascii.eqb c sep then S (occurrences sep rest) else occurrences sep rest
  end.

(** ** Configuration: the two environment mechanisms *)

Record EnvVars : Type := mkEnv {
  ENCRYPTION_KEY : option string;
  CRON_SECRET : option string
}.

Record Config : Type := mkConfig {
  import_meta_env : option EnvVars;   (* [import.meta.env], when defined *)
  process_env : EnvVars               (* [process.env] *)
}.

(** ** Library functions the code calls *)

Record URL : Type := mkURL {
  protocol : string;
  hostname : string
}.

Record Platform : Type := mkPlatform {
  (* [JSON.parse]: the value, or the message of the SyntaxError *)
  JSON_parse : string -> JValue + string;
  (* [new URL (s)]: the parsed URL, or [None] when the constructor throws *)
  URL_parse : string -> option URL;
  (* [crypto.pbkdf2Sync (password, salt, iterations, keylen, digest)] *)
  pbkdf2Sync : string -> list byte -> Z -> nat -> string -> list byte;
  (* aes-256-gcm: key, iv, plaintext to ciphertext and tag *)
  gcm_encrypt : list byte -> list byte -> list byte -> list byte * list byte;
  (* aes-256-gcm: key, iv, tag, ciphertext to plaintext, or the error of
     [createDecipheriv], [setAuthTag] or [final] *)
  gcm_decrypt : list byte -> list byte -> list byte -> list byte -> Result (list byte)
}.

(** What the cipher relies on: PBKDF2 returns [keylen] bytes, and with a
    32-byte key and a 16-byte iv, decryption of what encryption produced
    verifies the tag and gives the plaintext back. *)
Record PlatformCryptoOk (P : Platform) : Prop := {
  pbkdf2_length : forall password salt iterations keylen digest,
    List.length (pbkdf2Sync P password salt iterations keylen digest) = keylen;
  gcm_roundtrip : forall key iv plaintext,
    List.length key = 32%nat -> List.length iv = 16%nat ->
    gcm_decrypt P key iv (gcm_encrypt P key iv plaintext).2
                (gcm_encrypt P key iv plaintext).1 = Ok plaintext
}.

(** ** Buffers and the hex encoding *)

Definition hex_digit (n : N) : ascii :=
  match n with
  | 0%N => "0" | 1%N => "1" | 2%N => "2" | 3%N => "3"
  | 4%N => "4" | 5%N => "5" | 6%N => "6" | 7%N => "7"
  | 8%N => "8" | 9%N => "9" | 10%N => "a" | 11%N => "b"
  | 12%N => "c" | 13%N => "d" | 14%N => "e" | _ => "f"
  end%char.

Definition hex_value (c : ascii) : option N :=
  let n := N_of_ascii c in
  if ((48 <=? n) && (n <=? 57))%N then Some (n - 48)%N
  else if ((97 <=? n) && (n <=? 102))%N then Some (n - 87)%N
  else if ((65 <=? n) && (n <=? 70))%N then Some (n - 55)%N
  else None.

(** [buf.toString ('hex')]: two lower-case digits per byte. *)
Fixpoint toString_hex (buf : list byte) : string :=
  match buf with
  | [] => EmptyString
  | b :: rest =>
      String (hex_digit (Byte.to_N b / 16)%N)
        (String (hex_digit (Byte.to_N b mod 16)%N) (toString_hex rest))
  end.

(** [Buffer.from (s, 'hex')]: decodes pairs of hex digits and stops at the
    first pair that is not one; a trailing single character is dropped. *)
Fixpoint Buffer_from_hex (s : string) : list byte :=
  match s with
  | String hi (String lo rest) =>
      match hex_value hi, hex_value lo with
      | Some h, Some l =>
          byte_of_ascii (ascii_of_N (16 * h + l)%N) :: Buffer_from_hex rest
      | _, _ => []
      end
  | _ => []
  end.

(** The 'utf8' encoding of well-formed text, which a [string] is, is the
    string's bytes; [utf8_of_units] below encodes any JavaScript string. *)
Definition utf8_encode (s : string) : list byte := list_byte_of_string s.
Definition utf8_decode (buf : list byte) : string := string_of_list_byte buf.

(** ** Input validation (src/lib/validation.ts) *)

Definition code (c : ascii) : N := N_of_ascii c.

(** [s.length] counts UTF-16 code units: one for every character, two for
    a character outside the basic plane (four bytes in UTF-8). *)
Definition utf16_units (c : ascii) : nat :=
  if (code c <? 128)%N then 1%nat        (* an ASCII character *)
  else if (code c <? 192)%N then 0%nat   (* a continuation byte *)
  else if (code c <? 240)%N then 1%nat   (* opens a two- or three-byte character *)
  else 2%nat.                            (* opens a four-byte character *)

Fixpoint js_length (s : string) : nat :=
  match s with
  | EmptyString => 0%nat
  | String c rest => (utf16_units c + js_length rest)%nat
  end.

(** The class [\s] (and what [trim] removes): tab, LF, VT, FF, CR and
    space; U+00A0; U+1680, U+2000 to U+200A, U+2028, U+2029, U+202F, U+205F,
    U+3000 and U+FEFF. *)
Definition is_space (c : ascii) : bool :=
  ((9 <=? code c) && (code c <=? 13) || (code c =? 32))%N.

Definition is_space2 (a b : ascii) : bool :=
  ((code a =? 194) && (code b =? 160))%N.

Definition is_space3 (a b c : ascii) : bool :=
  ((code a =? 225) && (code b =? 154) && (code c =? 128)
   || (code a =? 226) && (code b =? 128)
      && ((128 <=? code c) && (code c <=? 138)
          || (code c =? 168) || (code c =? 169) || (code c =? 175))
   || (code a =? 226) && (code b =? 129) && (code c =? 159)
   || (code a =? 227) && (code b =? 128) && (code c =? 128)
   || (code a =? 239) && (code b =? 187) && (code c =? 191))%N.

(** Removes the white space a string starts with; [two] and [three]
    recognise the white space of two and three bytes. *)
Fixpoint strip (two : ascii -> ascii -> bool) (three : ascii -> ascii -> ascii -> bool)
    (s : string) : string :=
  match s with
  | EmptyString => EmptyString
  | String a rest =>
      if is_space a then strip two three rest
      else
        match rest with
        | EmptyString => s
        | String b rest2 =>
            if two a b then strip two three rest2
            else
              match rest2 with
              | EmptyString => s
              | String c rest3 => if three a b c then strip two three rest3 else s
              end
        end
  end.

Definition reverse (s : string) : string :=
  string_of_list_ascii (rev (list_ascii_of_string s)).

Definition trimStart (s : string) : string := strip is_space2 is_space3 s.

Definition trimEnd (s : string) : string :=
  reverse (strip (fun a b => is_space2 b a) (fun a b c => is_space3 c b a) (reverse s)).

(** [s.trim ()] *)
Definition trim (s : string) : string := trimEnd (trimStart s).

Definition is_digit (c : ascii) : bool := ((48 <=? code c) && (code c <=? 57))%N.

Definition is_letter (c : ascii) : bool :=
  ((65 <=? code c) && (code c <=? 90) || (97 <=? code c) && (code c <=? 122))%N.

(** The class [\w], which is [[a-zA-Z0-9_]]. *)
Definition is_word (c : ascii) : bool := is_letter c || is_digit c || (code c =? 95)%N.

(** The class [[a-zA-Z0-9_-]]. *)
Definition is_project_char (c : ascii) : bool := is_word c || (code c =? 45)%N.

(** The class [[<>{}[\]\\]]. *)
Definition is_suspicious (c : ascii) : bool :=
  ((code c =? 60) || (code c =? 62) || (code c =? 123) || (code c =? 125)
   || (code c =? 91) || (code c =? 93) || (code c =? 92))%N.

(** The class [[\x00-\x08\x0B\x0C\x0E-\x1F\x7F]]. *)
Definition is_control (c : ascii) : bool :=
  ((code c <=? 8) || (code c =? 11) || (code c =? 12)
   || (14 <=? code c) && (code c <=? 31) || (code c =? 127))%N.

Fixpoint all_chars (p : ascii -> bool) (s : string) : bool :=
  match s with
  | EmptyString => true
  | String c rest => p c && all_chars p rest
  end.

Fixpoint any_char (p : ascii -> bool) (s : string) : bool :=
  match s with
  | EmptyString => false
  | String c rest => p c || any_char p rest
  end.

(** [/^[class]+$/.test (s)] *)
Definition only_chars (p : ascii -> bool) (s : string) : bool :=
  truthy_string s && all_chars p s.

(** [s.replace (/[class]/g, '')] *)
Fixpoint remove_chars (p : ascii -> bool) (s : string) : string :=
  match s with
  | EmptyString => EmptyString
  | String c rest => if p c then remove_chars p rest else String c (remove_chars p rest)
  end.

(** [s.replace (/<[^>]*>/g, '')]: a "<" opens a tag when a ">" follows
    somewhere, and the tag ends at the first one. *)
Fixpoint strip_tags (inside : bool) (s : string) : string :=
  match s with
  | EmptyString => EmptyString
  | String c rest =>
      if inside then strip_tags (negb (code c =? 62)%N) rest
      else if (code c =? 60)%N && any_char (fun c' => (code c' =? 62)%N) rest
           then strip_tags true rest
           else String c (strip_tags false rest)
  end.

Definition lower (c : ascii) : ascii :=
  if ((65 <=? code c) && (code c <=? 90))%N then ascii_of_N (code c + 32) else c.

(** [pattern] (in lower case) matches at the start of [s], ignoring case. *)
Fixpoint starts_with_ci (pattern s : string) : bool :=
  match pattern, s with
  | EmptyString, _ => true
  | String p pattern', String c rest => Ascii.eqb (lower c) p && starts_with_ci pattern' rest
  | String _ _, EmptyString => false
  end.

(** [s.replace (/javascript:/gi, '')]; [skip] counts the characters of a
    match that are still to be dropped. *)
Fixpoint remove_javascript (skip : nat) (s : string) : string :=
  match s with
  | EmptyString => EmptyString
  | String c rest =>
      match skip with
      | S skip' => remove_javascript skip' rest
      | O =>
          if starts_with_ci "javascript:" s then remove_javascript 10 rest
          else String c (remove_javascript 0 rest)
      end
  end.

Fixpoint word_run (s : string) : nat :=
  match s with
  | String c rest => if is_word c then S (word_run rest) else O
  | EmptyString => O
  end.

Fixpoint drop_chars (n : nat) (s : string) : string :=
  match n, s with
  | S n', String _ rest => drop_chars n' rest
  | _, _ => s
  end.

(** The length of the match of [/on\w+\s*=/i] at the start of [s], if any:
    "on", the longest run of word characters (at least one), the white
    space that follows, and "=". *)
Definition handler_match (s : string) : option nat :=
  if starts_with_ci "on" s then
    let after_on := drop_chars 2 s in
    let run := word_run after_on in
    if (run =? 0)%nat then None
    else
      let after_run := drop_chars run after_on in
      let after_spaces := trimStart after_run in
      if String.prefix "=" after_spaces
      then Some (2 + run + (String.length after_run - String.length after_spaces) + 1)%nat
      else None
  else None.

(** [s.replace (/on\w+\s*=/gi, '')] *)
Fixpoint remove_handlers (skip : nat) (s : string) : string :=
  match s with
  | EmptyString => EmptyString
  | String c rest =>
      match skip with
      | S skip' => remove_handlers skip' rest
      | O =>
          match handler_match s with
          | Some (S more) => remove_handlers more rest
          | _ => String c (remove_handlers 0 rest)
          end
      end
  end.

(** [s.replace (/\s+/g, ' ')]; [in_space] says that the run of white space
    being read has already been replaced, [skip] counts the remaining bytes
    of a white-space character. *)
Fixpoint collapse_spaces (in_space : bool) (skip : nat) (s : string) : string :=
  match s with
  | EmptyString => EmptyString
  | String a rest =>
      match skip with
      | S skip' => collapse_spaces in_space skip' rest
      | O =>
          let width :=
            if is_space a then 1%nat
            else match rest with
                 | String b (String c _) =>
                     if is_space2 a b then 2%nat else if is_space3 a b c then 3%nat else 0%nat
                 | String b EmptyString => if is_space2 a b then 2%nat else 0%nat
                 | EmptyString => 0%nat
                 end in
          match width with
          | O => String a (collapse_spaces false 0 rest)
          | S more =>
              if in_space then collapse_spaces true more rest
              else String " " (collapse_spaces true more rest)
          end
      end
  end.

Definition sanitizeString (input : string) : string :=
  trim
    (collapse_spaces false 0
       (remove_handlers 0
          (remove_javascript 0
             (strip_tags false
                (remove_chars is_control
                   (remove_chars (fun c => (code c =? 0)%N) input)))))).

Definition MAX_LENGTHS_name : nat := 100.
Definition MAX_LENGTHS_websiteUrl : nat := 500.
Definition MAX_LENGTHS_founderUsername : nat := 50.
Definition MAX_LENGTHS_projectId : nat := 100.
Definition MAX_LENGTHS_appStoreId : nat := 50.
Definition MAX_LENGTHS_revenuecatApiKey : nat := 500.
Definition MIN_LENGTHS_name : nat := 1.
Definition MIN_LENGTHS_projectId : nat := 4.
Definition MIN_LENGTHS_revenuecatApiKey : nat := 10.

Record ValidationResult : Type := mkValidationResult {
  valid : bool;
  value : string;
  validation_error : option string
}.

Definition accept (value : string) : ValidationResult :=
  mkValidationResult true value None.
Definition reject (value error : string) : ValidationResult :=
  mkValidationResult false value (Some error).

Definition validateName (name : option JValue) : ValidationResult :=
  match name with
  | Some (JStr name) =>
      let sanitized := sanitizeString name in
      if (js_length sanitized <? MIN_LENGTHS_name)%nat then reject sanitized "Name is required"
      else if (MAX_LENGTHS_name <? js_length sanitized)%nat
      then reject sanitized
             ("Name must be " +:+ pretty MAX_LENGTHS_name +:+ " characters or less")
      else if any_char is_suspicious sanitized
      then reject sanitized "Name contains invalid characters"
      else accept sanitized
  | _ => reject EmptyString "Name must be a string"
  end.

Definition is_private_host (hostname : string) : bool :=
  String.eqb hostname "localhost"
  || String.prefix "127." hostname
  || String.prefix "192.168." hostname
  || String.prefix "10." hostname
  || String.prefix "172.16." hostname
  || String.eqb hostname "0.0.0.0"
  || String.eqb hostname "::1".

Fixpoint toLowerCase (s : string) : string :=
  match s with
  | EmptyString => EmptyString
  | String c rest => String (lower c) (toLowerCase rest)
  end.

Section Validation.
Context (P : Platform).

Definition validateUrl (url : option JValue) : ValidationResult :=
  match url with
  | Some (JStr url) =>
      if negb (truthy_string url) then reject EmptyString "URL must be a string"
      else
        let sanitized := sanitizeString url in
        if (MAX_LENGTHS_websiteUrl <? js_length sanitized)%nat
        then reject sanitized
               ("URL must be " +:+ pretty MAX_LENGTHS_websiteUrl +:+ " characters or less")
        else
          match URL_parse P sanitized with
          | Some urlObj =>
              if negb (String.eqb (protocol urlObj) "http:"
                       || String.eqb (protocol urlObj) "https:")
              then reject sanitized "URL must use http or https protocol"
              else if is_private_host (toLowerCase (hostname urlObj))
              then reject sanitized "URL cannot point to private/local addresses"
              else accept sanitized
          | None => reject sanitized "Invalid URL format"
          end
  | _ => reject EmptyString "URL must be a string"
  end.

End Validation.

Definition validateUsername (username : option JValue) : ValidationResult :=
  match username with
  | Some (JStr username) =>
      if negb (truthy_string username) then accept EmptyString
      else
        let sanitized :=
          match sanitizeString username with
          | String "@" rest => rest
          | other => other
          end in
        if (MAX_LENGTHS_founderUsername <? js_length sanitized)%nat
        then reject sanitized
               ("Username must be " +:+ pretty MAX_LENGTHS_founderUsername
                +:+ " characters or less")
        else if negb (only_chars is_word sanitized)
        then reject sanitized "Username can only contain letters, numbers, and underscores"
        else accept sanitized
  | _ => accept EmptyString
  end.

Definition validateAppStoreId (appStoreId : option JValue) : ValidationResult :=
  match appStoreId with
  | Some (JStr appStoreId) =>
      if negb (truthy_string appStoreId) then accept EmptyString
      else
        let sanitized := sanitizeString appStoreId in
        if (MAX_LENGTHS_appStoreId <? js_length sanitized)%nat
        then reject sanitized
               ("App Store ID must be " +:+ pretty MAX_LENGTHS_appStoreId
                +:+ " characters or less")
        else if negb (only_chars is_digit sanitized)
        then reject sanitized "App Store ID must contain only numbers"
        else accept sanitized
  | _ => accept EmptyString
  end.

Definition validateProjectId (projectId : option JValue) : ValidationResult :=
  match projectId with
  | Some (JStr projectId) =>
      let sanitized := sanitizeString projectId in
      if (js_length sanitized <? MIN_LENGTHS_projectId)%nat
      then reject sanitized
             ("Project ID must be at least " +:+ pretty MIN_LENGTHS_projectId +:+ " characters")
      else if (MAX_LENGTHS_projectId <? js_length sanitized)%nat
      then reject sanitized
             ("Project ID must be " +:+ pretty MAX_LENGTHS_projectId +:+ " characters or less")
      else if negb (only_chars is_project_char sanitized)
      then reject sanitized "Project ID contains invalid characters"
      else accept sanitized
  | _ => reject EmptyString "Project ID must be a string"
  end.

Definition validateApiKey (apiKey : option JValue) : ValidationResult :=
  match apiKey with
  | Some (JStr apiKey) =>
      let trimmed := trim apiKey in
      if (js_length trimmed <? MIN_LENGTHS_revenuecatApiKey)%nat
      then reject trimmed "API key is too short"
      else if (MAX_LENGTHS_revenuecatApiKey <? js_length trimmed)%nat
      then reject trimmed "API key is too long"
      else if negb (String.prefix "sk_" trimmed)
      then reject trimmed "Invalid API key format (must start with sk_)"
      else if negb (only_chars is_word trimmed)
      then reject trimmed "API key contains invalid characters"
      else accept trimmed
  | _ => reject EmptyString "API key must be a string"
  end.

(** ** The outside world, the store and the monad *)

(** Rows of the three tables.  The serial row ids of [api_keys] and
    [revenue_metrics] and the [created_at] and [updated_at] columns, which
    the datastore fills in, are left out: both tables are keyed by their
    unique [startup_id]. *)
Record Startup : Type := mkStartup {
  startup_name : string;
  website_url : option string;
  founder_username : option string;
  app_store_id : option string
}.

Record ApiKey : Type := mkApiKey {
  revenuecat_api_key : string;               (* encrypted *)
  revenuecat_project_id : option string
}.

Record RevenueMetrics : Type := mkRevenueMetrics {
  total_revenue : JValue;
  mrr : JValue;
  last_updated : Z
}.

Record Db : Type := mkDb {
  startups : gmap Z Startup;
  api_keys : gmap Z ApiKey;
  revenue_metrics : gmap Z RevenueMetrics
}.

(** Interactions with the outside, in the order they happen. *)
Inductive Event : Type :=
| EvHttpGet (url authorization : string)
| EvRandomBytes (size : nat)
| EvCountProjectId (project_id : string)
| EvInsertStartup (row : Startup)
| EvUpsertApiKey (startup_id : Z) (row : ApiKey)
| EvSelectApiKeys
| EvUpsertRevenueMetrics (startup_id : Z) (total_revenue mrr : JValue)
| EvDeleteStartup (startup_id : Z).

Record HttpResponse : Type := mkHttpResponse {
  status : Z;
  statusText : string;
  text : string                              (* the body *)
}.

Inductive FetchResult : Type :=
| NetworkFailure (msg : string)              (* [fetch] rejects with a TypeError *)
| Responded (response : HttpResponse).

(** The outside: each answer may depend on everything that happened before. *)
Record World : Type := mkWorld {
  http_get : list Event -> string -> string -> FetchResult;
  (* [Some msg]: the datastore answers this operation with an error *)
  db_error : list Event -> Event -> option string;
  (* the id the [startups] sequence gives to the next row *)
  next_startup_id : list Event -> Z;
  (* [Date.now ()], in milliseconds *)
  clock : list Event -> Z;
  (* [crypto.randomBytes (size)] *)
  randomBytes : list Event -> nat -> list byte
}.

(** [crypto.randomBytes (n)] returns [n] bytes. *)
Definition random_sized (w : World) : Prop :=
  forall history size, List.length (randomBytes w history size) = size.

Record RateLimitRecord : Type := mkRateLimitRecord {
  count : Z;
  resetAt : Z
}.

Record State : Type := mkState {
  db : Db;
  rateLimitStore : gmap string RateLimitRecord;
  requestCount : Z;
  trace : list Event
}.

Definition M (A : Type) : Type := State -> Result A * State.

Definition ret {A} (a : A) : M A := fun st => (Ok a, st).
Definition throw {A} (e : JsError) : M A := fun st => (Throw e, st).

Definition bind {A B} (m : M A) (k : A -> M B) : M B :=
  fun st =>
    match m st with
    | (Ok a, st') => k a st'
    | (Throw e, st') => (Throw e, st')
    end.

(** [try { body } catch (error) { handler }] *)
Definition try_catch {A} (body : M A) (handler : JsError -> M A) : M A :=
  fun st =>
    match body st with
    | (Ok a, st') => (Ok a, st')
    | (Throw e, st') => handler e st'
    end.

Definition lift {A} (r : Result A) : M A := fun st => (r, st).

Notation "'let!' x ':=' m 'in' k" := (bind m (fun x => k))
  (at level 10, x name, m at level 100, k at level 200).
Notation "'do!' m 'in' k" := (bind m (fun _ => k))
  (at level 10, m at level 100, k at level 200).

Definition record_event (ev : Event) (st : State) : State :=
  mkState (db st) (rateLimitStore st) (requestCount st) (trace st ++ [ev]).

Definition set_db (d : Db) (st : State) : State :=
  mkState d (rateLimitStore st) (requestCount st) (trace st).

(** ** Credential cipher (src/lib/encryption.ts) *)

Section Cipher.
Context (P : Platform) (cfg : Config).

Definition getEncryptionKey : Result string :=
  let fromAstro :=
    match import_meta_env cfg with
    | Some env => ENCRYPTION_KEY env
    | None => None
    end in
  let fromProcess := ENCRYPTION_KEY (process_env cfg) in
  match js_or truthy_string fromAstro fromProcess with
  | Some key =>
      if truthy_string key then Ok key
      else Throw (Error "ENCRYPTION_KEY is not set in environment variables")
  | None => Throw (Error "ENCRYPTION_KEY is not set in environment variables")
  end.

Definition IV_LENGTH : nat := 16.
Definition SALT_LENGTH : nat := 64.

Definition deriveKey (password : string) (salt : list byte) : list byte :=
  pbkdf2Sync P password salt 100000 32 "sha512".

Definition crypto_randomBytes (w : World) (size : nat) : M (list byte) :=
  fun st => (Ok (randomBytes w (trace st) size), record_event (EvRandomBytes size) st).

Definition encryptApiKey (w : World) (apiKey : string) : M string :=
  try_catch
    (let! salt := crypto_randomBytes w SALT_LENGTH in
     let! password := lift getEncryptionKey in
     let key := deriveKey password salt in
     let! iv := crypto_randomBytes w IV_LENGTH in
     let '(ciphertext, tag) := gcm_encrypt P key iv (utf8_encode apiKey) in
     let encrypted := toString_hex ciphertext in
     ret (toString_hex salt +:+ ":" +:+ toString_hex iv +:+ ":"
          +:+ toString_hex tag +:+ ":" +:+ encrypted))
    (fun error => throw (Error ("Failed to encrypt API key: " +:+ message error))).

Definition decryptApiKey (encryptedApiKey : string) : Result string :=
  rethrow
    (match split ":" encryptedApiKey with
     | [part0; part1; part2; part3] =>
         let salt := Buffer_from_hex part0 in
         let iv := Buffer_from_hex part1 in
         let tag := Buffer_from_hex part2 in
         let encrypted := part3 in
         result_bind getEncryptionKey (fun password =>
         let key := deriveKey password salt in
         result_bind (gcm_decrypt P key iv tag (Buffer_from_hex encrypted))
           (fun decrypted => Ok (utf8_decode decrypted)))
     | _ => Throw (Error "Invalid encrypted API key format")
     end)
    (fun error => Error ("Failed to decrypt API key: " +:+ message error)).

End Cipher.

(** The failure the specification calls MalformedTokenError: the error
    [decryptApiKey] throws when the field count is not four. *)
Definition MalformedTokenError : JsError :=
  Error "Failed to decrypt API key: Invalid encrypted API key format".

Definition key_missing_message : string :=
  "ENCRYPTION_KEY is not set in environment variables".

(** ** Text with unpaired surrogates

    Everywhere else a JavaScript string is modelled by its UTF-8 bytes,
    which is exact for well-formed text.  A JavaScript string is a sequence
    of 16-bit code units, and it may hold a surrogate that is not part of a
    pair; the ['utf8'] encoding that [cipher.update (apiKey, 'utf8', 'hex')]
    applies replaces each of these by U+FFFD.  For the cipher the plaintext
    is therefore also given by its code units. *)

Definition is_high_surrogate (u : N) : bool := ((0xD800 <=? u) && (u <=? 0xDBFF))%N.
Definition is_low_surrogate (u : N) : bool := ((0xDC00 <=? u) && (u <=? 0xDFFF))%N.

Definition byte_of_N (n : N) : byte := default Byte.x00 (Byte.of_N n).

(** The UTF-8 bytes of a code point. *)
Definition utf8_of_point (c : N) : list byte :=
  (if c <? 0x80 then [byte_of_N c]
   else if c <? 0x800 then [byte_of_N (0xC0 + c / 64); byte_of_N (0x80 + c mod 64)]
   else if c <? 0x10000
   then [byte_of_N (0xE0 + c / 4096); byte_of_N (0x80 + (c / 64) mod 64);
         byte_of_N (0x80 + c mod 64)]
   else [byte_of_N (0xF0 + c / 262144); byte_of_N (0x80 + (c / 4096) mod 64);
         byte_of_N (0x80 + (c / 64) mod 64); byte_of_N (0x80 + c mod 64)])%N.

(** [Buffer.from (s, 'utf8')]: a surrogate pair is one code point, a
    surrogate without its partner is encoded as U+FFFD. *)
Fixpoint utf8_of_units (s : list N) : list byte :=
  match s with
  | [] => []
  | u :: rest =>
      if is_high_surrogate u then
        match rest with
        | v :: rest' =>
            if is_low_surrogate v
            then utf8_of_point (0x10000 + (u - 0xD800) * 1024 + (v - 0xDC00))%N
                 ++ utf8_of_units rest'
            else utf8_of_point 0xFFFD%N ++ utf8_of_units rest
        | [] => utf8_of_point 0xFFFD%N
        end
      else if is_low_surrogate u then utf8_of_point 0xFFFD%N ++ utf8_of_units rest
      else utf8_of_point u ++ utf8_of_units rest
  end.

(** The code units of a code point. *)
Definition units_of_point (c : N) : list N :=
  (if c <? 0x10000 then [c]
   else [0xD800 + (c - 0x10000) / 1024; 0xDC00 + (c - 0x10000) mod 1024])%N.

Definition in_range (lower upper : N) (b : byte) : bool :=
  ((lower <=? Byte.to_N b) && (Byte.to_N b <=? upper))%N.

(** The payload of a continuation byte. *)
Definition trail (b : byte) : N := (Byte.to_N b - 0x80)%N.

(** [buf.toString ('utf8')]: the decoder of the Encoding Standard.  A byte
    that cannot start or continue a character ends the character being
    read, which becomes one U+FFFD, and is read again as a first byte; so
    does the end of the input. *)
Fixpoint units_of_utf8 (buf : list byte) : list N :=
  match buf with
  | [] => []
  | b0 :: rest =>
      let n0 := Byte.to_N b0 in
      if (n0 <? 0x80)%N then n0 :: units_of_utf8 rest
      else if ((0xC2 <=? n0) && (n0 <=? 0xDF))%N then
        match rest with
        | b1 :: rest1 =>
            if in_range 0x80 0xBF b1
            then units_of_point ((n0 - 0xC0) * 64 + trail b1)%N ++ units_of_utf8 rest1
            else 0xFFFD%N :: units_of_utf8 rest
        | [] => [0xFFFD%N]
        end
      else if ((0xE0 <=? n0) && (n0 <=? 0xEF))%N then
        let lower := (if n0 =? 0xE0 then 0xA0 else 0x80)%N in
        let upper := (if n0 =? 0xED then 0x9F else 0xBF)%N in
        match rest with
        | b1 :: rest1 =>
            if in_range lower upper b1 then
              match rest1 with
              | b2 :: rest2 =>
                  if in_range 0x80 0xBF b2
                  then units_of_point ((n0 - 0xE0) * 4096 + trail b1 * 64 + trail b2)%N
                       ++ units_of_utf8 rest2
                  else 0xFFFD%N :: units_of_utf8 rest1
              | [] => [0xFFFD%N]
              end
            else 0xFFFD%N :: units_of_utf8 rest
        | [] => [0xFFFD%N]
        end
      else if ((0xF0 <=? n0) && (n0 <=? 0xF4))%N then
        let lower := (if n0 =? 0xF0 then 0x90 else 0x80)%N in
        let upper := (if n0 =? 0xF4 then 0x8F else 0xBF)%N in
        match rest with
        | b1 :: rest1 =>
            if in_range lower upper b1 then
              match rest1 with
              | b2 :: rest2 =>
                  if in_range 0x80 0xBF b2 then
                    match rest2 with
                    | b3 :: rest3 =>
                        if in_range 0x80 0xBF b3
                        then units_of_point
                               ((n0 - 0xF0) * 262144 + trail b1 * 4096 + trail b2 * 64
                                + trail b3)%N
                             ++ units_of_utf8 rest3
                        else 0xFFFD%N :: units_of_utf8 rest2
                    | [] => [0xFFFD%N]
                    end
                  else 0xFFFD%N :: units_of_utf8 rest1
              | [] => [0xFFFD%N]
              end
            else 0xFFFD%N :: units_of_utf8 rest
        | [] => [0xFFFD%N]
        end
      else 0xFFFD%N :: units_of_utf8 rest
  end.

(** [s.toWellFormed ()]: every surrogate without its partner becomes
    U+FFFD. *)
Fixpoint toWellFormed (s : list N) : list N :=
  match s with
  | [] => []
  | u :: rest =>
      if is_high_surrogate u then
        match rest with
        | v :: rest' =>
            if is_low_surrogate v then u :: v :: toWellFormed rest'
            else 0xFFFD%N :: toWellFormed rest
        | [] => [0xFFFD%N]
        end
      else if is_low_surrogate u then 0xFFFD%N :: toWellFormed rest
      else u :: toWellFormed rest
  end.

(** [s.isWellFormed ()] *)
Fixpoint isWellFormed (s : list N) : bool :=
  match s with
  | [] => true
  | u :: rest =>
      if is_high_surrogate u then
        match rest with
        | v :: rest' => is_low_surrogate v && isWellFormed rest'
        | [] => false
        end
      else negb (is_low_surrogate u) && isWellFormed rest
  end.

(** A JavaScript string: each code unit has 16 bits. *)
Definition is_js_string (s : list N) : Prop := Forall (fun u => (u < 0x10000)%N) s.

Section CipherOnCodeUnits.
Context (P : Platform) (cfg : Config).

(** [encryptApiKey (apiKey)] for a plaintext given by its code units. *)
Definition encryptApiKey_utf16 (w : World) (apiKey : list N) : M string :=
  encryptApiKey P cfg w (string_of_list_byte (utf8_of_units apiKey)).

(** [decryptApiKey (encryptedApiKey)], the result given by its code units. *)
Definition decryptApiKey_utf16 (encryptedApiKey : string) : Result (list N) :=
  result_bind (decryptApiKey P cfg encryptedApiKey)
    (fun decrypted => Ok (units_of_utf8 (list_byte_of_string decrypted))).

End CipherOnCodeUnits.

(** ** Metrics source adapter (src/lib/revenuecat.ts) *)

Fixpoint lookup_field (key : string) (fields : list (string * JValue)) : option JValue :=
  match fields with
  | [] => None
  | (k, v) :: rest => if String.eqb k key then Some v else lookup_field key rest
  end.

(** [v.key], for the keys the code reads ([message], [error], [metrics],
    [id], [value]): [None] is [undefined]; reading a property of [null]
    throws.  Strings, numbers, booleans and arrays have none of these keys. *)
Definition get_property (v : JValue) (key : string) : Result (option JValue) :=
  match v with
  | JNull =>
      Throw (TypeError ("Cannot read properties of null (reading '" +:+ key +:+ "')"))
  | JObj fields => Ok (lookup_field key fields)
  | _ => Ok None
  end.

(** [v === s] for a string literal [s]. *)
Definition is_string (v : option JValue) (s : string) : bool :=
  match v with
  | Some (JStr s') => String.eqb s' s
  | _ => false
  end.

Record ParsedMetrics : Type := mkParsedMetrics {
  parsed_mrr : JValue;
  parsed_revenue : JValue
}.

(** [errorMessage === 'Invalid API key.' || errorMessage.includes ('Invalid
    API key')]: a string is searched, an array is asked for the element, and
    any other value has no callable [includes]. *)
Definition mentions_invalid_key (errorMessage : JValue) : Result bool :=
  match errorMessage with
  | JStr s => Ok (String.eqb s "Invalid API key." || includes s "Invalid API key")
  | JArr items => Ok (existsb (fun item => is_string (Some item) "Invalid API key") items)
  | JNull => Throw (TypeError "Cannot read properties of null (reading 'includes')")
  | _ => Throw (TypeError "errorMessage.includes is not a function")
  end.

(** [metrics.find ((m) => m.id === id)] *)
Fixpoint find_metric (id : string) (metrics : list JValue) : Result (option JValue) :=
  match metrics with
  | [] => Ok None
  | m :: rest =>
      result_bind (get_property m "id") (fun m_id =>
      if is_string m_id id then Ok (Some m) else find_metric id rest)
  end.

(** [data.metrics.find (...)] *)
Definition data_metrics_find (id : string) (data : JValue) : Result (option JValue) :=
  result_bind (get_property data "metrics") (fun metrics =>
  match metrics with
  | Some (JArr items) => find_metric id items
  | Some JNull => Throw (TypeError "Cannot read properties of null (reading 'find')")
  | None => Throw (TypeError "Cannot read properties of undefined (reading 'find')")
  | Some _ => Throw (TypeError "data.metrics.find is not a function")
  end).

(** [metric?.value || 0] *)
Definition value_or_zero (metric : option JValue) : JValue :=
  match metric with
  | Some m =>
      match get_property m "value" with
      | Ok (Some v) => if truthy v then v else JNum 0
      | _ => JNum 0
      end
  | None => JNum 0
  end.

Definition InvalidApiKeyError : JsError := mkError "InvalidApiKeyError" "Invalid API key".

Section Adapter.
Context (P : Platform) (w : World).

(** [fetch (url, { headers: { Authorization, ... } })] *)
Definition fetch (url authorization : string) : M HttpResponse :=
  fun st =>
    let st' := record_event (EvHttpGet url authorization) st in
    match http_get w (trace st) url authorization with
    | NetworkFailure msg => (Throw (TypeError msg), st')
    | Responded response => (Ok response, st')
    end.

(** [response.ok] *)
Definition ok (response : HttpResponse) : bool :=
  (200 <=? status response) && (status response <=? 299).

(** The branch taken when [!response.ok]: it always throws. *)
Definition error_of_response (response : HttpResponse) : Result ParsedMetrics :=
  let errorText := text response in
  let errorBody :=
    match JSON_parse P errorText with
    | inl parsed => parsed
    | inr _ => JObj [("message", JStr errorText)]
    end in
  result_bind (get_property errorBody "message") (fun body_message =>
  result_bind (get_property errorBody "error") (fun body_error =>
  let errorMessage :=
    match js_or truthy body_message body_error with
    | Some v => if truthy v then v else JStr errorText
    | None => JStr errorText
    end in
  result_bind
    (if status response =? 401 then mentions_invalid_key errorMessage else Ok false)
    (fun invalid =>
     if invalid then Throw InvalidApiKeyError
     else Throw (Error ("RevenueCat API error: " +:+ pretty (status response) +:+ " "
                        +:+ statusText response +:+ ". " +:+ errorText))))).

(** [await response.json ()] and the two lookups. *)
Definition parse_metrics (response : HttpResponse) : Result ParsedMetrics :=
  result_bind
    (match JSON_parse P (text response) with
     | inl data => Ok data
     | inr msg => Throw (SyntaxError msg)
     end) (fun data =>
  result_bind (data_metrics_find "mrr" data) (fun mrrMetric =>
  result_bind (data_metrics_find "revenue" data) (fun revenueMetric =>
  Ok (mkParsedMetrics (value_or_zero mrrMetric) (value_or_zero revenueMetric))))).

Definition fetchRevenueCatMetrics (apiKey projectId : string) : M ParsedMetrics :=
  if negb (truthy_string projectId) then throw (Error "Project ID is required")
  else
    let baseUrl := "https://api.revenuecat.com/v2" in
    let url := baseUrl +:+ "/projects/" +:+ projectId +:+ "/metrics/overview" in
    let! response := fetch url ("Bearer " +:+ apiKey) in
    if negb (ok response) then lift (error_of_response response)
    else lift (parse_metrics response).

Definition validateRevenueCatApiKey (apiKey projectId : string) : M bool :=
  try_catch
    (do! fetchRevenueCatMetrics apiKey projectId in ret true)
    (fun _ => ret false).

End Adapter.

(** ** Persistence (src/lib/db.ts) *)

Record Entry : Type := mkEntry {
  startup_id : Z;
  encrypted_api_key : string;
  project_id : option string
}.

Section Persistence.
Context (w : World).

(** One request to the datastore: the world says whether it errors.  Its
    own checks (foreign keys, the unique index on project ids) are among
    the errors it may answer with; an operation that errors changes
    nothing. *)
Definition db_call (ev : Event) : M (option string) :=
  fun st => (Ok (db_error w (trace st) ev), record_event ev st).

Definition get_db : M Db := fun st => (Ok (db st), st).
Definition modify_db (f : Db -> Db) : M unit :=
  fun st => (Ok tt, set_db (f (db st)) st).
Definition Date_now : M Z := fun st => (Ok (clock w (trace st)), st).

Definition project_id_count (normalized : string) (d : Db) : nat :=
  size (filter (fun row => revenuecat_project_id row.2 = Some normalized) (api_keys d)).

Definition isProjectIdTaken (projectId : string) : M bool :=
  if negb (truthy_string projectId) then ret false
  else
    let normalized := trim projectId in
    if negb (truthy_string normalized) then ret false
    else
      let! error := db_call (EvCountProjectId normalized) in
      match error with
      | Some msg =>
          throw (Error ("Failed to validate project ID uniqueness: " +:+ msg))
      | None =>
          let! d := get_db in
          ret (bool_decide (0 < project_id_count normalized d)%nat)
      end.

Definition createStartup (name : string) (websiteUrl founderUsername appStoreId : option string)
  : M (Z * Startup) :=
  let row := mkStartup name websiteUrl founderUsername appStoreId in
  fun st =>
    let id := next_startup_id w (trace st) in
    (let! error := db_call (EvInsertStartup row) in
     match error with
     | Some msg => throw (Error ("Failed to create startup: " +:+ msg))
     | None =>
         do! modify_db (fun d =>
               mkDb (<[id := row]> (startups d)) (api_keys d) (revenue_metrics d)) in
         ret (id, row)
     end) st.

Definition upsertApiKey (startupId : Z) (encryptedApiKey : string) (projectId : option string)
  : M unit :=
  let row := mkApiKey encryptedApiKey (js_or truthy_string projectId None) in
  let! error := db_call (EvUpsertApiKey startupId row) in
  match error with
  | Some msg => throw (Error ("Failed to upsert API key: " +:+ msg))
  | None =>
      modify_db (fun d =>
        mkDb (startups d) (<[startupId := row]> (api_keys d)) (revenue_metrics d))
  end.

(** The query has no ORDER BY: the rows come in the order in which the map
    lists them, and the loop is studied on every list of entries. *)
Definition getStartupsWithApiKeys : M (list Entry) :=
  let! error := db_call EvSelectApiKeys in
  match error with
  | Some msg => throw (Error ("Failed to fetch API keys: " +:+ msg))
  | None =>
      let! d := get_db in
      ret (map (fun row => mkEntry row.1 (revenuecat_api_key row.2)
                             (revenuecat_project_id row.2))
               (map_to_list (api_keys d)))
  end.

Definition upsertRevenueMetrics (startupId : Z) (totalRevenue mrr : JValue) : M unit :=
  let! now := Date_now in
  let! error := db_call (EvUpsertRevenueMetrics startupId totalRevenue mrr) in
  match error with
  | Some msg => throw (Error ("Failed to upsert revenue metrics: " +:+ msg))
  | None =>
      modify_db (fun d =>
        mkDb (startups d) (api_keys d)
             (<[startupId := mkRevenueMetrics totalRevenue mrr now]> (revenue_metrics d)))
  end.

(** The delete cascades to [api_keys] and [revenue_metrics]. *)
Definition deleteStartup (startupId : Z) : M unit :=
  let! error := db_call (EvDeleteStartup startupId) in
  match error with
  | Some msg => throw (Error ("Failed to delete startup: " +:+ msg))
  | None =>
      modify_db (fun d =>
        mkDb (delete startupId (startups d)) (delete startupId (api_keys d))
             (delete startupId (revenue_metrics d)))
  end.

End Persistence.

(** ** HTTP requests and responses of the endpoints *)

Record Request : Type := mkRequest {
  headers : gmap string string;              (* lower-case header names *)
  body_text : string
}.

Inductive Body : Type :=
| BodyText (s : string)
| BodyJson (v : JValue).                     (* [JSON.stringify (v)] *)

Record Response : Type := mkResponse {
  response_status : Z;
  response_body : Body
}.

Definition JNat (n : nat) : JValue := JNum (inject_Z (Z.of_nat n)).

(** ** Refresh job (src/pages/api/cron/update-metrics.ts) *)

Record ErrorEntry : Type := mkErrorEntry {
  error_startup_id : Z;
  error : string
}.

Record Results : Type := mkResults {
  success : nat;
  failed : nat;
  deleted : nat;
  errors : list ErrorEntry
}.

Definition initial_results : Results := mkResults 0 0 0 [].

Definition count_success (r : Results) : Results :=
  mkResults (S (success r)) (failed r) (deleted r) (errors r).
Definition count_deleted (r : Results) : Results :=
  mkResults (success r) (failed r) (S (deleted r)) (errors r).
(** [results.failed++; results.errors.push ({ startup_id, error })] *)
Definition count_failed (id : Z) (msg : string) (r : Results) : Results :=
  mkResults (success r) (S (failed r)) (deleted r) (errors r ++ [mkErrorEntry id msg]).

Definition error_to_json (e : ErrorEntry) : JValue :=
  JObj [("startup_id", JNum (inject_Z (error_startup_id e))); ("error", JStr (error e))].

(** [{ message: 'Metrics update completed', ...results }] *)
Definition report_body (r : Results) : JValue :=
  JObj [("message", JStr "Metrics update completed");
        ("success", JNat (success r));
        ("failed", JNat (failed r));
        ("deleted", JNat (deleted r));
        ("errors", JArr (map error_to_json (errors r)))].

(** The three JSON responses of the job. *)
Definition no_startups_response : Response :=
  mkResponse 200
    (BodyJson (JObj [("message", JStr "No startups to update"); ("updated", JNum 0)])).

Definition completed_response (results : Results) : Response :=
  mkResponse 200 (BodyJson (report_body results)).

Definition job_error_response (error : JsError) : Response :=
  mkResponse 500
    (BodyJson (JObj [("error", JStr "Failed to update metrics");
                     ("message", JStr (message error))])).

Section RefreshJob.
Context (P : Platform) (cfg : Config) (w : World).

(** The body of the [try] block of one loop iteration.  [results] is only
    updated at points after which the block cannot throw. *)
Definition attempt (e : Entry) (results : Results) : M Results :=
  match project_id e with
  | Some projectId =>
      if truthy_string projectId then
        let! apiKey := lift (decryptApiKey P cfg (encrypted_api_key e)) in
        let! metrics := fetchRevenueCatMetrics P w apiKey projectId in
        do! upsertRevenueMetrics w (startup_id e) (parsed_revenue metrics) (parsed_mrr metrics) in
        ret (count_success results)
      else ret (count_failed (startup_id e) "Project ID is missing" results)
  | None => ret (count_failed (startup_id e) "Project ID is missing" results)
  end.

(** The [catch (error)] block of one loop iteration. *)
Definition recover (e : Entry) (results : Results) (error : JsError) : M Results :=
  if String.eqb (name error) "InvalidApiKeyError" then
    try_catch
      (do! deleteStartup w (startup_id e) in ret (count_deleted results))
      (fun deleteError =>
         ret (count_failed (startup_id e)
                ("Failed to delete startup: " +:+ message deleteError) results))
  else ret (count_failed (startup_id e) (message error) results).

Definition process_entry (e : Entry) (results : Results) : M Results :=
  try_catch (attempt e results) (recover e results).

(** [for (const entry of startupsWithKeys) { ... }] *)
Fixpoint for_of (startupsWithKeys : list Entry) (results : Results) : M Results :=
  match startupsWithKeys with
  | [] => ret results
  | e :: rest =>
      let! results' := process_entry e results in
      for_of rest results'
  end.

Definition unauthorized : Response := mkResponse 401 (BodyText "Unauthorized").

(** [import.meta.env?.CRON_SECRET || process.env.CRON_SECRET] *)
Definition cronSecret : option string :=
  js_or truthy_string
    (match import_meta_env cfg with
     | Some env => CRON_SECRET env
     | None => None
     end)
    (CRON_SECRET (process_env cfg)).

Definition GET (request : Request) : M Response :=
  let authHeader := headers request !! "authorization" in
  match cronSecret with
  | Some secret =>
      if negb (truthy_string secret) then ret unauthorized
      else if negb (truthy_opt truthy_string authHeader)
              || negb (bool_decide (authHeader = Some ("Bearer " +:+ secret)))
      then ret unauthorized
      else
        try_catch
          (let! startupsWithKeys := getStartupsWithApiKeys w in
           if (List.length startupsWithKeys =? 0)%nat then ret no_startups_response
           else
             let! results := for_of startupsWithKeys initial_results in
             ret (completed_response results))
          (fun error => ret (job_error_response error))
  | None => ret unauthorized
  end.

End RefreshJob.

(** ** Rate limiter (rate-limit part of src/lib/encryption.ts) *)

Record RateLimitResult : Type := mkRateLimitResult {
  allowed : bool;
  current : Z;
  limit : Z;
  result_resetAt : Z;
  retryAfter : Z
}.

Definition CLEANUP_INTERVAL : Z := 1000.

(** [Math.ceil (x / 1000)] *)
Definition ceil_div_1000 (x : Z) : Z := - ((- x) / 1000).

Section RateLimit.
Context (w : World).

Definition cleanup : M unit :=
  fun st =>
    let now := clock w (trace st) in
    (Ok tt,
     mkState (db st)
       (filter (fun entry => ¬ (resetAt entry.2 < now)) (rateLimitStore st))
       (requestCount st) (trace st)).

Definition checkRateLimit (identifier : string) (config_max config_windowMs : option Z)
  : M RateLimitResult :=
  let max := default 5 config_max in
  let windowMs := default 60000 config_windowMs in
  fun st =>
    let now := clock w (trace st) in
    let key := identifier in
    let st1 := mkState (db st) (rateLimitStore st) (requestCount st + 1) (trace st) in
    let st2 :=
      if (requestCount st1 mod CLEANUP_INTERVAL =? 0) then (cleanup st1).2 else st1 in
    let fresh :=
      let record := mkRateLimitRecord 1 (now + windowMs) in
      (Ok (mkRateLimitResult true 1 max (resetAt record) 0),
       mkState (db st2) (<[key := record]> (rateLimitStore st2))
               (requestCount st2) (trace st2)) in
    match rateLimitStore st2 !! key with
    | None => fresh
    | Some record =>
        if resetAt record <? now then fresh
        else
          let record' := mkRateLimitRecord (count record + 1) (resetAt record) in
          let allowed := count record' <=? max in
          let retryAfter :=
            if allowed then 0 else ceil_div_1000 (resetAt record' - now) in
          (Ok (mkRateLimitResult allowed (count record') max (resetAt record') retryAfter),
           mkState (db st2) (<[key := record']> (rateLimitStore st2))
                   (requestCount st2) (trace st2))
    end.

(** [headers.get (name)], when it is truthy. *)
Definition header (request : Request) (name : string) : option string :=
  js_or truthy_string (headers request !! name) None.

Definition getClientIdentifier (request : Request) : string :=
  match header request "x-forwarded-for" with
  | Some forwardedFor => trim (hd EmptyString (split "," forwardedFor))
  | None =>
      match header request "x-real-ip" with
      | Some realIp => realIp
      | None =>
          match header request "cf-connecting-ip" with
          | Some cfIp => cfIp
          | None => "unknown"
          end
      end
  end.

(** The 429 response (its Retry-After and X-RateLimit headers are not kept
    in [Response]). *)
Definition createRateLimitResponse (result : RateLimitResult) : Response :=
  mkResponse 429
    (BodyJson (JObj [("error", JStr "Too many requests");
                     ("message", JStr ("Rate limit exceeded. Please try again in "
                                       +:+ pretty (retryAfter result) +:+ " seconds."));
                     ("retryAfter", JNum (inject_Z (retryAfter result)))])).

End RateLimit.

(** ** Registration endpoint *)

(** [{ error: e }] under [JSON.stringify]: an undefined field is dropped. *)
Definition error_body (e : option string) : JValue :=
  match e with
  | Some msg => JObj [("error", JStr msg)]
  | None => JObj []
  end.

(** [`${prefix}${e}`] *)
Definition prefixed (prefix : string) (e : option string) : option string :=
  Some (prefix +:+ default "undefined" e).

Definition bad_request (e : option string) : Response :=
  mkResponse 400 (BodyJson (error_body e)).

(** [const { key } = body] once [body] is known not to be null. *)
Definition property (body : JValue) (key : string) : option JValue :=
  match body with
  | JObj fields => lookup_field key fields
  | _ => None
  end.

Section Registration.
Context (P : Platform) (cfg : Config) (w : World).

(** [await request.json ()] *)
Definition request_json (request : Request) : M JValue :=
  match JSON_parse P (body_text request) with
  | inl v => ret v
  | inr msg => throw (SyntaxError msg)
  end.

(** Steps 4 to 6, once every input is validated. *)
Definition register (name : string) (websiteUrl founderUsername appStoreId : option string)
    (apiKey projectId : string) : M Response :=
  let! taken := isProjectIdTaken w projectId in
  if taken then
    ret (mkResponse 409
           (BodyJson (error_body (Some "This RevenueCat project ID is already registered."))))
  else
    let! isValid := validateRevenueCatApiKey P w apiKey projectId in
    if negb isValid then
      ret (bad_request
             (Some "Invalid RevenueCat API key or Project ID. Please check your credentials."))
    else
      let! metrics := fetchRevenueCatMetrics P w apiKey projectId in
      let! startup := createStartup w name websiteUrl founderUsername appStoreId in
      let! encryptedApiKey := encryptApiKey P cfg w apiKey in
      do! upsertApiKey w startup.1 encryptedApiKey (Some projectId) in
      do! upsertRevenueMetrics w startup.1 (parsed_revenue metrics) (parsed_mrr metrics) in
      ret (mkResponse 201
             (BodyJson (JObj [("success", JBool true);
                              ("startup", JObj [("id", JNum (inject_Z startup.1));
                                                ("name", JStr (startup_name startup.2))]);
                              ("metrics", JObj [("mrr", parsed_mrr metrics);
                                                ("revenue", parsed_revenue metrics)])]))).

(** Step 3 for an optional field: [None] is a 400 response. *)
Definition optional (field : option JValue) (validate : option JValue -> ValidationResult)
    (label : string) : Response + option string :=
  if truthy_opt truthy field then
    let validation := validate field in
    if negb (valid validation)
    then inl (bad_request (prefixed label (validation_error validation)))
    else inr (Some (value validation))
  else inr None.

(** The [try] block of the endpoint. *)
Definition POST_attempt (request : Request) : M Response :=
  let clientId := getClientIdentifier request in
  let! rateLimit := checkRateLimit w clientId (Some 3) (Some (60 * 60 * 1000)) in
  if negb (allowed rateLimit) then ret (createRateLimitResponse rateLimit)
  else
    let! body := request_json request in
    match body with
    | JNull =>
        throw (TypeError "Cannot destructure property 'name' of 'body' as it is null.")
    | _ =>
        let name := property body "name" in
        let websiteUrl := property body "websiteUrl" in
        let appStoreId := property body "appStoreId" in
        let founderUsername := property body "founderUsername" in
        let revenuecatApiKey := property body "revenuecatApiKey" in
        let projectId := property body "projectId" in
        let nameValidation := validateName name in
        if negb (valid nameValidation)
        then ret (bad_request (validation_error nameValidation))
        else
        let projectIdValidation := validateProjectId projectId in
        if negb (valid projectIdValidation)
        then ret (bad_request (validation_error projectIdValidation))
        else
        let apiKeyValidation := validateApiKey revenuecatApiKey in
        if negb (valid apiKeyValidation)
        then ret (bad_request (validation_error apiKeyValidation))
        else
        match optional websiteUrl (validateUrl P) "Website: " with
        | inl response => ret response
        | inr validatedWebsiteUrl =>
        match optional appStoreId validateAppStoreId "App Store ID: " with
        | inl response => ret response
        | inr validatedAppStoreId =>
        match optional founderUsername validateUsername "Twitter username: " with
        | inl response => ret response
        | inr validatedUsername =>
        if negb (truthy_opt truthy_string validatedAppStoreId)
           && negb (truthy_opt truthy_string validatedWebsiteUrl)
        then ret (bad_request
                    (Some "Either App Store ID or Website is required (at least one to fetch the app icon)"))
        else
          register (value nameValidation) validatedWebsiteUrl validatedUsername
                   validatedAppStoreId (value apiKeyValidation)
                   (value projectIdValidation)
        end end end
    end.

(** The [catch (error)] block of the endpoint. *)
Definition POST_recover (error : JsError) : M Response :=
  let errorMessage := message error in
  let safeMessage :=
    if includes errorMessage "API" then errorMessage
    else "Failed to add startup. Please try again." in
  ret (mkResponse 500
         (BodyJson (JObj [("error", JStr "Failed to add startup");
                          ("message", JStr safeMessage)]))).

Definition POST (request : Request) : M Response :=
  try_catch (POST_attempt request) POST_recover.

End Registration.

(** ** Vocabulary of the properties *)

(** The entry carries a project id and a credential that decrypts. *)
Definition credentials (P : Platform) (cfg : Config) (e : Entry) (apiKey projectId : string)
  : Prop :=
  project_id e = Some projectId
  /\ truthy_string projectId = true
  /\ decryptApiKey P cfg (encrypted_api_key e) = Ok apiKey.

(** Whenever it is asked, the adapter answers this request with [r]. *)
Definition fetch_returns (P : Platform) (w : World) (apiKey projectId : string)
    (r : Result ParsedMetrics) : Prop :=
  forall st, (fetchRevenueCatMetrics P w apiKey projectId st).1 = r.

(** Processing [e] from [st] reaches the adapter, whose fetch fails with
    the invalid-credential error. *)
Definition invalid_key_failure (P : Platform) (cfg : Config) (w : World) (e : Entry)
    (st : State) : Prop :=
  exists apiKey projectId,
    credentials P cfg e apiKey projectId
    /\ (fetchRevenueCatMetrics P w apiKey projectId st).1 = Throw InvalidApiKeyError.

(** The trigger carries the configured bearer token. *)
Definition authorized (cfg : Config) (request : Request) : Prop :=
  exists secret,
    cronSecret cfg = Some secret
    /\ truthy_string secret = true
    /\ headers request !! "authorization" = Some ("Bearer " +:+ secret).

Definition master_secret_absent (cfg : Config) : Prop :=
  getEncryptionKey cfg = Throw (Error key_missing_message).

Definition project_id_registered (projectId : string) (d : Db) : Prop :=
  exists id row,
    api_keys d !! id = Some row /\ revenuecat_project_id row = Some projectId.

(** No two credential records name the same project. *)
Definition project_ids_unique (d : Db) : Prop :=
  forall i j ri rj projectId,
    api_keys d !! i = Some ri -> api_keys d !! j = Some rj ->
    revenuecat_project_id ri = Some projectId ->
    revenuecat_project_id rj = Some projectId -> i = j.

(** An element of the metric list as the response type declares it: an
    object. *)
Definition is_metric (m : JValue) : Prop :=
  match m with
  | JObj _ => True
  | _ => False
  end.

(** [m.id === id] *)
Definition has_id (id : string) (m : JValue) : bool :=
  match get_property m "id" with
  | Ok m_id => is_string m_id id
  | Throw _ => false
  end.

Definition is_delete (ev : Event) : Prop :=
  match ev with
  | EvDeleteStartup _ => True
  | _ => False
  end.

Definition is_http (ev : Event) : Prop :=
  match ev with
  | EvHttpGet _ _ => True
  | _ => False
  end.

(** The stored records of one entry: its row in each table. *)
Definition records (d : Db) (id : Z) : option Startup * option ApiKey * option RevenueMetrics :=
  (startups d !! id, api_keys d !! id, revenue_metrics d !! id).

(** What was appended to the trace between [st] and [st']. *)
Definition new_events (st st' : State) : list Event :=
  drop (List.length (trace st)) (trace st').

(** Interactions that encrypt a credential (which starts by drawing the
    salt) or write to the store. *)
Definition encrypts_or_stores (ev : Event) : Prop :=
  match ev with
  | EvRandomBytes _ | EvInsertStartup _ | EvUpsertApiKey _ _
  | EvUpsertRevenueMetrics _ _ _ | EvDeleteStartup _ => True
  | EvHttpGet _ _ | EvCountProjectId _ | EvSelectApiKeys => False
  end.

Definition overview_url (projectId : string) : string :=
  "https://api.revenuecat.com/v2" +:+ "/projects/" +:+ projectId +:+ "/metrics/overview".

(** ** A sample platform, world and store *)

Definition sample_overview : JValue :=
  JObj [("object", JStr "overview_metrics");
        ("metrics", JArr [JObj [("id", JStr "active_trials"); ("value", JNum 12)];
                          JObj [("id", JStr "mrr"); ("value", JNum 1200)];
                          JObj [("id", JStr "revenue"); ("value", JNum 54000)]])].

Definition sample_idle_overview : JValue :=
  JObj [("object", JStr "overview_metrics");
        ("metrics", JArr [JObj [("id", JStr "active_trials"); ("value", JNum 3)]])].

Definition sample_registration : JValue :=
  JObj [("name", JStr "Alpha"); ("websiteUrl", JStr "https://alpha.example");
        ("revenuecatApiKey", JStr "sk_alpha_key"); ("projectId", JStr "proj_alpha")].

(** A table in place of a parser. *)
Definition sample_JSON_parse (s : string) : JValue + string :=
  if String.eqb s "overview of proj_alpha" then inl sample_overview
  else if String.eqb s "overview of proj_idle" then inl sample_idle_overview
  else if String.eqb s "invalid key body"
  then inl (JObj [("type", JStr "authentication_error"); ("message", JStr "Invalid API key.")])
  else if String.eqb s "registration of proj_alpha" then inl sample_registration
  else inr "Unexpected token in JSON at position 0".

(** A table in place of the URL parser. *)
Definition sample_URL_parse (s : string) : option URL :=
  if String.eqb s "https://alpha.example" then Some (mkURL "https:" "alpha.example")
  else if String.eqb s "http://localhost:4321/" then Some (mkURL "http:" "localhost")
  else None.

Definition sample_pbkdf2 (password : string) (salt : list byte) (iterations : Z)
    (keylen : nat) (digest : string) : list byte :=
  repeat (hd Byte.x00 (list_byte_of_string password ++ salt)) keylen.

Definition same_bytes (a b : list byte) : bool :=
  bool_decide (map Byte.to_N a = map Byte.to_N b).

(** A stand-in for the cipher: the ciphertext is the reversed plaintext and
    the tag repeats the iv. *)
Definition sample_gcm_encrypt (key iv plaintext : list byte) : list byte * list byte :=
  (rev plaintext, iv).

Definition sample_gcm_decrypt (key iv tag ciphertext : list byte) : Result (list byte) :=
  if same_bytes tag iv then Ok (rev ciphertext)
  else Throw (Error "Unsupported state or unable to authenticate data").

Definition sample_platform : Platform :=
  mkPlatform sample_JSON_parse sample_URL_parse sample_pbkdf2 sample_gcm_encrypt
             sample_gcm_decrypt.

Definition sample_http_get (history : list Event) (url authorization : string) : FetchResult :=
  if String.eqb url (overview_url "proj_alpha")
  then Responded (mkHttpResponse 200 "OK" "overview of proj_alpha")
  else if String.eqb url (overview_url "proj_idle")
  then Responded (mkHttpResponse 200 "OK" "overview of proj_idle")
  else if String.eqb url (overview_url "proj_revoked")
  then Responded (mkHttpResponse 401 "Unauthorized" "invalid key body")
  else if String.eqb url (overview_url "proj_flaky")
  then Responded (mkHttpResponse 503 "Service Unavailable" "upstream timeout")
  else if String.eqb url (overview_url "proj_expired")
  then Responded (mkHttpResponse 401 "Unauthorized" "session expired")
  else if String.eqb url (overview_url "proj_broken")
  then Responded (mkHttpResponse 200 "OK" "<html>maintenance</html>")
  else NetworkFailure "fetch failed".

Definition sample_world : World :=
  mkWorld sample_http_get
          (fun _ _ => None)
          (fun history => 100 + Z.of_nat (List.length history))
          (fun history => 1700000000000 + Z.of_nat (List.length history))
          (fun _ size => repeat Byte.x2a size).

(** The same world with a datastore that refuses every delete. *)
Definition stubborn_world : World :=
  mkWorld sample_http_get
          (fun _ ev => match ev with
                       | EvDeleteStartup _ => Some "connection terminated"
                       | _ => None
                       end)
          (next_startup_id sample_world) (clock sample_world) (randomBytes sample_world).

Definition sample_cfg : Config :=
  mkConfig None (mkEnv (Some "master secret") (Some "cron token")).

(** The trigger token is configured, the master secret is not. *)
Definition keyless_cfg : Config :=
  mkConfig None (mkEnv None (Some "cron token")).

Definition empty_db : Db := mkDb ∅ ∅ ∅.
Definition state_of (d : Db) : State := mkState d ∅ 0 [].

Definition sample_token (apiKey : string) : string :=
  match encryptApiKey sample_platform sample_cfg sample_world apiKey (state_of empty_db) with
  | (Ok token, _) => token
  | (Throw _, _) => EmptyString
  end.

Definition entry_alpha : Entry := mkEntry 1 (sample_token "sk_alpha_key") (Some "proj_alpha").
Definition entry_revoked : Entry := mkEntry 2 (sample_token "sk_revoked_key") (Some "proj_revoked").
Definition entry_flaky : Entry := mkEntry 3 (sample_token "sk_flaky_key") (Some "proj_flaky").
Definition entry_unlinked : Entry := mkEntry 4 (sample_token "sk_unlinked_key") None.
Definition entry_idle : Entry := mkEntry 5 (sample_token "sk_idle_key") (Some "proj_idle").

Definition entry_expired : Entry := mkEntry 6 (sample_token "sk_expired_key") (Some "proj_expired").
Definition entry_broken : Entry := mkEntry 7 (sample_token "sk_broken_key") (Some "proj_broken").
Definition entry_offline : Entry := mkEntry 8 (sample_token "sk_offline_key") (Some "proj_offline").
Definition entry_garbled : Entry := mkEntry 9 "not-a-token" (Some "proj_alpha").

Definition api_key_row (e : Entry) : ApiKey :=
  mkApiKey (encrypted_api_key e) (project_id e).

Definition old_metrics : RevenueMetrics := mkRevenueMetrics (JNum 100) (JNum 10) 1600000000000.

Definition sample_db : Db :=
  mkDb (list_to_map [(1, mkStartup "Alpha" (Some "https://alpha.example") None None);
                     (2, mkStartup "Revoked" None None (Some "1234567"));
                     (3, mkStartup "Flaky" None (Some "flaky_dev") (Some "7654321"))])
       (list_to_map [(1, api_key_row entry_alpha); (2, api_key_row entry_revoked);
                     (3, api_key_row entry_flaky)])
       (list_to_map [(1, old_metrics); (2, old_metrics); (3, old_metrics)]).

Definition sample_request : Request :=
  mkRequest {[ "authorization" := "Bearer cron token" ]} EmptyString.

Definition registration_request : Request :=
  mkRequest {[ "x-real-ip" := "203.0.113.7" ]} "registration of proj_alpha".

(** A 2xx answer whose metric list holds a null, and no "mrr" or "revenue"
    element. *)
Definition null_items : list JValue :=
  [JObj [("id", JStr "active_trials"); ("value", JNum 3)]; JNull].

Definition null_overview : JValue :=
  JObj [("object", JStr "overview_metrics"); ("metrics", JArr null_items)].

Definition null_platform : Platform :=
  mkPlatform
    (fun s => if String.eqb s "overview of proj_null" then inl null_overview
              else sample_JSON_parse s)
    sample_URL_parse sample_pbkdf2 sample_gcm_encrypt sample_gcm_decrypt.

Definition null_world : World :=
  mkWorld
    (fun history url authorization =>
       if String.eqb url (overview_url "proj_null")
       then Responded (mkHttpResponse 200 "OK" "overview of proj_null")
       else sample_http_get history url authorization)
    (db_error sample_world) (next_startup_id sample_world) (clock sample_world)
    (randomBytes sample_world).

Definition entry_null : Entry := mkEntry 10 (sample_token "sk_null_key") (Some "proj_null").

(** ** One loop iteration as a step relation

    [processed P cfg w e results st results' st']: the seven ways in which
    one iteration of the loop takes [results] and [st] to [results'] and
    [st'] ([process_entry_processed] shows that there is no other). *)

Definition after_fetch (apiKey projectId : string) (st : State) : State :=
  record_event (EvHttpGet (overview_url projectId) ("Bearer " +:+ apiKey)) st.

Definition written (w : World) (id : Z) (m : ParsedMetrics) (st1 : State) : State :=
  set_db (mkDb (startups (db st1)) (api_keys (db st1))
               (<[id := mkRevenueMetrics (parsed_revenue m) (parsed_mrr m)
                          (clock w (trace st1))]> (revenue_metrics (db st1))))
         (record_event (EvUpsertRevenueMetrics id (parsed_revenue m) (parsed_mrr m)) st1).

Definition removed (id : Z) (st1 : State) : State :=
  set_db (mkDb (delete id (startups (db st1))) (delete id (api_keys (db st1)))
               (delete id (revenue_metrics (db st1))))
         (record_event (EvDeleteStartup id) st1).

Inductive processed (P : Platform) (cfg : Config) (w : World) (e : Entry)
    (results : Results) (st : State) : Results -> State -> Prop :=
| processed_unlinked :
    truthy_opt truthy_string (project_id e) = false ->
    processed P cfg w e results st
      (count_failed (startup_id e) "Project ID is missing" results) st
| processed_undecryptable projectId err :
    project_id e = Some projectId -> truthy_string projectId = true ->
    decryptApiKey P cfg (encrypted_api_key e) = Throw err ->
    processed P cfg w e results st
      (count_failed (startup_id e) (message err) results) st
| processed_success apiKey projectId m :
    credentials P cfg e apiKey projectId ->
    (fetchRevenueCatMetrics P w apiKey projectId st).1 = Ok m ->
    db_error w (trace (after_fetch apiKey projectId st))
      (EvUpsertRevenueMetrics (startup_id e) (parsed_revenue m) (parsed_mrr m)) = None ->
    processed P cfg w e results st
      (count_success results)
      (written w (startup_id e) m (after_fetch apiKey projectId st))
| processed_write_refused apiKey projectId m msg :
    credentials P cfg e apiKey projectId ->
    (fetchRevenueCatMetrics P w apiKey projectId st).1 = Ok m ->
    db_error w (trace (after_fetch apiKey projectId st))
      (EvUpsertRevenueMetrics (startup_id e) (parsed_revenue m) (parsed_mrr m)) = Some msg ->
    processed P cfg w e results st
      (count_failed (startup_id e) ("Failed to upsert revenue metrics: " +:+ msg) results)
      (record_event (EvUpsertRevenueMetrics (startup_id e) (parsed_revenue m) (parsed_mrr m))
                    (after_fetch apiKey projectId st))
| processed_removed apiKey projectId :
    credentials P cfg e apiKey projectId ->
    (fetchRevenueCatMetrics P w apiKey projectId st).1 = Throw InvalidApiKeyError ->
    db_error w (trace (after_fetch apiKey projectId st)) (EvDeleteStartup (startup_id e)) = None ->
    processed P cfg w e results st
      (count_deleted results)
      (removed (startup_id e) (after_fetch apiKey projectId st))
| processed_delete_refused apiKey projectId msg :
    credentials P cfg e apiKey projectId ->
    (fetchRevenueCatMetrics P w apiKey projectId st).1 = Throw InvalidApiKeyError ->
    db_error w (trace (after_fetch apiKey projectId st)) (EvDeleteStartup (startup_id e))
      = Some msg ->
    processed P cfg w e results st
      (count_failed (startup_id e)
         ("Failed to delete startup: " +:+ ("Failed to delete startup: " +:+ msg)) results)
      (record_event (EvDeleteStartup (startup_id e)) (after_fetch apiKey projectId st))
| processed_fetch_failed apiKey projectId err :
    credentials P cfg e apiKey projectId ->
    (fetchRevenueCatMetrics P w apiKey projectId st).1 = Throw err ->
    name err <> "InvalidApiKeyError" ->
    processed P cfg w e results st
      (count_failed (startup_id e) (message err) results)
      (after_fetch apiKey projectId st).

Definition alpha_metrics : ParsedMetrics := mkParsedMetrics (JNum 1200) (JNum 54000).

Definition flaky_error : JsError :=
  Error "RevenueCat API error: 503 Service Unavailable. upstream timeout".

Definition mixed_run : list Entry := [entry_alpha; entry_revoked; entry_flaky].

Definition zero_metrics : ParsedMetrics := mkParsedMetrics (JNum 0) (JNum 0).

Definition idle_items : list JValue :=
  [JObj [("id", JStr "active_trials"); ("value", JNum 3)]].

Definition key_missing_on_encrypt : JsError :=
  Error ("Failed to encrypt API key: " +:+ key_missing_message).

Definition key_missing_on_decrypt : JsError :=
  Error ("Failed to decrypt API key: " +:+ key_missing_message).

(** The error messages a run can record when the master secret is absent. *)
Definition keyless_messages : list string :=
  ["Project ID is missing"; message MalformedTokenError; message key_missing_on_decrypt].

Definition keyless_report : Results :=
  mkResults 0 3 0
    [mkErrorEntry 3 (message key_missing_on_decrypt);
     mkErrorEntry 2 (message key_missing_on_decrypt);
     mkErrorEntry 1 (message key_missing_on_decrypt)].

(** ** Further sample instances *)

(** A limiter store in which the client of [registration_request] has used
    up its three registrations of the hour. *)
Definition exhausted_store : gmap string RateLimitRecord :=
  {[ "203.0.113.7" := mkRateLimitRecord 3 1700003600000 ]}.

Definition exhausted_state (d : Db) : State := mkState d exhausted_store 7 [].

(** ** Vocabulary of the further properties *)

(** [thinned s s']: [s'] is [s] with some characters left out and some
    replaced by a space; nothing is added and nothing is reordered. *)
Inductive thinned : string -> string -> Prop :=
| thinned_nil : thinned EmptyString EmptyString
| thinned_keep c s s' : thinned s s' -> thinned (String c s) (String c s')
| thinned_drop c s s' : thinned s s' -> thinned (String c s) s'
| thinned_blank c s s' : thinned s s' -> thinned (String c s) (String " " s').

(** Neither a C0 control character (tab and line breaks included) nor DEL. *)
Definition is_printable (c : ascii) : bool := ((32 <=? code c) && negb (code c =? 127))%N.

(** No "<" of the string has a ">" anywhere after it, so that the string
    contains no match of [/<[^>]*>/]. *)
Fixpoint tag_free (s : string) : bool :=
  match s with
  | EmptyString => true
  | String c rest =>
      negb ((code c =? 60)%N && any_char (fun c' => (code c' =? 62)%N) rest) && tag_free rest
  end.

(** ** The steps of a registration

    The states a registration goes through, and the answers it gives. *)

Definition counted (projectId : string) (st : State) : State :=
  record_event (EvCountProjectId projectId) st.

Definition inserted (w : World) (row : Startup) (st : State) : State :=
  set_db (mkDb (<[next_startup_id w (trace st) := row]> (startups (db st)))
               (api_keys (db st)) (revenue_metrics (db st)))
         (record_event (EvInsertStartup row) st).

Definition drawn (st : State) : State :=
  record_event (EvRandomBytes IV_LENGTH) (record_event (EvRandomBytes SALT_LENGTH) st).

Definition keyed (id : Z) (row : ApiKey) (st : State) : State :=
  set_db (mkDb (startups (db st)) (<[id := row]> (api_keys (db st)))
               (revenue_metrics (db st)))
         (record_event (EvUpsertApiKey id row) st).

(** The token [encryptApiKey] builds from [st] under the master secret [K]. *)
Definition sealed_token (P : Platform) (K : string) (w : World) (apiKey : string)
    (st : State) : string :=
  let salt := randomBytes w (trace st) SALT_LENGTH in
  let iv := randomBytes w (trace (record_event (EvRandomBytes SALT_LENGTH) st)) IV_LENGTH in
  let sealed := gcm_encrypt P (deriveKey P K salt) iv (utf8_encode apiKey) in
  toString_hex salt +:+ ":" +:+ toString_hex iv +:+ ":"
  +:+ toString_hex sealed.2 +:+ ":" +:+ toString_hex sealed.1.

Definition conflict_response : Response :=
  mkResponse 409
    (BodyJson (error_body (Some "This RevenueCat project ID is already registered."))).

Definition invalid_credentials_response : Response :=
  bad_request
    (Some "Invalid RevenueCat API key or Project ID. Please check your credentials.").

Definition created_response (id : Z) (name : string) (metrics : ParsedMetrics) : Response :=
  mkResponse 201
    (BodyJson (JObj [("success", JBool true);
                     ("startup", JObj [("id", JNum (inject_Z id)); ("name", JStr name)]);
                     ("metrics", JObj [("mrr", parsed_mrr metrics);
                                       ("revenue", parsed_revenue metrics)])])).

Definition failure_response (message : string) : Response :=
  mkResponse 500
    (BodyJson (JObj [("error", JStr "Failed to add startup"); ("message", JStr message)])).
(** * Properties *)

(** ** Strings, fields and the hex encoding *)

Lemma split_length sep s : List.length (split sep s) = S (occurrences sep s).
Proof.
  induction s as [|c rest IH]; simpl; [reflexivity|].
  destruct (Ascii.eqb c sep); simpl; [by rewrite IH|].
  destruct (split sep rest) as [|field fields]; simpl in *; congruence.
Qed.

Lemma split_no_separator sep s : occurrences sep s = O -> split sep s = [s].
Proof.
  induction s as [|c rest IH]; simpl; [reflexivity|].
  destruct (Ascii.eqb c sep); [discriminate|].
  intros Hrest. by rewrite (IH Hrest).
Qed.

Lemma split_field sep field rest :
  occurrences sep field = O ->
  split sep (field +:+ String sep rest) = field :: split sep rest.
Proof.
  induction field as [|c field IH]; simpl.
  - intros _. by rewrite Ascii.eqb_refl.
  - destruct (Ascii.eqb c sep); [discriminate|].
    intros Hfield. by rewrite (IH Hfield).
Qed.

Lemma hex_digits_of_byte (b : byte) :
  hex_value (hex_digit (Byte.to_N b / 16)%N) = Some (Byte.to_N b / 16)%N
  /\ hex_value (hex_digit (Byte.to_N b mod 16)%N) = Some (Byte.to_N b mod 16)%N
  /\ byte_of_ascii (ascii_of_N (16 * (Byte.to_N b / 16) + Byte.to_N b mod 16)%N) = b
  /\ Ascii.eqb (hex_digit (Byte.to_N b / 16)%N) ":" = false
  /\ Ascii.eqb (hex_digit (Byte.to_N b mod 16)%N) ":" = false.
Proof. destruct b; vm_compute; repeat split; reflexivity. Qed.

Lemma Buffer_from_toString_hex buf : Buffer_from_hex (toString_hex buf) = buf.
Proof.
  induction buf as [|b rest IH]; [reflexivity|].
  destruct (hex_digits_of_byte b) as (Hhi & Hlo & Hbyte & _).
  cbn [toString_hex Buffer_from_hex]. rewrite Hhi, Hlo, Hbyte, IH. reflexivity.
Qed.

Lemma toString_hex_no_colon buf : occurrences ":" (toString_hex buf) = O.
Proof.
  induction buf as [|b rest IH]; [reflexivity|].
  destruct (hex_digits_of_byte b) as (_ & _ & _ & Hhi & Hlo).
  cbn [toString_hex occurrences]. by rewrite Hhi, Hlo.
Qed.

Lemma utf8_decode_encode s : utf8_decode (utf8_encode s) = s.
Proof. apply string_of_list_byte_of_string. Qed.

(** ** Credential cipher *)

Lemma getEncryptionKey_cases cfg :
  (exists K, getEncryptionKey cfg = Ok K /\ truthy_string K = true)
  \/ getEncryptionKey cfg = Throw (Error key_missing_message).
Proof.
  unfold getEncryptionKey, js_or, truthy_opt.
  destruct (import_meta_env cfg) as [env|].
  - destruct (ENCRYPTION_KEY env) as [k|].
    + destruct (truthy_string k) eqn:Hk.
      * rewrite Hk. left. eauto.
      * destruct (ENCRYPTION_KEY (process_env cfg)) as [k'|]; [|by right].
        destruct (truthy_string k') eqn:Hk'; [left; eauto | by right].
    + destruct (ENCRYPTION_KEY (process_env cfg)) as [k'|]; [|by right].
      destruct (truthy_string k') eqn:Hk'; [left; eauto | by right].
  - destruct (ENCRYPTION_KEY (process_env cfg)) as [k'|]; [|by right].
    destruct (truthy_string k') eqn:Hk'; [left; eauto | by right].
Qed.

(** Every error of [decryptApiKey] is a plain [Error]. *)
Lemma decryptApiKey_error_name P cfg token e :
  decryptApiKey P cfg token = Throw e -> name e = "Error".
Proof.
  unfold decryptApiKey, rethrow.
  destruct (match split ":" token with [p0; p1; p2; p3] => _ | _ => _ end);
    [discriminate|].
  intros [= <-]. reflexivity.
Qed.

(** C6.  A string whose number of colon-separated fields is not four, that
    is, one that does not contain exactly three colons, is rejected by
    [decryptApiKey] with the malformed-token error, whatever the
    configuration holds for the master secret (present or absent). *)
Theorem decrypt_rejects_malformed_token P cfg token :
  List.length (split ":" token) <> 4%nat \/ occurrences ":" token <> 3%nat ->
  decryptApiKey P cfg token = Throw MalformedTokenError.
Proof.
  intros Hfields.
  assert (Hlen : List.length (split ":" token) <> 4%nat).
  { destruct Hfields as [H|H]; [exact H|]. rewrite split_length. lia. }
  unfold decryptApiKey.
  destruct (split ":" token) as [|p0 [|p1 [|p2 [|p3 [|p4 more]]]]];
    simpl in Hlen; try reflexivity.
  congruence.
Qed.

Lemma decrypt_rejects_malformed_token_witness :
  (List.length (split ":" "deadbeef:cafe") <> 4%nat
   \/ occurrences ":" "deadbeef:cafe" <> 3%nat)
  /\ decryptApiKey sample_platform keyless_cfg "deadbeef:cafe" = Throw MalformedTokenError.
Proof.
  split.
  - left. vm_compute. lia.
  - apply (decrypt_rejects_malformed_token sample_platform keyless_cfg "deadbeef:cafe").
    left. vm_compute. lia.
Defined.

Lemma split_token h0 h1 h2 h3 :
  occurrences ":" h0 = O -> occurrences ":" h1 = O ->
  occurrences ":" h2 = O -> occurrences ":" h3 = O ->
  split ":" (h0 +:+ ":" +:+ h1 +:+ ":" +:+ h2 +:+ ":" +:+ h3) = [h0; h1; h2; h3].
Proof.
  intros H0 H1 H2 H3.
  assert (Hcolon : forall s, ":" +:+ s = String ":" s) by reflexivity.
  rewrite !Hcolon.
  rewrite (split_field ":" h0) by exact H0.
  rewrite (split_field ":" h1) by exact H1.
  rewrite (split_field ":" h2) by exact H2.
  by rewrite (split_no_separator ":" h3) by exact H3.
Qed.

Lemma sample_platform_crypto_ok : PlatformCryptoOk sample_platform.
Proof.
  split.
  - intros password salt iterations keylen digest. apply repeat_length.
  - intros key iv plaintext _ _. cbn.
    unfold sample_gcm_decrypt, same_bytes.
    rewrite bool_decide_eq_true_2 by reflexivity.
    by rewrite rev_involutive.
Qed.

Lemma sample_world_random_sized : random_sized sample_world.
Proof. intros history size. apply repeat_length. Qed.

(** ** Text with unpaired surrogates: what the cipher gives back *)

Ltac div_lia := zify; Z.to_euclidean_division_equations; lia.

Ltac decide_test :=
  match goal with
  | |- context [(?a <? ?b)%N] =>
      first [ rewrite (proj2 (N.ltb_lt a b)) by div_lia
            | rewrite (proj2 (N.ltb_ge a b)) by div_lia ]
  | |- context [(?a <=? ?b)%N] =>
      first [ rewrite (proj2 (N.leb_le a b)) by div_lia
            | rewrite (proj2 (N.leb_gt a b)) by div_lia ]
  | |- context [(?a =? ?b)%N] =>
      first [ rewrite (proj2 (N.eqb_eq a b)) by div_lia
            | rewrite (proj2 (N.eqb_neq a b)) by div_lia
            | destruct (N.eqb_spec a b) ]
  end; cbn [andb orb negb].

Lemma byte_of_N_to_N n : (n < 256)%N -> Byte.to_N (byte_of_N n) = n.
Proof.
  intros Hn. unfold byte_of_N.
  destruct (Byte.of_N n) as [b|] eqn:Hb; [by apply Byte.to_of_N|].
  apply Byte.of_N_None_iff in Hb. lia.
Qed.

(** The bytes of a scalar value (a code point that is no surrogate) are
    read back as its code units. *)
Lemma units_of_utf8_point c tail :
  (c < 0x110000)%N -> (c < 0xD800 \/ 0xDFFF < c)%N ->
  units_of_utf8 (utf8_of_point c ++ tail) = (units_of_point c ++ units_of_utf8 tail)%list.
Proof.
  intros Hmax Hscalar. unfold utf8_of_point.
  destruct (N.ltb_spec c 0x80) as [H1|H1];
    [|destruct (N.ltb_spec c 0x800) as [H2|H2];
      [|destruct (N.ltb_spec c 0x10000) as [H3|H3]]];
    cbn [app units_of_utf8]; cbv zeta; unfold in_range, trail;
    rewrite !byte_of_N_to_N by div_lia;
    repeat decide_test;
    try (f_equal; f_equal; div_lia).
  unfold units_of_point. by rewrite (proj2 (N.ltb_lt c 0x10000)) by lia.
Qed.

Lemma is_high_surrogate_true u :
  is_high_surrogate u = true <-> (0xD800 <= u <= 0xDBFF)%N.
Proof. unfold is_high_surrogate. rewrite andb_true_iff, !N.leb_le. tauto. Qed.

Lemma is_high_surrogate_false u :
  is_high_surrogate u = false <-> (u < 0xD800 \/ 0xDBFF < u)%N.
Proof. unfold is_high_surrogate. rewrite andb_false_iff, !N.leb_gt. tauto. Qed.

Lemma is_low_surrogate_true u :
  is_low_surrogate u = true <-> (0xDC00 <= u <= 0xDFFF)%N.
Proof. unfold is_low_surrogate. rewrite andb_true_iff, !N.leb_le. tauto. Qed.

Lemma is_low_surrogate_false u :
  is_low_surrogate u = false <-> (u < 0xDC00 \/ 0xDFFF < u)%N.
Proof. unfold is_low_surrogate. rewrite andb_false_iff, !N.leb_gt. tauto. Qed.

Lemma replacement_decoded tail :
  units_of_utf8 (utf8_of_point 0xFFFD ++ tail) = 0xFFFD%N :: units_of_utf8 tail.
Proof. by rewrite units_of_utf8_point by lia. Qed.

(** Encoding a string and decoding the bytes gives the string with every
    unpaired surrogate replaced by U+FFFD. *)
Lemma units_of_utf8_of_units s :
  is_js_string s -> units_of_utf8 (utf8_of_units s) = toWellFormed s.
Proof.
  enough (Hall : forall n s, (List.length s <= n)%nat -> is_js_string s ->
                             units_of_utf8 (utf8_of_units s) = toWellFormed s)
    by (apply (Hall (List.length s)); lia).
  clear s. induction n as [|n IH]; intros [|u rest] Hlen Hs; try reflexivity.
  { cbn in Hlen. lia. }
  cbn in Hlen. apply Forall_cons in Hs as [Hu Hrest].
  cbn [utf8_of_units toWellFormed].
  destruct (is_high_surrogate u) eqn:Hhigh.
  - destruct rest as [|v rest'].
    + rewrite <- (app_nil_r (utf8_of_point _)). by rewrite replacement_decoded.
    + cbn in Hlen. apply Forall_cons in Hrest as [Hv Hrest'].
      apply is_high_surrogate_true in Hhigh.
      destruct (is_low_surrogate v) eqn:Hlow.
      * apply is_low_surrogate_true in Hlow.
        rewrite units_of_utf8_point by lia.
        rewrite (IH rest') by (done || lia).
        unfold units_of_point.
        rewrite (proj2 (N.ltb_ge _ _)) by lia.
        cbn [app]. f_equal; [div_lia|]. f_equal. div_lia.
      * rewrite replacement_decoded.
        by rewrite (IH (v :: rest')) by (by constructor || (cbn; lia)).
  - destruct (is_low_surrogate u) eqn:Hlow.
    + rewrite replacement_decoded. by rewrite (IH rest) by (done || lia).
    + apply is_high_surrogate_false in Hhigh. apply is_low_surrogate_false in Hlow.
      rewrite units_of_utf8_point by lia.
      rewrite (IH rest) by (done || lia).
      unfold units_of_point. by rewrite (proj2 (N.ltb_lt _ _)) by lia.
Qed.

Lemma isWellFormed_toWellFormed s : isWellFormed s = true -> toWellFormed s = s.
Proof.
  enough (Hall : forall n s, (List.length s <= n)%nat -> isWellFormed s = true ->
                             toWellFormed s = s)
    by (apply (Hall (List.length s)); lia).
  clear s. induction n as [|n IH]; intros [|u rest] Hlen Hs; try reflexivity.
  { cbn in Hlen. lia. }
  cbn in Hlen. cbn [isWellFormed] in Hs. cbn [toWellFormed].
  destruct (is_high_surrogate u).
  - destruct rest as [|v rest']; [discriminate|].
    cbn in Hlen. apply andb_true_iff in Hs as [-> Hs].
    by rewrite (IH rest') by (done || lia).
  - apply andb_true_iff in Hs as [Hlow Hs]. apply negb_true_iff in Hlow. rewrite Hlow.
    by rewrite (IH rest) by (done || lia).
Qed.

(** The byte-string form of the round trip. *)
Lemma encrypt_then_decrypt P cfg w plaintext K st :
  PlatformCryptoOk P -> random_sized w ->
  getEncryptionKey cfg = Ok K ->
  exists token st',
    encryptApiKey P cfg w plaintext st = (Ok token, st')
    /\ decryptApiKey P cfg token = Ok plaintext.
Proof.
  intros [Hkeylen Hgcm] Hrandom HK.
  unfold encryptApiKey, try_catch, bind, crypto_randomBytes, lift, ret.
  rewrite HK. cbn [fst snd].
  set (salt := randomBytes w (trace st) SALT_LENGTH).
  set (st1 := record_event (EvRandomBytes SALT_LENGTH) st).
  set (iv := randomBytes w (trace st1) IV_LENGTH).
  set (key := deriveKey P K salt).
  pose proof (Hgcm key iv (utf8_encode plaintext)) as Hround.
  destruct (gcm_encrypt P key iv (utf8_encode plaintext)) as [ciphertext tag] eqn:Henc.
  eexists _, _. split; [reflexivity|].
  unfold decryptApiKey.
  rewrite split_token by apply toString_hex_no_colon.
  rewrite HK. cbn [result_bind].
  rewrite !Buffer_from_toString_hex. fold key.
  cbn [fst snd] in Hround. rewrite Hround.
  - cbn. by rewrite utf8_decode_encode.
  - apply Hkeylen.
  - apply Hrandom.
Qed.

(** C2 (amended).  With a master secret [K] present in the configuration,
    whatever salt and nonce the random generator hands to [encryptApiKey],
    the call returns a token, and [decryptApiKey] under the same
    configuration returns the plaintext with every unpaired surrogate
    replaced by U+FFFD: exactly the plaintext when it is well-formed
    text. *)
Theorem decrypt_encrypt_roundtrip P cfg w plaintext K st :
  PlatformCryptoOk P -> random_sized w ->
  getEncryptionKey cfg = Ok K ->
  is_js_string plaintext ->
  exists token st',
    encryptApiKey_utf16 P cfg w plaintext st = (Ok token, st')
    /\ decryptApiKey_utf16 P cfg token = Ok (toWellFormed plaintext)
    /\ (isWellFormed plaintext = true -> decryptApiKey_utf16 P cfg token = Ok plaintext).
Proof.
  intros Hcrypto Hrandom HK Hunits.
  destruct (encrypt_then_decrypt P cfg w (string_of_list_byte (utf8_of_units plaintext)) K st
              Hcrypto Hrandom HK) as (token & st' & Hencrypt & Hdecrypt).
  exists token, st'. split; [exact Hencrypt|].
  assert (Hback : decryptApiKey_utf16 P cfg token = Ok (toWellFormed plaintext)).
  { unfold decryptApiKey_utf16. rewrite Hdecrypt. cbn [result_bind].
    by rewrite list_byte_of_string_of_list_byte, units_of_utf8_of_units. }
  split; [exact Hback|].
  intros Hwell. by rewrite Hback, isWellFormed_toWellFormed.
Qed.

Lemma grinning_key_is_js_string : is_js_string [115; 107; 95; 0xD83D; 0xDE00; 233]%N.
Proof. repeat constructor. Qed.

Lemma decrypt_encrypt_roundtrip_witness :
  PlatformCryptoOk sample_platform /\ random_sized sample_world
  /\ getEncryptionKey sample_cfg = Ok "master secret"
  /\ is_js_string [115; 107; 95; 0xD83D; 0xDE00; 233]%N
  /\ exists token st',
       encryptApiKey_utf16 sample_platform sample_cfg sample_world
         [115; 107; 95; 0xD83D; 0xDE00; 233]%N (state_of empty_db) = (Ok token, st')
       /\ decryptApiKey_utf16 sample_platform sample_cfg token
          = Ok (toWellFormed [115; 107; 95; 0xD83D; 0xDE00; 233]%N)
       /\ (isWellFormed [115; 107; 95; 0xD83D; 0xDE00; 233]%N = true ->
           decryptApiKey_utf16 sample_platform sample_cfg token
           = Ok [115; 107; 95; 0xD83D; 0xDE00; 233]%N).
Proof.
  split; [exact sample_platform_crypto_ok|].
  split; [exact sample_world_random_sized|].
  split; [reflexivity|].
  split; [exact grinning_key_is_js_string|].
  apply (decrypt_encrypt_roundtrip sample_platform sample_cfg sample_world
           [115; 107; 95; 0xD83D; 0xDE00; 233]%N "master secret" (state_of empty_db)).
  - exact sample_platform_crypto_ok.
  - exact sample_world_random_sized.
  - reflexivity.
  - exact grinning_key_is_js_string.
Defined.

(** The plaintext "sk_" followed by the unpaired surrogate U+D800 is a
    JavaScript string, it is encrypted, and decryption returns "sk_"
    followed by U+FFFD, which is another string. *)
Lemma lone_surrogate_is_not_returned :
  is_js_string [115; 107; 95; 0xD800]%N
  /\ exists token st',
       encryptApiKey_utf16 sample_platform sample_cfg sample_world [115; 107; 95; 0xD800]%N
         (state_of empty_db) = (Ok token, st')
       /\ decryptApiKey_utf16 sample_platform sample_cfg token
          = Ok [115; 107; 95; 0xFFFD]%N
       /\ decryptApiKey_utf16 sample_platform sample_cfg token
          <> Ok [115; 107; 95; 0xD800]%N.
Proof.
  split; [repeat constructor|].
  eexists _, _. split; [vm_compute; reflexivity|].
  split; [vm_compute; reflexivity|]. vm_compute. discriminate.
Qed.

(** ** Metrics source adapter *)

Lemma get_property_error v key e : get_property v key = Throw e -> name e = "TypeError".
Proof. destruct v; simpl; intros [= <-] || discriminate; reflexivity. Qed.

Lemma find_metric_error id metrics e :
  find_metric id metrics = Throw e -> name e = "TypeError".
Proof.
  induction metrics as [|m rest IH]; simpl; [discriminate|].
  destruct (get_property m "id") as [m_id|e'] eqn:Hid; simpl.
  - destruct (is_string m_id id); [discriminate | exact IH].
  - intros [= <-]. eapply get_property_error, Hid.
Qed.

Lemma data_metrics_find_error id data e :
  data_metrics_find id data = Throw e -> name e = "TypeError".
Proof.
  unfold data_metrics_find.
  destruct (get_property data "metrics") as [metrics|e'] eqn:Hmetrics; simpl.
  - destruct metrics as [[]|]; try (intros [= <-]; reflexivity).
    apply find_metric_error.
  - intros [= <-]. eapply get_property_error, Hmetrics.
Qed.

Lemma mentions_invalid_key_error v e :
  mentions_invalid_key v = Throw e -> name e = "TypeError".
Proof. destruct v; simpl; intros [= <-] || discriminate; reflexivity. Qed.

(** The only error named InvalidApiKeyError that the adapter throws is
    [InvalidApiKeyError] itself. *)
Lemma error_of_response_invalid P response e :
  error_of_response P response = Throw e ->
  name e = "InvalidApiKeyError" -> e = InvalidApiKeyError.
Proof.
  unfold error_of_response.
  destruct (get_property _ "message") as [body_message|e1] eqn:H1; simpl;
    [|intros [= <-] Hname; apply get_property_error in H1; congruence].
  destruct (get_property _ "error") as [body_error|e2] eqn:H2; simpl;
    [|intros [= <-] Hname; apply get_property_error in H2; congruence].
  match goal with
  | |- result_bind ?c _ = _ -> _ => destruct c as [[]|e3] eqn:H3; simpl
  end.
  - by intros [= <-].
  - intros [= <-]. discriminate.
  - intros [= <-] Hname.
    destruct (status response =? 401); [|discriminate].
    apply mentions_invalid_key_error in H3. congruence.
Qed.

Lemma parse_metrics_error P response e :
  parse_metrics P response = Throw e -> name e <> "InvalidApiKeyError".
Proof.
  unfold parse_metrics.
  destruct (JSON_parse P (text response)) as [data|msg]; simpl;
    [|intros [= <-]; discriminate].
  destruct (data_metrics_find "mrr" data) as [mrrMetric|e1] eqn:H1; simpl;
    [|intros [= <-]; apply data_metrics_find_error in H1; rewrite H1; discriminate].
  destruct (data_metrics_find "revenue" data) as [revenueMetric|e2] eqn:H2; simpl;
    [discriminate|].
  intros [= <-]. apply data_metrics_find_error in H2. rewrite H2. discriminate.
Qed.

Lemma fetch_run P w apiKey projectId st :
  truthy_string projectId = true ->
  fetchRevenueCatMetrics P w apiKey projectId st
  = ((fetchRevenueCatMetrics P w apiKey projectId st).1, after_fetch apiKey projectId st).
Proof.
  intros Hpid. unfold fetchRevenueCatMetrics, after_fetch, overview_url.
  rewrite Hpid. cbn [negb]. unfold bind, fetch, lift.
  destruct (http_get w (trace st) _ _) as [msg|response]; [reflexivity|].
  destruct (negb (ok response)); reflexivity.
Qed.

Lemma fetch_error_invalid P w apiKey projectId st e :
  (fetchRevenueCatMetrics P w apiKey projectId st).1 = Throw e ->
  name e = "InvalidApiKeyError" -> e = InvalidApiKeyError.
Proof.
  unfold fetchRevenueCatMetrics.
  destruct (negb (truthy_string projectId)); [intros [= <-]; discriminate|].
  unfold bind, fetch, lift.
  destruct (http_get w (trace st) _ _) as [msg|response]; [intros [= <-]; discriminate|].
  destruct (negb (ok response)); cbn [fst].
  - apply error_of_response_invalid.
  - intros Hparse Hname. by apply parse_metrics_error in Hparse.
Qed.

(** ** Refresh job: one iteration *)

Lemma upsertRevenueMetrics_run w id m st1 :
  upsertRevenueMetrics w id (parsed_revenue m) (parsed_mrr m) st1
  = match db_error w (trace st1)
            (EvUpsertRevenueMetrics id (parsed_revenue m) (parsed_mrr m)) with
    | Some msg =>
        (Throw (Error ("Failed to upsert revenue metrics: " +:+ msg)),
         record_event (EvUpsertRevenueMetrics id (parsed_revenue m) (parsed_mrr m)) st1)
    | None => (Ok tt, written w id m st1)
    end.
Proof.
  unfold upsertRevenueMetrics, bind, Date_now, db_call. cbn.
  destruct (db_error w (trace st1) _); reflexivity.
Qed.

Lemma deleteStartup_run w id st1 :
  deleteStartup w id st1
  = match db_error w (trace st1) (EvDeleteStartup id) with
    | Some msg =>
        (Throw (Error ("Failed to delete startup: " +:+ msg)),
         record_event (EvDeleteStartup id) st1)
    | None => (Ok tt, removed id st1)
    end.
Proof.
  unfold deleteStartup, bind, db_call. cbn.
  destruct (db_error w (trace st1) _); reflexivity.
Qed.

(** Every iteration returns normally, in one of the seven ways of
    [processed]. *)
Lemma process_entry_processed P cfg w e results st :
  exists results' st',
    process_entry P cfg w e results st = (Ok results', st')
    /\ processed P cfg w e results st results' st'.
Proof.
  unfold process_entry, try_catch, attempt.
  destruct (project_id e) as [projectId|] eqn:Hpid;
    [|eexists _, _; split; [reflexivity|]; apply processed_unlinked; by rewrite Hpid].
  destruct (truthy_string projectId) eqn:Htruthy;
    [|eexists _, _; split; [reflexivity|]; apply processed_unlinked;
      by rewrite Hpid; cbn; rewrite Htruthy].
  unfold bind at 1. unfold lift at 1.
  destruct (decryptApiKey P cfg (encrypted_api_key e)) as [apiKey|err] eqn:Hdecrypt.
  2:{ pose proof (decryptApiKey_error_name _ _ _ _ Hdecrypt) as Hname.
      unfold recover. rewrite Hname. cbn.
      eexists _, _; split; [reflexivity|].
      by eapply processed_undecryptable. }
  assert (Hcred : credentials P cfg e apiKey projectId) by done.
  unfold bind at 1. rewrite (fetch_run P w apiKey projectId st Htruthy).
  destruct (fetchRevenueCatMetrics P w apiKey projectId st).1 as [m|err] eqn:Hfetch.
  - unfold bind. rewrite upsertRevenueMetrics_run.
    destruct (db_error w _ (EvUpsertRevenueMetrics _ _ _)) as [msg|] eqn:Hdb.
    + unfold recover. cbn.
      eexists _, _; split; [reflexivity|].
      by eapply processed_write_refused.
    + cbn. eexists _, _; split; [reflexivity|].
      by eapply processed_success.
  - unfold recover.
    destruct (String.eqb (name err) "InvalidApiKeyError") eqn:Hname.
    + apply String.eqb_eq in Hname.
      pose proof (fetch_error_invalid _ _ _ _ _ _ Hfetch Hname) as ->.
      unfold try_catch, bind. rewrite deleteStartup_run.
      destruct (db_error w _ (EvDeleteStartup _)) as [msg|] eqn:Hdb.
      * cbn. eexists _, _; split; [reflexivity|].
        by eapply processed_delete_refused.
      * cbn. eexists _, _; split; [reflexivity|].
        by eapply processed_removed.
    + apply String.eqb_neq in Hname. cbn.
      eexists _, _; split; [reflexivity|].
      by eapply processed_fetch_failed.
Qed.

Lemma credentials_inj P cfg e apiKey projectId apiKey' projectId' :
  credentials P cfg e apiKey projectId -> credentials P cfg e apiKey' projectId' ->
  apiKey = apiKey' /\ projectId = projectId'.
Proof. intros (Hp & _ & Hd) (Hp' & _ & Hd'). split; congruence. Qed.

Lemma new_events_app st st' events :
  trace st' = (trace st ++ events)%list -> new_events st st' = events.
Proof. unfold new_events. intros ->. apply drop_app_length. Qed.

(** What an iteration appends to the trace and changes in the store. *)
Lemma processed_effects P cfg w e results st results' st' :
  processed P cfg w e results st results' st' ->
  (exists events, trace st' = (trace st ++ events)%list
     /\ Forall (fun ev => is_delete ev -> ev = EvDeleteStartup (startup_id e)) events)
  /\ forall id, id <> startup_id e -> records (db st') id = records (db st) id.
Proof.
  intros Hstep. unfold records.
  destruct Hstep;
    cbn [db trace written removed after_fetch set_db record_event
         startups api_keys revenue_metrics].
  - split; [exists []; split; [by rewrite app_nil_r | constructor] | done].
  - split; [exists []; split; [by rewrite app_nil_r | constructor] | done].
  - split; [eexists [_; _]; split; [by rewrite <- app_assoc | by repeat constructor]|].
    intros id Hid. by rewrite lookup_insert_ne.
  - split; [eexists [_; _]; split; [by rewrite <- app_assoc | by repeat constructor] | done].
  - split; [eexists [_; _]; split; [by rewrite <- app_assoc | by repeat constructor]|].
    intros id Hid. by rewrite !lookup_delete_ne.
  - split; [eexists [_; _]; split; [by rewrite <- app_assoc | by repeat constructor] | done].
  - split; [eexists [_]; split; [done | by repeat constructor] | done].
Qed.

Lemma processed_counted P cfg w e results st results' st' :
  processed P cfg w e results st results' st' ->
  results' = count_success results
  \/ results' = count_deleted results
  \/ exists msg, results' = count_failed (startup_id e) msg results.
Proof. destruct 1; eauto. Qed.

(** ** Refresh job: the loop *)

Lemma for_of_app P cfg w l1 l2 results st :
  for_of P cfg w (l1 ++ l2) results st
  = bind (for_of P cfg w l1 results) (for_of P cfg w l2) st.
Proof.
  revert results st. induction l1 as [|e l1 IH]; intros results st; [reflexivity|].
  cbn [for_of app]. unfold bind.
  destruct (process_entry P cfg w e results st) as [[results'|err] st1]; [|reflexivity].
  rewrite IH. reflexivity.
Qed.

Lemma for_of_returns P cfg w l results st :
  exists report st', for_of P cfg w l results st = (Ok report, st').
Proof.
  revert results st. induction l as [|e l IH]; intros results st; [by eexists _, _|].
  destruct (process_entry_processed P cfg w e results st) as (r1 & st1 & Hrun & _).
  cbn [for_of]. unfold bind. rewrite Hrun. apply IH.
Qed.

(** The loop leaves alone the records of every id that is not in its list,
    and only ever extends the error list and raises the counters. *)
Lemma for_of_frame P cfg w l results st report st' :
  for_of P cfg w l results st = (Ok report, st') ->
  (forall id, id ∉ map startup_id l -> records (db st') id = records (db st) id)
  /\ (exists more, errors report = (errors results ++ more)%list)
  /\ (success results <= success report /\ failed results <= failed report
      /\ deleted results <= deleted report)%nat.
Proof.
  revert results st. induction l as [|e l IH]; intros results st.
  - intros [= <- <-]. split; [done|]. split; [exists []; by rewrite app_nil_r | lia].
  - destruct (process_entry_processed P cfg w e results st) as (r1 & st1 & Hrun & Hstep).
    cbn [for_of]. unfold bind. rewrite Hrun. intros Hrest.
    destruct (IH _ _ Hrest) as (Hframe & [more Hmore] & Hle).
    destruct (processed_effects _ _ _ _ _ _ _ _ Hstep) as (_ & Hframe1).
    split; [|split].
    + intros id Hid. cbn [map] in Hid. rewrite not_elem_of_cons in Hid.
      destruct Hid as [Hne Hid]. rewrite (Hframe id Hid). by apply Hframe1.
    + destruct (processed_counted _ _ _ _ _ _ _ _ Hstep) as [->| [->| [msg ->]]];
        cbn [errors count_success count_deleted count_failed] in Hmore.
      * by exists more.
      * by exists more.
      * eexists. rewrite Hmore, <- app_assoc. reflexivity.
    + destruct (processed_counted _ _ _ _ _ _ _ _ Hstep) as [->| [->| [msg ->]]];
        cbn [success failed deleted count_success count_deleted count_failed] in Hle; lia.
Qed.

Lemma missing_project_id_run P cfg w e results st :
  truthy_opt truthy_string (project_id e) = false ->
  process_entry P cfg w e results st
  = (Ok (count_failed (startup_id e) "Project ID is missing" results), st).
Proof.
  intros Hmissing. unfold process_entry, try_catch, attempt.
  destruct (project_id e) as [projectId|]; [|reflexivity].
  cbn in Hmissing. by rewrite Hmissing.
Qed.

Lemma for_of_counts P cfg w l results st :
  exists report st' more,
    for_of P cfg w l results st = (Ok report, st')
    /\ (success report + failed report + deleted report
        = success results + failed results + deleted results + List.length l)%nat
    /\ errors report = (errors results ++ more)%list
    /\ (failed report = failed results + List.length more)%nat
    /\ sublist (map error_startup_id more) (map startup_id l).
Proof.
  revert results st. induction l as [|e l IH]; intros results st.
  - exists results, st, []. cbn. rewrite app_nil_r. repeat split; try lia. constructor.
  - destruct (process_entry_processed P cfg w e results st) as (r1 & st1 & Hrun & Hstep).
    destruct (IH r1 st1) as (report & st' & more & Hrest & Hsum & Herrors & Hfailed & Hsub).
    cbn [for_of]. unfold bind. rewrite Hrun.
    destruct (processed_counted _ _ _ _ _ _ _ _ Hstep) as [->| [->| [msg ->]]];
      cbn [success failed deleted errors count_success count_deleted count_failed] in *.
    + exists report, st', more. repeat split; try done; try (cbn; lia).
      cbn [map]. by apply sublist_cons.
    + exists report, st', more. repeat split; try done; try (cbn; lia).
      cbn [map]. by apply sublist_cons.
    + exists report, st', (mkErrorEntry (startup_id e) msg :: more).
      repeat split; try done; try (cbn; lia).
      * by rewrite Herrors, <- app_assoc.
      * cbn [map error_startup_id]. by apply sublist_skip.
Qed.

(** C10.  For every list of entries and every behaviour of the outside, the
    loop returns a report (no exception escapes it) in which [success +
    failed + deleted] is the number of entries and [errors] has exactly
    [failed] elements, whose ids are ids of the entries, in their order;
    and every single iteration returns normally and raises exactly one of
    the three counters by one, adding one error entry with the id of its
    entry when, and only when, that counter is [failed]. *)
Theorem report_accounts_for_every_entry P cfg w :
  (forall l st,
     exists report st',
       for_of P cfg w l initial_results st = (Ok report, st')
       /\ (success report + failed report + deleted report = List.length l)%nat
       /\ List.length (errors report) = failed report
       /\ sublist (map error_startup_id (errors report)) (map startup_id l))
  /\ (forall e results st,
        exists results' st',
          process_entry P cfg w e results st = (Ok results', st')
          /\ (results' = count_success results
              \/ results' = count_deleted results
              \/ exists msg, results' = count_failed (startup_id e) msg results)).
Proof.
  split.
  - intros l st.
    destruct (for_of_counts P cfg w l initial_results st)
      as (report & st' & more & Hrun & Hsum & Herrors & Hfailed & Hsub).
    cbn in Hsum, Herrors, Hfailed. subst more.
    exists report, st'. repeat split; done.
  - intros e results st.
    destruct (process_entry_processed P cfg w e results st) as (r1 & st1 & Hrun & Hstep).
    exists r1, st1. split; [exact Hrun|]. eapply processed_counted, Hstep.
Qed.

Lemma new_events_none st : new_events st st = [].
Proof. apply new_events_app. by rewrite app_nil_r. Qed.

Lemma new_events_one st ev : new_events st (record_event ev st) = [ev].
Proof. by apply new_events_app. Qed.

Lemma new_events_two st ev1 ev2 d :
  new_events st (record_event ev2 (record_event ev1 st)) = [ev1; ev2]
  /\ new_events st (set_db d (record_event ev2 (record_event ev1 st))) = [ev1; ev2].
Proof. split; apply new_events_app; cbn; by rewrite <- app_assoc. Qed.

Lemma decryption_failure_run P cfg w e results st err :
  truthy_opt truthy_string (project_id e) = true ->
  decryptApiKey P cfg (encrypted_api_key e) = Throw err ->
  process_entry P cfg w e results st
  = (Ok (count_failed (startup_id e) (message err) results), st).
Proof.
  intros Hpid Hdecrypt. unfold process_entry, try_catch, attempt.
  destruct (project_id e) as [projectId|]; [|discriminate].
  cbn in Hpid. rewrite Hpid. unfold bind, lift. rewrite Hdecrypt.
  unfold recover. by rewrite (decryptApiKey_error_name _ _ _ _ Hdecrypt).
Qed.

(** ** Refresh job: the three outcomes of a mixed run *)

Lemma success_run P cfg w e results st apiKey projectId m :
  credentials P cfg e apiKey projectId ->
  (fetchRevenueCatMetrics P w apiKey projectId st).1 = Ok m ->
  db_error w (trace (after_fetch apiKey projectId st))
    (EvUpsertRevenueMetrics (startup_id e) (parsed_revenue m) (parsed_mrr m)) = None ->
  process_entry P cfg w e results st
  = (Ok (count_success results), written w (startup_id e) m (after_fetch apiKey projectId st)).
Proof.
  intros (Hpid & Htruthy & Hdecrypt) Hfetch Hdb.
  unfold process_entry, try_catch, attempt. rewrite Hpid, Htruthy.
  unfold bind, lift. rewrite Hdecrypt, (fetch_run P w apiKey projectId st Htruthy), Hfetch.
  by rewrite upsertRevenueMetrics_run, Hdb.
Qed.

Lemma write_refused_run P cfg w e results st apiKey projectId m msg :
  credentials P cfg e apiKey projectId ->
  (fetchRevenueCatMetrics P w apiKey projectId st).1 = Ok m ->
  db_error w (trace (after_fetch apiKey projectId st))
    (EvUpsertRevenueMetrics (startup_id e) (parsed_revenue m) (parsed_mrr m)) = Some msg ->
  process_entry P cfg w e results st
  = (Ok (count_failed (startup_id e) ("Failed to upsert revenue metrics: " +:+ msg) results),
     record_event (EvUpsertRevenueMetrics (startup_id e) (parsed_revenue m) (parsed_mrr m))
                  (after_fetch apiKey projectId st)).
Proof.
  intros (Hpid & Htruthy & Hdecrypt) Hfetch Hdb.
  unfold process_entry, try_catch, attempt. rewrite Hpid, Htruthy.
  unfold bind, lift. rewrite Hdecrypt, (fetch_run P w apiKey projectId st Htruthy), Hfetch.
  by rewrite upsertRevenueMetrics_run, Hdb.
Qed.

Lemma removed_run P cfg w e results st apiKey projectId :
  credentials P cfg e apiKey projectId ->
  (fetchRevenueCatMetrics P w apiKey projectId st).1 = Throw InvalidApiKeyError ->
  db_error w (trace (after_fetch apiKey projectId st)) (EvDeleteStartup (startup_id e)) = None ->
  process_entry P cfg w e results st
  = (Ok (count_deleted results), removed (startup_id e) (after_fetch apiKey projectId st)).
Proof.
  intros (Hpid & Htruthy & Hdecrypt) Hfetch Hdb.
  unfold process_entry, try_catch, attempt. rewrite Hpid, Htruthy.
  unfold bind, lift. rewrite Hdecrypt, (fetch_run P w apiKey projectId st Htruthy), Hfetch.
  unfold recover. cbn [name InvalidApiKeyError String.eqb Ascii.eqb Bool.eqb].
  unfold try_catch, bind. by rewrite deleteStartup_run, Hdb.
Qed.

Lemma fetch_failed_run P cfg w e results st apiKey projectId err :
  credentials P cfg e apiKey projectId ->
  (fetchRevenueCatMetrics P w apiKey projectId st).1 = Throw err ->
  name err <> "InvalidApiKeyError" ->
  process_entry P cfg w e results st
  = (Ok (count_failed (startup_id e) (message err) results), after_fetch apiKey projectId st).
Proof.
  intros (Hpid & Htruthy & Hdecrypt) Hfetch Hname.
  unfold process_entry, try_catch, attempt. rewrite Hpid, Htruthy.
  unfold bind, lift. rewrite Hdecrypt, (fetch_run P w apiKey projectId st Htruthy), Hfetch.
  unfold recover. apply String.eqb_neq in Hname. by rewrite Hname.
Qed.

(** The run of the loop, cut at one of its entries. *)
Lemma for_of_at P cfg w l results st e :
  e ∈ l -> NoDup (map startup_id l) ->
  exists l1 l2 r1 st1 r2 st2 report st',
    l = (l1 ++ e :: l2)%list
    /\ (startup_id e ∉ map startup_id l1) /\ (startup_id e ∉ map startup_id l2)
    /\ for_of P cfg w l1 results st = (Ok r1, st1)
    /\ process_entry P cfg w e r1 st1 = (Ok r2, st2)
    /\ for_of P cfg w l2 r2 st2 = (Ok report, st')
    /\ for_of P cfg w l results st = (Ok report, st').
Proof.
  intros Hin Hnodup.
  apply list_elem_of_split in Hin as (l1 & l2 & ->).
  rewrite map_app in Hnodup. cbn [map] in Hnodup.
  apply NoDup_app in Hnodup as (_ & Hdisjoint & Hnodup2).
  apply NoDup_cons in Hnodup2 as (Hnot2 & _).
  destruct (for_of_returns P cfg w l1 results st) as (r1 & st1 & Hrun1).
  destruct (process_entry_processed P cfg w e r1 st1) as (r2 & st2 & Hrun & _).
  destruct (for_of_returns P cfg w l2 r2 st2) as (report & st' & Hrun2).
  exists l1, l2, r1, st1, r2, st2, report, st'.
  repeat split; try done.
  - intros Hin1. apply (Hdisjoint _ Hin1). left.
  - rewrite for_of_app. unfold bind. rewrite Hrun1. cbn [for_of]. unfold bind.
    by rewrite Hrun, Hrun2.
Qed.

(** C1 (amended).  Let [A], [B] and [C] be entries with a project id and a
    credential that decrypts, such that the adapter answers [A]'s fetch with
    metrics [m], [B]'s with the invalid-credential error and [C]'s with
    another error, and let the datastore accept the write of [A]'s metrics
    and the delete of [B].  Then, from any point of a run, [A]'s iteration
    raises [success] by one and stores [m]; [B]'s iteration raises [deleted]
    by one and removes [B]'s startup, credential and metrics rows; [C]'s
    iteration raises [failed] by one, records an error entry with [C]'s id
    and the error's message, and leaves the store as it was.  And after a
    run over any list of entries with distinct ids that contains the three,
    [A]'s metrics record holds [m], [B]'s records are gone, [C]'s records
    are the ones from before the run, the report has [C]'s error entry and
    each of the three counters was raised. *)
Theorem refresh_three_outcomes P cfg w A B C kA pA m kB pB kC pC err :
  credentials P cfg A kA pA -> fetch_returns P w kA pA (Ok m) ->
  (forall history,
     db_error w history
       (EvUpsertRevenueMetrics (startup_id A) (parsed_revenue m) (parsed_mrr m)) = None) ->
  credentials P cfg B kB pB -> fetch_returns P w kB pB (Throw InvalidApiKeyError) ->
  (forall history, db_error w history (EvDeleteStartup (startup_id B)) = None) ->
  credentials P cfg C kC pC -> fetch_returns P w kC pC (Throw err) ->
  name err <> "InvalidApiKeyError" ->
  (forall results st,
     exists st' time,
       process_entry P cfg w A results st = (Ok (count_success results), st')
       /\ revenue_metrics (db st') !! startup_id A
          = Some (mkRevenueMetrics (parsed_revenue m) (parsed_mrr m) time))
  /\ (forall results st,
        exists st',
          process_entry P cfg w B results st = (Ok (count_deleted results), st')
          /\ records (db st') (startup_id B) = (None, None, None))
  /\ (forall results st,
        exists st',
          process_entry P cfg w C results st
          = (Ok (count_failed (startup_id C) (message err) results), st')
          /\ db st' = db st)
  /\ (forall l results st,
        NoDup (map startup_id l) -> A ∈ l -> B ∈ l -> C ∈ l ->
        exists report st' time,
          for_of P cfg w l results st = (Ok report, st')
          /\ revenue_metrics (db st') !! startup_id A
             = Some (mkRevenueMetrics (parsed_revenue m) (parsed_mrr m) time)
          /\ records (db st') (startup_id B) = (None, None, None)
          /\ records (db st') (startup_id C) = records (db st) (startup_id C)
          /\ mkErrorEntry (startup_id C) (message err) ∈ errors report
          /\ (success results < success report)%nat
          /\ (deleted results < deleted report)%nat
          /\ (failed results < failed report)%nat).
Proof.
  intros HcredA HfetchA HdbA HcredB HfetchB HdbB HcredC HfetchC Hname.
  assert (HrunA : forall results st,
             process_entry P cfg w A results st
             = (Ok (count_success results), written w (startup_id A) m (after_fetch kA pA st))).
  { intros results st. by apply success_run. }
  assert (HrunB : forall results st,
             process_entry P cfg w B results st
             = (Ok (count_deleted results), removed (startup_id B) (after_fetch kB pB st))).
  { intros results st. by apply removed_run. }
  assert (HrunC : forall results st,
             process_entry P cfg w C results st
             = (Ok (count_failed (startup_id C) (message err) results), after_fetch kC pC st)).
  { intros results st. by apply fetch_failed_run. }
  split; [|split; [|split]].
  - intros results st. eexists _, _. split; [apply HrunA|]. cbn. apply lookup_insert_eq.
  - intros results st. eexists. split; [apply HrunB|].
    unfold records. cbn. by rewrite !lookup_delete_eq.
  - intros results st. eexists. split; [apply HrunC|]. reflexivity.
  - intros l results st Hnodup HA HB HC.
    destruct (for_of_at P cfg w l results st A HA Hnodup)
      as (a1 & a2 & ra1 & sa1 & ra2 & sa2 & report & st' & -> & _ & HA2 & Ha1 & Ha & Ha2 & Hrun).
    destruct (for_of_at P cfg w _ results st B HB Hnodup)
      as (b1 & b2 & rb1 & sb1 & rb2 & sb2 & report' & st'' & _ & _ & HB2 & Hb1 & Hb & Hb2 & Hrun').
    destruct (for_of_at P cfg w _ results st C HC Hnodup)
      as (c1 & c2 & rc1 & sc1 & rc2 & sc2 & report'' & st''' & _ & HC1 & HC2 & Hc1 & Hc & Hc2 & Hrun'').
    rewrite Hrun in Hrun', Hrun''.
    injection Hrun' as <- <-. injection Hrun'' as <- <-.
    rewrite HrunA in Ha. injection Ha as <- <-.
    rewrite HrunB in Hb. injection Hb as <- <-.
    rewrite HrunC in Hc. injection Hc as <- <-.
    destruct (for_of_frame _ _ _ _ _ _ _ _ Ha1) as (_ & _ & Hlea1).
    destruct (for_of_frame _ _ _ _ _ _ _ _ Ha2) as (Hframe_a2 & _ & Hlea2).
    destruct (for_of_frame _ _ _ _ _ _ _ _ Hb1) as (_ & _ & Hleb1).
    destruct (for_of_frame _ _ _ _ _ _ _ _ Hb2) as (Hframe_b2 & _ & Hleb2).
    destruct (for_of_frame _ _ _ _ _ _ _ _ Hc1) as (Hframe_c1 & _ & Hlec1).
    destruct (for_of_frame _ _ _ _ _ _ _ _ Hc2) as (Hframe_c2 & [more Hmore] & Hlec2).
    cbn [success failed deleted errors count_success count_deleted count_failed]
      in Hlea2, Hleb2, Hlec2, Hmore.
    exists report, st', (clock w (trace (after_fetch kA pA sa1))).
    split; [exact Hrun|]. repeat split; try lia.
    + pose proof (Hframe_a2 _ HA2) as Hrec. unfold records in Hrec.
      injection Hrec as _ _ ->. cbn. apply lookup_insert_eq.
    + rewrite (Hframe_b2 _ HB2). unfold records. cbn. by rewrite !lookup_delete_eq.
    + rewrite (Hframe_c2 _ HC2). cbn [after_fetch record_event db].
      apply (Hframe_c1 _ HC1).
    + rewrite Hmore, !elem_of_app, list_elem_of_singleton. by left; right.
Qed.

Lemma sample_credentials :
  credentials sample_platform sample_cfg entry_alpha "sk_alpha_key" "proj_alpha"
  /\ credentials sample_platform sample_cfg entry_revoked "sk_revoked_key" "proj_revoked"
  /\ credentials sample_platform sample_cfg entry_flaky "sk_flaky_key" "proj_flaky".
Proof. repeat split; vm_compute; reflexivity. Qed.

Lemma sample_fetches w :
  http_get w = sample_http_get ->
  fetch_returns sample_platform w "sk_alpha_key" "proj_alpha" (Ok alpha_metrics)
  /\ fetch_returns sample_platform w "sk_revoked_key" "proj_revoked" (Throw InvalidApiKeyError)
  /\ fetch_returns sample_platform w "sk_flaky_key" "proj_flaky" (Throw flaky_error).
Proof.
  intros Hhttp. repeat split; intros st;
    unfold fetchRevenueCatMetrics, bind, fetch; rewrite Hhttp; vm_compute; reflexivity.
Qed.

Lemma mixed_run_distinct : NoDup (map startup_id mixed_run).
Proof.
  refine (bool_decide_unpack (NoDup (map startup_id mixed_run)) _). by vm_compute.
Qed.

Lemma refresh_three_outcomes_witness :
  (credentials sample_platform sample_cfg entry_alpha "sk_alpha_key" "proj_alpha"
   /\ fetch_returns sample_platform sample_world "sk_alpha_key" "proj_alpha" (Ok alpha_metrics)
   /\ credentials sample_platform sample_cfg entry_revoked "sk_revoked_key" "proj_revoked"
   /\ fetch_returns sample_platform sample_world "sk_revoked_key" "proj_revoked"
        (Throw InvalidApiKeyError)
   /\ credentials sample_platform sample_cfg entry_flaky "sk_flaky_key" "proj_flaky"
   /\ fetch_returns sample_platform sample_world "sk_flaky_key" "proj_flaky" (Throw flaky_error)
   /\ name flaky_error <> "InvalidApiKeyError")
  /\ exists report st' time,
       for_of sample_platform sample_cfg sample_world mixed_run initial_results
              (state_of sample_db) = (Ok report, st')
       /\ revenue_metrics (db st') !! 1 = Some (mkRevenueMetrics (JNum 54000) (JNum 1200) time)
       /\ records (db st') 2 = (None, None, None)
       /\ records (db st') 3 = records sample_db 3
       /\ mkErrorEntry 3 (message flaky_error) ∈ errors report
       /\ (0 < success report)%nat /\ (0 < deleted report)%nat /\ (0 < failed report)%nat.
Proof.
  destruct sample_credentials as (HA & HB & HC).
  destruct (sample_fetches sample_world eq_refl) as (HfA & HfB & HfC).
  split; [repeat split; try done; vm_compute; by intros [=]|].
  refine (proj2 (proj2 (proj2
    (refresh_three_outcomes sample_platform sample_cfg sample_world
       entry_alpha entry_revoked entry_flaky
       "sk_alpha_key" "proj_alpha" alpha_metrics "sk_revoked_key" "proj_revoked"
       "sk_flaky_key" "proj_flaky" flaky_error
       HA HfA (fun _ => eq_refl) HB HfB (fun _ => eq_refl) HC HfC _)))
    mixed_run initial_results (state_of sample_db) mixed_run_distinct _ _ _).
  - vm_compute. by intros [=].
  - unfold mixed_run. repeat constructor.
  - unfold mixed_run. repeat constructor.
  - unfold mixed_run. repeat constructor.
Defined.

(** C1 as stated fails: with the same three adapter outcomes and a
    datastore that refuses the delete, the entry whose credential was
    rejected is still stored after the run, nothing was counted as deleted,
    and that entry was counted as failed. *)
Lemma refresh_three_outcomes_delete_refused :
  (credentials sample_platform sample_cfg entry_alpha "sk_alpha_key" "proj_alpha"
   /\ fetch_returns sample_platform stubborn_world "sk_alpha_key" "proj_alpha" (Ok alpha_metrics)
   /\ credentials sample_platform sample_cfg entry_revoked "sk_revoked_key" "proj_revoked"
   /\ fetch_returns sample_platform stubborn_world "sk_revoked_key" "proj_revoked"
        (Throw InvalidApiKeyError)
   /\ credentials sample_platform sample_cfg entry_flaky "sk_flaky_key" "proj_flaky"
   /\ fetch_returns sample_platform stubborn_world "sk_flaky_key" "proj_flaky"
        (Throw flaky_error))
  /\ exists report st',
       for_of sample_platform sample_cfg stubborn_world mixed_run initial_results
              (state_of sample_db) = (Ok report, st')
       /\ records (db st') 2 = records sample_db 2
       /\ records (db st') 2 <> (None, None, None)
       /\ deleted report = 0%nat
       /\ report
          = mkResults 1 2 0
              [mkErrorEntry 2 "Failed to delete startup: Failed to delete startup: connection terminated";
               mkErrorEntry 3 (message flaky_error)].
Proof.
  destruct sample_credentials as (HA & HB & HC).
  destruct (sample_fetches stubborn_world eq_refl) as (HfA & HfB & HfC).
  split; [done|].
  eexists _, _. split; [vm_compute; reflexivity|].
  repeat split; vm_compute; congruence.
Qed.

(** ** Zero readings *)

Lemma find_metric_absent id items :
  Forall (fun m => m <> JNull) items ->
  (forall m, m ∈ items -> has_id id m = false) ->
  find_metric id items = Ok None.
Proof.
  induction items as [|m rest IH]; [reflexivity|].
  intros Hnonnull Hnone. apply Forall_cons in Hnonnull as [Hm Hrest].
  pose proof (Hnone m ltac:(left)) as Hid. unfold has_id in Hid.
  cbn [find_metric].
  destruct (get_property m "id") as [m_id|e] eqn:Hget.
  - cbn. rewrite Hid. apply IH; [exact Hrest|].
    intros m' Hin. apply Hnone. by right.
  - destruct m; try discriminate. congruence.
Qed.

(** C9.  When the adapter's request is answered with a 2xx response whose
    body parses to an object with a metric list (an array without null
    elements) in which no element has id "mrr" or "revenue", the fetch
    returns [{ mrr: 0, revenue: 0 }] instead of failing; and the refresh
    job handles the entry as any successful reading: it writes the zeros,
    and counts the entry as succeeded when the datastore accepts the write
    (as failed with the datastore's error, the store unchanged, when it
    does not). *)
Theorem no_matching_metrics_read_as_zero P cfg w apiKey projectId st response data items :
  truthy_string projectId = true ->
  http_get w (trace st) (overview_url projectId) ("Bearer " +:+ apiKey) = Responded response ->
  ok response = true ->
  JSON_parse P (text response) = inl data ->
  get_property data "metrics" = Ok (Some (JArr items)) ->
  Forall (fun m => m <> JNull) items ->
  (forall m, m ∈ items -> has_id "mrr" m = false /\ has_id "revenue" m = false) ->
  fetchRevenueCatMetrics P w apiKey projectId st
  = (Ok zero_metrics, after_fetch apiKey projectId st)
  /\ forall e results,
       credentials P cfg e apiKey projectId ->
       match db_error w (trace (after_fetch apiKey projectId st))
               (EvUpsertRevenueMetrics (startup_id e) (JNum 0) (JNum 0)) with
       | None =>
           process_entry P cfg w e results st
           = (Ok (count_success results),
              written w (startup_id e) zero_metrics (after_fetch apiKey projectId st))
       | Some msg =>
           process_entry P cfg w e results st
           = (Ok (count_failed (startup_id e)
                    ("Failed to upsert revenue metrics: " +:+ msg) results),
              record_event (EvUpsertRevenueMetrics (startup_id e) (JNum 0) (JNum 0))
                           (after_fetch apiKey projectId st))
       end.
Proof.
  intros Htruthy Hhttp Hok Hparse Hmetrics Hnonnull Hnone.
  assert (Hfetch : fetchRevenueCatMetrics P w apiKey projectId st
                   = (Ok zero_metrics, after_fetch apiKey projectId st)).
  { rewrite (fetch_run P w apiKey projectId st Htruthy). f_equal.
    unfold fetchRevenueCatMetrics. rewrite Htruthy. cbn [negb].
    unfold bind, fetch. fold (overview_url projectId). rewrite Hhttp, Hok. cbn [negb lift fst].
    unfold parse_metrics. rewrite Hparse. cbn [result_bind].
    unfold data_metrics_find. rewrite Hmetrics. cbn [result_bind].
    rewrite !find_metric_absent; try done; intros m Hin; by apply Hnone. }
  split; [exact Hfetch|].
  intros e results Hcred.
  destruct (db_error w _ _) as [msg|] eqn:Hdb.
  - apply (write_refused_run P cfg w e results st apiKey projectId zero_metrics msg);
      [exact Hcred | by rewrite Hfetch | exact Hdb].
  - apply (success_run P cfg w e results st apiKey projectId zero_metrics);
      [exact Hcred | by rewrite Hfetch | exact Hdb].
Qed.

Lemma no_matching_metrics_read_as_zero_witness :
  fetchRevenueCatMetrics sample_platform sample_world "sk_idle_key" "proj_idle"
                         (state_of sample_db)
  = (Ok zero_metrics, after_fetch "sk_idle_key" "proj_idle" (state_of sample_db))
  /\ process_entry sample_platform sample_cfg sample_world entry_idle initial_results
                   (state_of sample_db)
     = (Ok (count_success initial_results),
        written sample_world 5 zero_metrics
                (after_fetch "sk_idle_key" "proj_idle" (state_of sample_db))).
Proof.
  pose proof (no_matching_metrics_read_as_zero sample_platform sample_cfg sample_world
                "sk_idle_key" "proj_idle" (state_of sample_db)
                (mkHttpResponse 200 "OK" "overview of proj_idle")
                sample_idle_overview idle_items
                eq_refl eq_refl eq_refl eq_refl eq_refl) as Hzero.
  destruct Hzero as [Hfetch Hjob].
  - repeat constructor. discriminate.
  - intros m Hin. apply list_elem_of_singleton in Hin as ->. split; reflexivity.
  - split; [exact Hfetch|].
    apply (Hjob entry_idle initial_results).
    repeat split; vm_compute; reflexivity.
Defined.

(** A 2xx answer with a JSON body whose metric list has no "mrr" and no
    "revenue" element, but holds a null: looking for the metric reads
    [m.id] of the null, the fetch throws a TypeError, and the job counts the
    entry as failed, writing nothing. *)
Lemma null_metric_element_is_an_error :
  let response := mkHttpResponse 200 "OK" "overview of proj_null" in
  http_get null_world [] (overview_url "proj_null") ("Bearer " +:+ "sk_null_key")
  = Responded response
  /\ ok response = true
  /\ JSON_parse null_platform (text response) = inl null_overview
  /\ get_property null_overview "metrics" = Ok (Some (JArr null_items))
  /\ (forall m, m ∈ null_items -> has_id "mrr" m = false /\ has_id "revenue" m = false)
  /\ fetchRevenueCatMetrics null_platform null_world "sk_null_key" "proj_null"
       (state_of sample_db)
     = (Throw (TypeError "Cannot read properties of null (reading 'id')"),
        after_fetch "sk_null_key" "proj_null" (state_of sample_db))
  /\ credentials null_platform sample_cfg entry_null "sk_null_key" "proj_null"
  /\ process_entry null_platform sample_cfg null_world entry_null initial_results
       (state_of sample_db)
     = (Ok (mkResults 0 1 0
              [mkErrorEntry 10 "Cannot read properties of null (reading 'id')"]),
        after_fetch "sk_null_key" "proj_null" (state_of sample_db))
  /\ db (after_fetch "sk_null_key" "proj_null" (state_of sample_db)) = sample_db.
Proof.
  cbv zeta. split; [reflexivity|]. split; [reflexivity|]. split; [reflexivity|].
  split; [reflexivity|]. split.
  { intros m Hin. unfold null_items in Hin.
    repeat (apply elem_of_cons in Hin as [->|Hin]); [by split | by split|].
    by apply elem_of_nil in Hin. }
  split; [vm_compute; reflexivity|].
  split; [repeat split; vm_compute; reflexivity|].
  split; [vm_compute; reflexivity | reflexivity].
Qed.

(** ** Refresh job: the endpoint *)

Lemma GET_authorized P cfg w request st :
  authorized cfg request ->
  GET P cfg w request st
  = try_catch
      (let! startupsWithKeys := getStartupsWithApiKeys w in
       if (List.length startupsWithKeys =? 0)%nat then ret no_startups_response
       else
         let! results := for_of P cfg w startupsWithKeys initial_results in
         ret (completed_response results))
      (fun error => ret (job_error_response error)) st.
Proof.
  intros (secret & Hsecret & Htruthy & Hheader).
  unfold GET. rewrite Hsecret, Htruthy, Hheader. cbn [negb truthy_opt].
  rewrite bool_decide_eq_true_2 by reflexivity.
  destruct secret; [discriminate|]. reflexivity.
Qed.

Lemma getStartupsWithApiKeys_run w st :
  db_error w (trace st) EvSelectApiKeys = None ->
  getStartupsWithApiKeys w st
  = (Ok (map (fun row => mkEntry row.1 (revenuecat_api_key row.2)
                           (revenuecat_project_id row.2))
             (map_to_list (api_keys (db st)))),
     record_event EvSelectApiKeys st).
Proof.
  intros Hdb. unfold getStartupsWithApiKeys, bind, db_call. by rewrite Hdb.
Qed.

(** C4 (amended).  When the job is triggered with the configured token and
    the datastore returns no credential rows, the endpoint answers 200 with
    the body [{ message: 'No startups to update', updated: 0 }], and the
    only interaction with the outside is the query for the rows: no adapter
    call, no write and no delete is made, and the store is unchanged. *)
Theorem empty_run_updates_nothing P cfg w request st :
  authorized cfg request ->
  db_error w (trace st) EvSelectApiKeys = None ->
  api_keys (db st) = ∅ ->
  GET P cfg w request st = (Ok no_startups_response, record_event EvSelectApiKeys st)
  /\ new_events st (GET P cfg w request st).2 = [EvSelectApiKeys]
  /\ db (GET P cfg w request st).2 = db st.
Proof.
  intros Hauth Hdb Hempty.
  assert (Hrun : GET P cfg w request st
                 = (Ok no_startups_response, record_event EvSelectApiKeys st)).
  { rewrite (GET_authorized P cfg w request st Hauth).
    unfold try_catch, bind. rewrite (getStartupsWithApiKeys_run w st Hdb), Hempty.
    by rewrite map_to_list_empty. }
  rewrite Hrun. split; [reflexivity|]. split; [apply new_events_one | reflexivity].
Qed.

Lemma sample_request_authorized cfg :
  cronSecret cfg = Some "cron token" -> authorized cfg sample_request.
Proof. intros Hsecret. exists "cron token". by repeat split. Qed.

Lemma empty_run_updates_nothing_witness :
  authorized sample_cfg sample_request
  /\ GET sample_platform sample_cfg sample_world sample_request (state_of empty_db)
     = (Ok no_startups_response, record_event EvSelectApiKeys (state_of empty_db))
  /\ new_events (state_of empty_db)
       (GET sample_platform sample_cfg sample_world sample_request (state_of empty_db)).2
     = [EvSelectApiKeys]
  /\ db (GET sample_platform sample_cfg sample_world sample_request (state_of empty_db)).2
     = empty_db.
Proof.
  split; [by apply sample_request_authorized|].
  apply (empty_run_updates_nothing sample_platform sample_cfg sample_world sample_request
           (state_of empty_db)).
  - by apply sample_request_authorized.
  - reflexivity.
  - reflexivity.
Defined.

(** C4 as stated fails: the body returned for an empty entry set is not the
    report with zero counts and an empty error list that the endpoint
    renders after a run; it has none of the four report fields. *)
Lemma empty_run_body_is_not_a_report :
  exists body st',
    GET sample_platform sample_cfg sample_world sample_request (state_of empty_db)
    = (Ok (mkResponse 200 (BodyJson body)), st')
    /\ body <> report_body initial_results
    /\ property body "success" = None
    /\ property body "failed" = None
    /\ property body "deleted" = None
    /\ property body "errors" = None
    /\ property (report_body initial_results) "failed" = Some (JNum 0).
Proof.
  eexists _, _. split; [vm_compute; reflexivity|].
  repeat split; try reflexivity. discriminate.
Qed.

(** ** Missing master secret *)

Lemma decrypt_without_key P cfg token :
  master_secret_absent cfg ->
  (List.length (split ":" token) = 4%nat ->
   decryptApiKey P cfg token = Throw key_missing_on_decrypt)
  /\ exists err,
       decryptApiKey P cfg token = Throw err
       /\ (err = MalformedTokenError \/ err = key_missing_on_decrypt).
Proof.
  intros Habsent. unfold master_secret_absent in Habsent.
  unfold decryptApiKey. rewrite Habsent.
  destruct (split ":" token) as [|p0 [|p1 [|p2 [|p3 [|p4 more]]]]];
    cbn; (split; [try discriminate | eauto]).
  reflexivity.
Qed.

Lemma process_entry_without_key P cfg w e results st :
  master_secret_absent cfg ->
  exists msg,
    process_entry P cfg w e results st = (Ok (count_failed (startup_id e) msg results), st)
    /\ msg ∈ keyless_messages.
Proof.
  intros Habsent.
  destruct (truthy_opt truthy_string (project_id e)) eqn:Hpid.
  - destruct (decrypt_without_key P cfg (encrypted_api_key e) Habsent)
      as (_ & err & Hdecrypt & Herr).
    exists (message err). split; [by apply decryption_failure_run|].
    unfold keyless_messages. destruct Herr as [-> | ->]; repeat constructor.
  - exists "Project ID is missing".
    split; [by apply missing_project_id_run | constructor].
Qed.

Lemma for_of_without_key P cfg w l results st :
  master_secret_absent cfg ->
  exists more,
    for_of P cfg w l results st
    = (Ok (mkResults (success results) (failed results + List.length l) (deleted results)
                     (errors results ++ more)), st)
    /\ map error_startup_id more = map startup_id l
    /\ Forall (fun entry => error entry ∈ keyless_messages) more.
Proof.
  intros Habsent. revert results. induction l as [|e l IH]; intros results.
  - exists []. cbn. rewrite app_nil_r, Nat.add_0_r. by destruct results.
  - destruct (process_entry_without_key P cfg w e results st Habsent) as (msg & Hrun & Hmsg).
    destruct (IH (count_failed (startup_id e) msg results)) as (more & Hrest & Hids & Hall).
    exists (mkErrorEntry (startup_id e) msg :: more).
    cbn [for_of]. unfold bind. rewrite Hrun, Hrest.
    cbn [success failed deleted errors count_failed List.length map error_startup_id].
    split; [|split].
    + do 2 f_equal. f_equal; [lia | by rewrite <- app_assoc].
    + by rewrite Hids.
    + by constructor.
Qed.

(** C5 (amended).  When the master secret is absent from the configuration,
    every [encryptApiKey] call fails with the configuration error after
    drawing the salt and before any key derivation, and every
    [decryptApiKey] call on a four-field token fails with the configuration
    error.  The check is made inside each call, not when the job starts: a
    refresh run still iterates over all its entries, counts every one of
    them as failed (with the missing-project-id, malformed-token or
    configuration message), makes no adapter call, no write and no delete,
    and the endpoint answers 200 with that report. *)
Theorem missing_master_secret_fails_each_call P cfg w :
  master_secret_absent cfg ->
  (forall apiKey st,
     encryptApiKey P cfg w apiKey st
     = (Throw key_missing_on_encrypt, record_event (EvRandomBytes SALT_LENGTH) st))
  /\ (forall token,
        List.length (split ":" token) = 4%nat ->
        decryptApiKey P cfg token = Throw key_missing_on_decrypt)
  /\ (forall l results st,
        exists more,
          for_of P cfg w l results st
          = (Ok (mkResults (success results) (failed results + List.length l)
                           (deleted results) (errors results ++ more)), st)
          /\ map error_startup_id more = map startup_id l
          /\ Forall (fun entry => error entry ∈ keyless_messages) more)
  /\ (forall request st,
        authorized cfg request ->
        db_error w (trace st) EvSelectApiKeys = None ->
        api_keys (db st) <> ∅ ->
        exists errors,
          GET P cfg w request st
          = (Ok (completed_response (mkResults 0 (size (api_keys (db st))) 0 errors)),
             record_event EvSelectApiKeys st)
          /\ Forall (fun entry => error entry ∈ keyless_messages) errors).
Proof.
  intros Habsent. split; [|split; [|split]].
  - intros apiKey st. unfold encryptApiKey, try_catch, bind, crypto_randomBytes, lift.
    unfold master_secret_absent in Habsent. by rewrite Habsent.
  - intros token. by apply decrypt_without_key.
  - intros l results st. by apply for_of_without_key.
  - intros request st Hauth Hdb Hrows.
    rewrite (GET_authorized P cfg w request st Hauth).
    unfold try_catch, bind at 1. rewrite (getStartupsWithApiKeys_run w st Hdb).
    set (entries := map _ (map_to_list (api_keys (db st)))).
    assert (Hlength : List.length entries = size (api_keys (db st))).
    { unfold entries. by rewrite length_map, length_map_to_list. }
    destruct (for_of_without_key P cfg w entries initial_results
                (record_event EvSelectApiKeys st) Habsent) as (more & Hrun & _ & Hall).
    destruct (List.length entries =? 0)%nat eqn:Hzero.
    + apply Nat.eqb_eq in Hzero. rewrite Hlength in Hzero.
      by apply map_size_empty_iff in Hzero.
    + unfold bind. rewrite Hrun. exists more. cbn. by rewrite Hlength.
Qed.

Lemma missing_master_secret_fails_each_call_witness :
  master_secret_absent keyless_cfg
  /\ decryptApiKey sample_platform keyless_cfg (sample_token "sk_alpha_key")
     = Throw key_missing_on_decrypt
  /\ exists errors,
       GET sample_platform keyless_cfg sample_world sample_request (state_of sample_db)
       = (Ok (completed_response (mkResults 0 (size (api_keys sample_db)) 0 errors)),
          record_event EvSelectApiKeys (state_of sample_db))
       /\ Forall (fun entry => error entry ∈ keyless_messages) errors.
Proof.
  pose proof (missing_master_secret_fails_each_call sample_platform keyless_cfg sample_world
                eq_refl) as (_ & Hdecrypt & _ & Hget).
  split; [reflexivity|]. split.
  - apply Hdecrypt. reflexivity.
  - apply (Hget sample_request (state_of sample_db)).
    + by apply sample_request_authorized.
    + reflexivity.
    + intros Hempty. apply (f_equal (fun rows => rows !! 1)) in Hempty.
      vm_compute in Hempty. discriminate.
Defined.

(** C5 as stated fails: with the master secret absent and three entries
    stored, the triggered run does not stop with a configuration error; it
    goes through the entries and answers 200 with a report that counts each
    of them as failed. *)
Lemma refresh_runs_without_master_secret :
  master_secret_absent keyless_cfg
  /\ api_keys sample_db !! 1 = Some (api_key_row entry_alpha)
  /\ GET sample_platform keyless_cfg sample_world sample_request (state_of sample_db)
     = (Ok (mkResponse 200 (BodyJson (report_body keyless_report))),
        record_event EvSelectApiKeys (state_of sample_db))
  /\ failed keyless_report = 3%nat.
Proof. repeat split; vm_compute; reflexivity. Qed.

(** ** Input validation *)

Lemma reverse_involutive s : reverse (reverse s) = s.
Proof.
  unfold reverse.
  by rewrite list_ascii_of_string_of_list_ascii, rev_involutive,
    string_of_list_ascii_of_string.
Qed.

(** A character of a project id is an ASCII character that is no white
    space; the white space of several bytes is made of other bytes. *)
Ltac reflect_codes :=
  repeat first [ rewrite orb_true_iff | rewrite andb_true_iff
               | rewrite N.eqb_eq | rewrite N.leb_le ].

Lemma project_char_code c :
  is_project_char c = true -> (45 <= code c < 128)%N /\ is_space c = false.
Proof.
  unfold is_project_char, is_word, is_letter, is_digit, is_space.
  destruct ((9 <=? code c) && (code c <=? 13) || (code c =? 32))%N eqn:Hspace;
    [revert Hspace|]; reflect_codes; lia.
Qed.

Lemma is_space2_codes a b :
  is_space2 a b = true -> (code a = 194 /\ code b = 160)%N.
Proof. unfold is_space2. rewrite andb_true_iff, !N.eqb_eq. tauto. Qed.

Lemma is_space3_codes a b c :
  is_space3 a b c = true -> (128 <= code a /\ 128 <= code c)%N.
Proof.
  unfold is_space3. reflect_codes. lia.
Qed.

Lemma strip_plain two three c rest :
  is_space c = false -> (forall b, two c b = false) -> (forall b d, three c b d = false) ->
  strip two three (String c rest) = String c rest.
Proof.
  intros Hspace Htwo Hthree. cbn [strip]. rewrite Hspace.
  destruct rest as [|b [|d rest3]]; rewrite ?Htwo, ?Hthree; reflexivity.
Qed.

Lemma all_chars_Forall p s :
  all_chars p s = true -> Forall (fun c => p c = true) (list_ascii_of_string s).
Proof.
  induction s as [|c rest IH]; cbn; [constructor|].
  rewrite andb_true_iff. intros [Hc Hrest]. constructor; auto.
Qed.

(** [trim] leaves a string of project-id characters as it is. *)
Lemma trim_project_chars s : all_chars is_project_char s = true -> trim s = s.
Proof.
  intros Hall. unfold trim.
  assert (Hstart : trimStart s = s).
  { destruct s as [|c rest]; [reflexivity|].
    cbn in Hall. apply andb_true_iff in Hall as [Hc _].
    destruct (project_char_code c Hc) as [Hcode Hspace].
    apply strip_plain; [exact Hspace| |].
    - intros b. destruct (is_space2 c b) eqn:H2; [|reflexivity].
      apply is_space2_codes in H2. lia.
    - intros b d. destruct (is_space3 c b d) eqn:H3; [|reflexivity].
      apply is_space3_codes in H3. lia. }
  rewrite Hstart. unfold trimEnd.
  enough (Hend : strip (fun a b => is_space2 b a) (fun a b c => is_space3 c b a) (reverse s)
                 = reverse s) by (rewrite Hend; apply reverse_involutive).
  apply all_chars_Forall, Forall_rev in Hall. unfold reverse.
  destruct (rev (list_ascii_of_string s)) as [|c rest]; [reflexivity|].
  apply Forall_cons in Hall as [Hc _].
  destruct (project_char_code c Hc) as [Hcode Hspace].
  cbn [string_of_list_ascii]. apply strip_plain; [exact Hspace| |].
  - intros b. destruct (is_space2 b c) eqn:H2; [|reflexivity].
    apply is_space2_codes in H2. lia.
  - intros b d. destruct (is_space3 d b c) eqn:H3; [|reflexivity].
    apply is_space3_codes in H3. lia.
Qed.

(** A project id that passes validation is trimmed and not empty, so the
    uniqueness query is made and looks for the id as it would be stored. *)
Lemma validateProjectId_valid input :
  valid (validateProjectId input) = true ->
  trim (value (validateProjectId input)) = value (validateProjectId input)
  /\ truthy_string (value (validateProjectId input)) = true.
Proof.
  unfold validateProjectId.
  destruct input as [[| | |projectId| |]|]; try discriminate.
  destruct (_ <? MIN_LENGTHS_projectId)%nat; [discriminate|].
  destruct (MAX_LENGTHS_projectId <? _)%nat; [discriminate|].
  destruct (only_chars is_project_char (sanitizeString projectId)) eqn:Hchars;
    [|discriminate].
  intros _. cbn [negb accept value].
  unfold only_chars in Hchars. apply andb_true_iff in Hchars as [Htruthy Hall].
  split; [by apply trim_project_chars | exact Htruthy].
Qed.

(** ** Registration *)

Lemma checkRateLimit_run w identifier config_max config_windowMs st :
  exists rateLimit st1,
    checkRateLimit w identifier config_max config_windowMs st = (Ok rateLimit, st1)
    /\ db st1 = db st /\ trace st1 = trace st.
Proof.
  unfold checkRateLimit, cleanup. cbn.
  destruct (_ =? 0); cbn;
    (destruct (_ !! identifier) as [record|];
     [destruct (resetAt record <? _)|]); by eexists _, _.
Qed.

Lemma registered_project_counted projectId d :
  project_id_registered projectId d -> (0 < project_id_count projectId d)%nat.
Proof.
  intros (id & row & Hrow & Hpid). unfold project_id_count.
  enough (size (filter (fun r : Z * ApiKey => revenuecat_project_id r.2 = Some projectId)
                       (api_keys d)) <> 0%nat) by lia.
  apply (map_size_ne_0_lookup_2 _ id). exists row.
  by apply map_lookup_filter_Some.
Qed.

Lemma isProjectIdTaken_registered w projectId st1 :
  trim projectId = projectId -> truthy_string projectId = true ->
  project_id_registered projectId (db st1) ->
  isProjectIdTaken w projectId st1
  = (match db_error w (trace st1) (EvCountProjectId projectId) with
     | Some msg => Throw (Error ("Failed to validate project ID uniqueness: " +:+ msg))
     | None => Ok true
     end, record_event (EvCountProjectId projectId) st1).
Proof.
  intros Htrim Htruthy Hregistered. unfold isProjectIdTaken.
  rewrite Htrim, Htruthy. cbn [negb]. unfold bind, db_call.
  destruct (db_error w (trace st1) _); [reflexivity|].
  cbn. rewrite bool_decide_eq_true_2; [reflexivity|].
  by apply registered_project_counted.
Qed.

Lemma new_events_same st st1 ev :
  trace st1 = trace st ->
  new_events st st1 = [] /\ new_events st (record_event ev st1) = [ev].
Proof.
  intros Htrace. split; apply new_events_app; cbn; rewrite Htrace;
    [by rewrite app_nil_r | reflexivity].
Qed.

(** The [try] block on a request whose project id is registered: it ends
    in a response other than 201 or in an exception, having at most asked
    the datastore for the count of that project id. *)
Lemma POST_attempt_registered P cfg w request st body :
  JSON_parse P (body_text request) = inl body ->
  project_id_registered (value (validateProjectId (property body "projectId"))) (db st) ->
  exists outcome st',
    POST_attempt P cfg w request st = (outcome, st')
    /\ (forall response, outcome = Ok response -> response_status response <> 201)
    /\ db st' = db st
    /\ (new_events st st' = []
        \/ new_events st st'
           = [EvCountProjectId (value (validateProjectId (property body "projectId")))]).
Proof.
  intros Hparse Hregistered.
  unfold POST_attempt. unfold bind at 1.
  destruct (checkRateLimit_run w (getClientIdentifier request) (Some 3)
              (Some (60 * 60 * 1000)) st) as (rateLimit & st1 & -> & Hdb & Htrace).
  destruct (new_events_same st st1
              (EvCountProjectId (value (validateProjectId (property body "projectId"))))
              Htrace) as [Hnone Hone].
  assert (Hleaf : forall response : Response,
             response_status response <> 201 ->
             exists outcome st',
               (Ok response, st1) = (outcome, st')
               /\ (forall response', outcome = Ok response' -> response_status response' <> 201)
               /\ db st' = db st
               /\ (new_events st st' = []
                   \/ new_events st st'
                      = [EvCountProjectId
                           (value (validateProjectId (property body "projectId")))])).
  { intros response Hstatus. exists (Ok response), st1.
    split; [reflexivity|]. split; [by intros ? [= <-]|]. by split; [|left]. }
  destruct (negb (allowed rateLimit)); [by apply Hleaf|].
  unfold bind at 1. unfold request_json. rewrite Hparse. unfold ret at 1.
  set (projectIdValidation := validateProjectId (property body "projectId")) in *.
  assert (Hcontinue :
    exists outcome st',
      (if negb (valid (validateName (property body "name")))
       then ret (bad_request (validation_error (validateName (property body "name"))))
       else
       if negb (valid projectIdValidation)
       then ret (bad_request (validation_error projectIdValidation))
       else
       if negb (valid (validateApiKey (property body "revenuecatApiKey")))
       then ret (bad_request
                   (validation_error (validateApiKey (property body "revenuecatApiKey"))))
       else
       match optional (property body "websiteUrl") (validateUrl P) "Website: " with
       | inl response => ret response
       | inr validatedWebsiteUrl =>
       match optional (property body "appStoreId") validateAppStoreId "App Store ID: " with
       | inl response => ret response
       | inr validatedAppStoreId =>
       match optional (property body "founderUsername") validateUsername
               "Twitter username: " with
       | inl response => ret response
       | inr validatedUsername =>
       if negb (truthy_opt truthy_string validatedAppStoreId)
          && negb (truthy_opt truthy_string validatedWebsiteUrl)
       then ret (bad_request
                   (Some "Either App Store ID or Website is required (at least one to fetch the app icon)"))
       else
         register P cfg w (value (validateName (property body "name")))
                  validatedWebsiteUrl validatedUsername validatedAppStoreId
                  (value (validateApiKey (property body "revenuecatApiKey")))
                  (value projectIdValidation)
       end end end) st1 = (outcome, st')
      /\ (forall response, outcome = Ok response -> response_status response <> 201)
      /\ db st' = db st
      /\ (new_events st st' = []
          \/ new_events st st' = [EvCountProjectId (value projectIdValidation)])).
  { destruct (negb (valid (validateName _))); [by apply Hleaf|].
    destruct (valid projectIdValidation) eqn:Hvalid; cbn [negb]; [|by apply Hleaf].
    destruct (validateProjectId_valid _ Hvalid) as [Htrim Htruthy].
    destruct (negb (valid (validateApiKey _))); [by apply Hleaf|].
    assert (Hoptional : forall field validate label response,
               optional field validate label = inl response ->
               response_status response <> 201).
    { intros field validate label response. unfold optional.
      destruct (truthy_opt truthy field); [|discriminate].
      destruct (negb (valid (validate field))); [|discriminate].
      by intros [= <-]. }
    destruct (optional (property body "websiteUrl") _ _) as [response|validatedWebsiteUrl]
      eqn:Hwebsite; [apply Hleaf; eapply Hoptional, Hwebsite|].
    destruct (optional (property body "appStoreId") _ _) as [response|validatedAppStoreId]
      eqn:HappStore; [apply Hleaf; eapply Hoptional, HappStore|].
    destruct (optional (property body "founderUsername") _ _) as [response|validatedUsername]
      eqn:Husername; [apply Hleaf; eapply Hoptional, Husername|].
    destruct (_ && _); [by apply Hleaf|].
    unfold register, bind.
    rewrite (isProjectIdTaken_registered w (value projectIdValidation) st1 Htrim Htruthy)
      by (by rewrite Hdb).
    destruct (db_error w (trace st1) _) as [msg|].
    - eexists _, _. split; [reflexivity|]. split; [discriminate|]. by split; [|right].
    - eexists _, _. split; [reflexivity|]. split; [by intros ? [= <-]|]. by split; [|right]. }
  destruct body; try exact Hcontinue.
  eexists _, _. split; [reflexivity|]. split; [discriminate|]. by split; [|left].
Qed.

(** C8.  A registration request whose (validated) project id already
    belongs to a stored credential record is rejected: the endpoint answers
    with a status other than 201 (409 when the request passes validation
    and the datastore answers the uniqueness query), and before that answer
    it has at most asked the datastore for the count of that project id.
    No random bytes are drawn, so [encryptApiKey] is not called; no
    startup, credential or metrics row is written; the store is unchanged,
    and with it the uniqueness of project ids. *)
Theorem registered_project_id_rejected P cfg w request st body :
  JSON_parse P (body_text request) = inl body ->
  project_id_registered (value (validateProjectId (property body "projectId"))) (db st) ->
  exists response st',
    POST P cfg w request st = (Ok response, st')
    /\ response_status response <> 201
    /\ Forall (fun ev => ~ encrypts_or_stores ev) (new_events st st')
    /\ (new_events st st' = []
        \/ new_events st st'
           = [EvCountProjectId (value (validateProjectId (property body "projectId")))])
    /\ db st' = db st
    /\ (project_ids_unique (db st) -> project_ids_unique (db st')).
Proof.
  intros Hparse Hregistered.
  destruct (POST_attempt_registered P cfg w request st body Hparse Hregistered)
    as (outcome & st' & Hrun & Hstatus & Hdb & Hevents).
  assert (Hquiet : Forall (fun ev => ~ encrypts_or_stores ev) (new_events st st')).
  { destruct Hevents as [-> | ->]; repeat constructor. cbn. tauto. }
  unfold POST, try_catch. rewrite Hrun.
  destruct outcome as [response|err].
  - exists response, st'. repeat split; try done; [by apply Hstatus | by rewrite Hdb].
  - eexists _, st'. split; [reflexivity|].
    repeat split; try done; by rewrite Hdb.
Qed.

Lemma proj_alpha_registered : project_id_registered "proj_alpha" sample_db.
Proof. exists 1, (api_key_row entry_alpha). split; reflexivity. Qed.

Lemma registered_project_id_rejected_witness :
  JSON_parse sample_platform (body_text registration_request) = inl sample_registration
  /\ project_id_registered "proj_alpha" sample_db
  /\ exists response st',
       POST sample_platform sample_cfg sample_world registration_request
            (state_of sample_db) = (Ok response, st')
       /\ response_status response <> 201
       /\ Forall (fun ev => ~ encrypts_or_stores ev) (new_events (state_of sample_db) st')
       /\ (new_events (state_of sample_db) st' = []
           \/ new_events (state_of sample_db) st' = [EvCountProjectId "proj_alpha"])
       /\ db st' = sample_db
       /\ (project_ids_unique sample_db -> project_ids_unique (db st')).
Proof.
  split; [reflexivity|].
  split; [exact proj_alpha_registered|].
  apply (registered_project_id_rejected sample_platform sample_cfg
           sample_world registration_request (state_of sample_db) sample_registration).
  - reflexivity.
  - exact proj_alpha_registered.
Defined.

(** On the sample store the rejection is the 409 answer, and a project id
    that is not registered goes through to encryption and storage. *)
Example registration_conflict :
  (POST sample_platform sample_cfg sample_world registration_request
        (state_of sample_db)).1
  = Ok (mkResponse 409
          (BodyJson (error_body (Some "This RevenueCat project ID is already registered.")))).
Proof. vm_compute. reflexivity. Qed.

Example registration_accepted :
  exists response st',
    POST sample_platform sample_cfg sample_world registration_request
         (state_of empty_db) = (Ok response, st')
    /\ response_status response = 201
    /\ Exists encrypts_or_stores (new_events (state_of empty_db) st').
Proof.
  eexists _, _. split; [vm_compute; reflexivity|].
  split; [reflexivity|]. vm_compute. do 3 right. left. exact I.
Qed.

(** ** The failure kinds on the sample world

    A 401 that does not carry the invalid-key message, a body that is not
    JSON, a network failure and a credential that is no token are each
    counted as failed, with nothing deleted. *)

Example expired_session_is_kept :
  process_entry sample_platform sample_cfg sample_world entry_expired initial_results
                (state_of sample_db)
  = (Ok (count_failed 6 "RevenueCat API error: 401 Unauthorized. session expired"
                      initial_results),
     after_fetch "sk_expired_key" "proj_expired" (state_of sample_db)).
Proof. vm_compute. reflexivity. Qed.

Example unparseable_body_is_kept :
  process_entry sample_platform sample_cfg sample_world entry_broken initial_results
                (state_of sample_db)
  = (Ok (count_failed 7 "Unexpected token in JSON at position 0" initial_results),
     after_fetch "sk_broken_key" "proj_broken" (state_of sample_db)).
Proof. vm_compute. reflexivity. Qed.

Example network_failure_is_kept :
  process_entry sample_platform sample_cfg sample_world entry_offline initial_results
                (state_of sample_db)
  = (Ok (count_failed 8 "fetch failed" initial_results),
     after_fetch "sk_offline_key" "proj_offline" (state_of sample_db)).
Proof. vm_compute. reflexivity. Qed.

Example garbled_credential_is_kept :
  process_entry sample_platform sample_cfg sample_world entry_garbled initial_results
                (state_of sample_db)
  = (Ok (count_failed 9 (message MalformedTokenError) initial_results), state_of sample_db).
Proof. vm_compute. reflexivity. Qed.

Example mixed_run_report :
  (for_of sample_platform sample_cfg sample_world mixed_run initial_results
          (state_of sample_db)).1
  = Ok (mkResults 1 1 1 [mkErrorEntry 3 (message flaky_error)]).
Proof. vm_compute. reflexivity. Qed.

(** ** Refresh job: the run over the listed credentials *)

Lemma entry_of_row_inj (r1 r2 : Z * ApiKey) :
  mkEntry r1.1 (revenuecat_api_key r1.2) (revenuecat_project_id r1.2)
  = mkEntry r2.1 (revenuecat_api_key r2.2) (revenuecat_project_id r2.2) ->
  r1 = r2.
Proof. destruct r1 as [i1 [k1 p1]], r2 as [i2 [k2 p2]]. cbn. by intros [= -> -> ->]. Qed.

Lemma listed_entries (rows : gmap Z ApiKey) :
  let entries :=
    map (fun row => mkEntry row.1 (revenuecat_api_key row.2) (revenuecat_project_id row.2))
        (map_to_list rows) in
  NoDup (map startup_id entries)
  /\ List.length entries = size rows
  /\ forall e,
       e ∈ entries
       <-> rows !! startup_id e = Some (mkApiKey (encrypted_api_key e) (project_id e)).
Proof.
  cbv zeta. split; [|split].
  - rewrite map_map. cbn. apply NoDup_fst_map_to_list.
  - by rewrite length_map, length_map_to_list.
  - intros e. rewrite <- elem_of_map_to_list. split.
    + intros Hin. apply list_elem_of_In, in_map_iff in Hin as ([i [k p]] & <- & Hin).
      by apply list_elem_of_In.
    + intros Hin. apply list_elem_of_In, in_map_iff.
      exists (startup_id e, mkApiKey (encrypted_api_key e) (project_id e)).
      split; [by destruct e | by apply list_elem_of_In].
Qed.

Lemma authorized_or_not cfg request :
  authorized cfg request \/ ~ authorized cfg request.
Proof.
  unfold authorized.
  destruct (cronSecret cfg) as [secret|]; [|right; by intros (? & [=] & _)].
  destruct (truthy_string secret) eqn:Htruthy;
    [|right; intros (? & [= <-] & ? & _); congruence].
  destruct (decide (headers request !! "authorization" = Some ("Bearer " +:+ secret)))
    as [Hheader|Hheader].
  - left. by exists secret.
  - right. by intros (? & [= <-] & _ & ?).
Qed.

Lemma GET_unauthorized P cfg w request st :
  ~ authorized cfg request -> GET P cfg w request st = (Ok unauthorized, st).
Proof.
  intros Hno. unfold GET.
  destruct (cronSecret cfg) as [secret|] eqn:Hsecret; [|reflexivity].
  destruct (truthy_string secret) eqn:Htruthy; cbn [negb]; [|reflexivity].
  destruct (headers request !! "authorization") as [header|] eqn:Hheader; [|reflexivity].
  destruct (negb (truthy_opt truthy_string (Some header))); [reflexivity|].
  cbn [orb].
  destruct (bool_decide (Some header = Some ("Bearer " +:+ secret))) eqn:Hmatch;
    [|reflexivity].
  apply bool_decide_eq_true in Hmatch. exfalso. apply Hno.
  exists secret. by rewrite Hheader.
Qed.

Lemma GET_run P cfg w request st :
  authorized cfg request ->
  match db_error w (trace st) EvSelectApiKeys with
  | Some msg =>
      GET P cfg w request st
      = (Ok (job_error_response (Error ("Failed to fetch API keys: " +:+ msg))),
         record_event EvSelectApiKeys st)
  | None =>
      let entries :=
        map (fun row => mkEntry row.1 (revenuecat_api_key row.2) (revenuecat_project_id row.2))
            (map_to_list (api_keys (db st))) in
      if (List.length entries =? 0)%nat
      then GET P cfg w request st = (Ok no_startups_response, record_event EvSelectApiKeys st)
      else exists report st',
          for_of P cfg w entries initial_results (record_event EvSelectApiKeys st)
          = (Ok report, st')
          /\ GET P cfg w request st = (Ok (completed_response report), st')
  end.
Proof.
  intros Hauth. rewrite (GET_authorized P cfg w request st Hauth).
  destruct (db_error w (trace st) EvSelectApiKeys) as [msg|] eqn:Hdb.
  - unfold try_catch, bind at 1, getStartupsWithApiKeys, bind at 1, db_call.
    by rewrite Hdb.
  - cbv zeta. unfold try_catch, bind at 1.
    rewrite (getStartupsWithApiKeys_run w st Hdb).
    destruct (List.length _ =? 0)%nat eqn:Hzero; [reflexivity|].
    destruct (for_of_returns P cfg w
                (map (fun row => mkEntry row.1 (revenuecat_api_key row.2)
                                   (revenuecat_project_id row.2))
                     (map_to_list (api_keys (db st))))
                initial_results (record_event EvSelectApiKeys st)) as (report & st' & Hrun).
    exists report, st'. split; [exact Hrun|]. unfold bind.
    rewrite (getStartupsWithApiKeys_run w st Hdb), Hzero. by rewrite Hrun.
Qed.

(** What the deletes of one iteration, and of a run of the loop, tell. *)
Lemma processed_deletes P cfg w e results st results' st' :
  processed P cfg w e results st results' st' ->
  exists events,
    trace st' = (trace st ++ events)%list
    /\ forall id, EvDeleteStartup id ∈ events ->
                  id = startup_id e /\ invalid_key_failure P cfg w e st.
Proof.
  destruct 1; cbn [trace written removed after_fetch set_db record_event];
    [exists [] | exists [] | eexists [_; _] | eexists [_; _] | eexists [_; _] | eexists [_; _]
     | eexists [_]];
    (split; [by rewrite <- ?app_assoc, ?app_nil_r|]);
    intros id Hin; repeat (apply elem_of_cons in Hin as [Hin|Hin]);
    try discriminate Hin; try (by apply elem_of_nil in Hin);
    injection Hin as ->; (split; [reflexivity|]); by eexists _, _.
Qed.

Lemma for_of_deletes P cfg w l results st report st' :
  for_of P cfg w l results st = (Ok report, st') ->
  exists events,
    trace st' = (trace st ++ events)%list
    /\ forall id, EvDeleteStartup id ∈ events ->
                  exists e st0 before later,
                    e ∈ l /\ startup_id e = id
                    /\ trace st0 = (trace st ++ before)%list
                    /\ trace st' = (trace st0 ++ later)%list
                    /\ invalid_key_failure P cfg w e st0.
Proof.
  revert results st. induction l as [|e l IH]; intros results st.
  - intros [= <- <-]. exists []. split; [by rewrite app_nil_r|].
    intros id Hin. by apply elem_of_nil in Hin.
  - destruct (process_entry_processed P cfg w e results st) as (r1 & st1 & Hrun & Hstep).
    cbn [for_of]. unfold bind. rewrite Hrun. intros Hrest.
    destruct (processed_deletes _ _ _ _ _ _ _ _ Hstep) as (events1 & Htrace1 & Hdeletes1).
    destruct (IH _ _ Hrest) as (events2 & Htrace2 & Hdeletes2).
    exists (events1 ++ events2)%list. split; [by rewrite Htrace2, Htrace1, app_assoc|].
    intros id Hin. apply elem_of_app in Hin as [Hin|Hin].
    + destruct (Hdeletes1 id Hin) as [-> Hinvalid].
      exists e, st, [], (events1 ++ events2)%list.
      split; [left|]. split; [reflexivity|]. split; [by rewrite app_nil_r|].
      split; [by rewrite Htrace2, Htrace1, app_assoc | exact Hinvalid].
    + destruct (Hdeletes2 id Hin)
        as (e' & st0 & before & later & He' & Hid & Hbefore & Hlater & Hinvalid).
      exists e', st0, (events1 ++ before)%list, later.
      split; [by right|]. split; [exact Hid|].
      split; [by rewrite Hbefore, Htrace1, app_assoc | by split].
Qed.

(** The endpoint either answers without entering the loop, the store
    unchanged, or runs the loop over the listed credential rows. *)
Lemma GET_cases P cfg w request st :
  (exists response st',
     GET P cfg w request st = (Ok response, st')
     /\ db st' = db st
     /\ (new_events st st' = [] \/ new_events st st' = [EvSelectApiKeys])
     /\ (authorized cfg request -> db_error w (trace st) EvSelectApiKeys = None ->
         api_keys (db st) = ∅))
  \/ (authorized cfg request
      /\ db_error w (trace st) EvSelectApiKeys = None
      /\ exists report st',
          for_of P cfg w
            (map (fun row => mkEntry row.1 (revenuecat_api_key row.2)
                               (revenuecat_project_id row.2))
                 (map_to_list (api_keys (db st))))
            initial_results (record_event EvSelectApiKeys st) = (Ok report, st')
          /\ GET P cfg w request st = (Ok (completed_response report), st')).
Proof.
  destruct (authorized_or_not cfg request) as [Hauth|Hno].
  - pose proof (GET_run P cfg w request st Hauth) as Hrun.
    destruct (db_error w (trace st) EvSelectApiKeys) as [msg|] eqn:Hdb.
    + left. eexists _, _. split; [exact Hrun|]. split; [reflexivity|].
      split; [right; apply new_events_one | discriminate].
    + cbv zeta in Hrun.
      destruct (listed_entries (api_keys (db st))) as (_ & Hlength & _).
      cbv zeta in Hlength.
      destruct (List.length _ =? 0)%nat eqn:Hzero.
      * left. eexists _, _. split; [exact Hrun|]. split; [reflexivity|].
        split; [right; apply new_events_one|]. intros _ _.
        apply Nat.eqb_eq in Hzero. rewrite Hlength in Hzero.
        by apply map_size_empty_iff.
      * right. by repeat split.
  - left. eexists _, _. split; [by apply GET_unauthorized|]. split; [reflexivity|].
    split; [left; apply new_events_none | by intros Hauth].
Qed.

(** The run of the endpoint, seen from the entry of one credential row. *)
Lemma GET_at P cfg w request st e :
  authorized cfg request ->
  db_error w (trace st) EvSelectApiKeys = None ->
  api_keys (db st) !! startup_id e = Some (mkApiKey (encrypted_api_key e) (project_id e)) ->
  exists r1 st1 r2 st2 report st',
    process_entry P cfg w e r1 st1 = (Ok r2, st2)
    /\ processed P cfg w e r1 st1 r2 st2
    /\ GET P cfg w request st = (Ok (completed_response report), st')
    /\ records (db st1) (startup_id e) = records (db st) (startup_id e)
    /\ records (db st') (startup_id e) = records (db st2) (startup_id e)
    /\ (exists more, errors report = (errors r2 ++ more)%list)
    /\ (success r2 <= success report /\ failed r2 <= failed report)%nat
    /\ List.length (errors report) = failed report.
Proof.
  intros Hauth Hselect Hrow.
  destruct (listed_entries (api_keys (db st))) as (Hnodup & _ & Hin).
  cbv zeta in Hnodup, Hin. apply Hin in Hrow.
  destruct (GET_cases P cfg w request st)
    as [(response & st' & _ & _ & _ & Hempty) | (_ & _ & report & st' & Hloop & Hget)].
  { rewrite (Hempty Hauth Hselect), map_to_list_empty in Hrow. by apply elem_of_nil in Hrow. }
  destruct (for_of_at P cfg w _ initial_results (record_event EvSelectApiKeys st) e Hrow Hnodup)
    as (l1 & l2 & r1 & st1 & r2 & st2 & report' & st'' & _ & Hnot1 & Hnot2
        & Hrun1 & Hrun & Hrun2 & Hloop').
  rewrite Hloop in Hloop'. injection Hloop' as <- <-.
  destruct (process_entry_processed P cfg w e r1 st1) as (r2' & st2' & Hrun' & Hstep).
  rewrite Hrun in Hrun'. injection Hrun' as <- <-.
  destruct (for_of_frame _ _ _ _ _ _ _ _ Hrun1) as (Hframe1 & _ & _).
  destruct (for_of_frame _ _ _ _ _ _ _ _ Hrun2) as (Hframe2 & Hmore & Hle).
  destruct (for_of_counts P cfg w
              (map (fun row => mkEntry row.1 (revenuecat_api_key row.2)
                                 (revenuecat_project_id row.2))
                   (map_to_list (api_keys (db st))))
              initial_results (record_event EvSelectApiKeys st))
    as (report' & st'' & more & Hloop' & _ & Herrors & Hfailed & _).
  rewrite Hloop in Hloop'. injection Hloop' as <- <-.
  cbn in Herrors, Hfailed. subst more.
  exists r1, st1, r2, st2, report, st'.
  split; [exact Hrun|]. split; [exact Hstep|]. split; [exact Hget|].
  split; [exact (Hframe1 _ Hnot1)|]. split; [exact (Hframe2 _ Hnot2)|].
  split; [exact Hmore|]. split; [lia | done].
Qed.

(** C3.  In a run of the refresh job a startup is deleted only on the
    invalid-credential error: every delete the run issues names the
    startup of a listed credential whose fetch, at a point of this run,
    failed with that error.
    An entry whose fetch never fails with it is never deleted, and its
    startup and credential rows are after the run what they were before;
    such an entry either succeeded (its metrics row then holds the fetched
    values) or has an error entry with its id in the report, whose [failed]
    counter counts the error entries, and then all its records are what
    they were.  In particular an entry whose credential does not decrypt,
    and an entry whose fetch fails with any other error (a network or HTTP
    error, a body that is not JSON or has no metric list), has an error
    entry with the message of that error, and its records are left as they
    were. *)
Theorem removal_only_on_invalid_key P cfg w request st :
  let out := GET P cfg w request st in
  (forall id,
     EvDeleteStartup id ∈ new_events st out.2 ->
     exists row st0 before later,
       api_keys (db st) !! id = Some row
       /\ trace st0 = (trace st ++ before)%list
       /\ trace out.2 = (trace st0 ++ later)%list
       /\ invalid_key_failure P cfg w
            (mkEntry id (revenuecat_api_key row) (revenuecat_project_id row)) st0)
  /\ (forall e,
        api_keys (db st) !! startup_id e
        = Some (mkApiKey (encrypted_api_key e) (project_id e)) ->
        (forall st0, ~ invalid_key_failure P cfg w e st0) ->
        (EvDeleteStartup (startup_id e) ∉ new_events st out.2)
        /\ startups (db out.2) !! startup_id e = startups (db st) !! startup_id e
        /\ api_keys (db out.2) !! startup_id e = api_keys (db st) !! startup_id e
        /\ (authorized cfg request -> db_error w (trace st) EvSelectApiKeys = None ->
            exists report,
              out.1 = Ok (completed_response report)
              /\ List.length (errors report) = failed report
              /\ (((exists msg, mkErrorEntry (startup_id e) msg ∈ errors report)
                   /\ (0 < failed report)%nat
                   /\ records (db out.2) (startup_id e) = records (db st) (startup_id e))
                  \/ (exists apiKey projectId m st0 time,
                        credentials P cfg e apiKey projectId
                        /\ (fetchRevenueCatMetrics P w apiKey projectId st0).1 = Ok m
                        /\ revenue_metrics (db out.2) !! startup_id e
                           = Some (mkRevenueMetrics (parsed_revenue m) (parsed_mrr m) time)
                        /\ (0 < success report)%nat))))
  /\ (forall e err,
        api_keys (db st) !! startup_id e
        = Some (mkApiKey (encrypted_api_key e) (project_id e)) ->
        truthy_opt truthy_string (project_id e) = true ->
        decryptApiKey P cfg (encrypted_api_key e) = Throw err ->
        authorized cfg request -> db_error w (trace st) EvSelectApiKeys = None ->
        exists report,
          out.1 = Ok (completed_response report)
          /\ mkErrorEntry (startup_id e) (message err) ∈ errors report
          /\ (0 < failed report)%nat
          /\ records (db out.2) (startup_id e) = records (db st) (startup_id e))
  /\ (forall e apiKey projectId err,
        api_keys (db st) !! startup_id e
        = Some (mkApiKey (encrypted_api_key e) (project_id e)) ->
        credentials P cfg e apiKey projectId ->
        fetch_returns P w apiKey projectId (Throw err) ->
        name err <> "InvalidApiKeyError" ->
        authorized cfg request -> db_error w (trace st) EvSelectApiKeys = None ->
        exists report,
          out.1 = Ok (completed_response report)
          /\ mkErrorEntry (startup_id e) (message err) ∈ errors report
          /\ (0 < failed report)%nat
          /\ records (db out.2) (startup_id e) = records (db st) (startup_id e)).
Proof.
  cbv zeta.
  assert (Hdeletes : forall id,
             EvDeleteStartup id ∈ new_events st (GET P cfg w request st).2 ->
             exists row st0 before later,
               api_keys (db st) !! id = Some row
               /\ trace st0 = (trace st ++ before)%list
               /\ trace (GET P cfg w request st).2 = (trace st0 ++ later)%list
               /\ invalid_key_failure P cfg w
                    (mkEntry id (revenuecat_api_key row) (revenuecat_project_id row)) st0).
  { intros id.
    destruct (GET_cases P cfg w request st)
      as [(response & st' & -> & _ & [Hevents | Hevents] & _)
         | (_ & _ & report & st' & Hloop & ->)];
      cbn [snd].
    - rewrite Hevents. intros Hin. by apply elem_of_nil in Hin.
    - rewrite Hevents. intros Hin. apply list_elem_of_singleton in Hin. discriminate.
    - destruct (for_of_deletes _ _ _ _ _ _ _ _ Hloop) as (events & Htrace & Hevents).
      rewrite (new_events_app st st' (EvSelectApiKeys :: events))
        by (rewrite Htrace; cbn; by rewrite <- app_assoc).
      intros Hin. apply elem_of_cons in Hin as [Hin|Hin]; [discriminate|].
      destruct (Hevents id Hin)
        as (e & st0 & before & later & He & <- & Hbefore & Hlater & Hinvalid).
      apply (listed_entries (api_keys (db st))) in He.
      eexists _, st0, (EvSelectApiKeys :: before), later. split; [exact He|].
      split; [rewrite Hbefore; cbn; by rewrite <- app_assoc|].
      split; [exact Hlater|]. by destruct e. }
  assert (Hfailed : forall e msg,
             api_keys (db st) !! startup_id e
             = Some (mkApiKey (encrypted_api_key e) (project_id e)) ->
             authorized cfg request -> db_error w (trace st) EvSelectApiKeys = None ->
             (forall results st1,
                exists st2,
                  process_entry P cfg w e results st1
                  = (Ok (count_failed (startup_id e) msg results), st2)
                  /\ db st2 = db st1) ->
             exists report,
               (GET P cfg w request st).1 = Ok (completed_response report)
               /\ mkErrorEntry (startup_id e) msg ∈ errors report
               /\ (0 < failed report)%nat
               /\ records (db (GET P cfg w request st).2) (startup_id e)
                  = records (db st) (startup_id e)).
  { intros e msg Hrow Hauth Hselect Hiteration.
    destruct (GET_at P cfg w request st e Hauth Hselect Hrow)
      as (r1 & st1 & r2 & st2 & report & st' & Hrun & _ & -> & Hbefore & Hafter
          & [more Hmore] & [_ Hle] & _).
    destruct (Hiteration r1 st1) as (st2' & Hrun' & Hdb).
    rewrite Hrun in Hrun'. injection Hrun' as -> ->.
    cbn [fst snd errors failed count_failed] in *.
    exists report. split; [reflexivity|].
    split; [rewrite Hmore, !elem_of_app, list_elem_of_singleton; by left; right|].
    split; [lia|]. by rewrite Hafter, Hdb. }
  split; [exact Hdeletes|]. split; [|split].
  - intros e Hrow Hother.
    split.
    { intros Hin.
      destruct (Hdeletes _ Hin) as (row & st0 & before & later & Hrow' & _ & _ & Hinvalid).
      rewrite Hrow in Hrow'. injection Hrow' as <-. cbn in Hinvalid.
      apply (Hother st0). by destruct e. }
    destruct (GET_cases P cfg w request st)
      as [(response & st' & Hget & Hdb & _ & Hempty)
         | (Hauth & Hselect & _)].
    { rewrite Hget. cbn [fst snd]. rewrite Hdb. split; [reflexivity|]. split; [reflexivity|].
      intros Hauth Hselect. rewrite (Hempty Hauth Hselect) in Hrow. by rewrite lookup_empty in Hrow. }
    destruct (GET_at P cfg w request st e Hauth Hselect Hrow)
      as (r1 & st1 & r2 & st2 & report & st' & Hrun & Hstep & -> & Hbefore & Hafter
          & [more Hmore] & [Hsuccess Hle] & Hlength).
    cbn [fst snd].
    assert (Hkept : startups (db st2) !! startup_id e = startups (db st1) !! startup_id e
                    /\ api_keys (db st2) !! startup_id e = api_keys (db st1) !! startup_id e
                    /\ ((exists msg, r2 = count_failed (startup_id e) msg r1)
                        /\ db st2 = db st1
                        \/ exists apiKey projectId m time,
                            credentials P cfg e apiKey projectId
                            /\ (fetchRevenueCatMetrics P w apiKey projectId st1).1 = Ok m
                            /\ revenue_metrics (db st2) !! startup_id e
                               = Some (mkRevenueMetrics (parsed_revenue m) (parsed_mrr m) time)
                            /\ r2 = count_success r1)).
    { destruct Hstep;
        try (exfalso; apply (Hother st1); by eexists _, _);
        cbn [db written after_fetch set_db record_event startups api_keys revenue_metrics];
        (split; [reflexivity|]); (split; [reflexivity|]);
        try (left; split; [by eexists | reflexivity]).
      right. eexists _, _, _, _. split; [eassumption|]. split; [eassumption|].
      split; [apply lookup_insert_eq | reflexivity]. }
    destruct Hkept as (Hstartups & Hkeys & Houtcome).
    unfold records in Hbefore, Hafter.
    injection Hbefore as Hb1 Hb2 Hb3. injection Hafter as Ha1 Ha2 Ha3.
    split; [by rewrite Ha1, Hstartups|]. split; [by rewrite Ha2, Hkeys|].
    intros _ _. exists report. split; [reflexivity|]. split; [exact Hlength|].
    destruct Houtcome as [[[msg ->] Hdb] | (apiKey & projectId & m & time & Hcred & Hfetch
                                            & Hmetrics & ->)].
    + left. cbn [errors failed count_failed] in Hmore, Hle.
      split; [exists msg; rewrite Hmore, !elem_of_app, list_elem_of_singleton; by left; right|].
      split; [lia|]. unfold records. rewrite Ha1, Ha2, Ha3, Hdb. by rewrite Hb1, Hb2, Hb3.
    + right. exists apiKey, projectId, m, st1, time.
      cbn [success count_success] in Hsuccess.
      split; [exact Hcred|]. split; [exact Hfetch|]. split; [by rewrite Ha3 | lia].
  - intros e err Hrow Hpid Hdecrypt Hauth Hselect.
    apply (Hfailed e (message err) Hrow Hauth Hselect).
    intros results st1. exists st1. split; [by apply decryption_failure_run | reflexivity].
  - intros e apiKey projectId err Hrow Hcred Hfetch Hname Hauth Hselect.
    apply (Hfailed e (message err) Hrow Hauth Hselect).
    intros results st1. eexists. split; [by apply fetch_failed_run | reflexivity].
Qed.

Lemma flaky_never_invalid st0 :
  ~ invalid_key_failure sample_platform sample_cfg sample_world entry_flaky st0.
Proof.
  intros (apiKey & projectId & Hcred & Hfetch).
  destruct sample_credentials as (_ & _ & Hflaky).
  destruct (credentials_inj _ _ _ _ _ _ _ Hcred Hflaky) as [-> ->].
  destruct (sample_fetches sample_world eq_refl) as (_ & _ & Hreturns).
  rewrite (Hreturns st0) in Hfetch. discriminate Hfetch.
Qed.

Lemma flaky_row_listed :
  api_keys (db (state_of sample_db)) !! startup_id entry_flaky
  = Some (mkApiKey (encrypted_api_key entry_flaky) (project_id entry_flaky)).
Proof. reflexivity. Qed.

Lemma removal_only_on_invalid_key_witness :
  let out := GET sample_platform sample_cfg sample_world sample_request
                 (state_of sample_db) in
  (EvDeleteStartup 3 ∉ new_events (state_of sample_db) out.2)
  /\ startups (db out.2) !! 3 = startups sample_db !! 3
  /\ api_keys (db out.2) !! 3 = api_keys sample_db !! 3
  /\ exists report,
       out.1 = Ok (completed_response report)
       /\ mkErrorEntry 3 (message flaky_error) ∈ errors report
       /\ (0 < failed report)%nat
       /\ records (db out.2) 3 = records sample_db 3.
Proof.
  destruct (removal_only_on_invalid_key sample_platform sample_cfg sample_world
              sample_request (state_of sample_db)) as (_ & Hkept & _ & Hfetch).
  destruct (Hkept entry_flaky flaky_row_listed flaky_never_invalid)
    as (Hdelete & Hstartups & Hkeys & _).
  split; [exact Hdelete|]. split; [exact Hstartups|]. split; [exact Hkeys|].
  apply (Hfetch entry_flaky "sk_flaky_key" "proj_flaky" flaky_error flaky_row_listed).
  - apply sample_credentials.
  - by apply sample_fetches.
  - discriminate.
  - by apply sample_request_authorized.
  - reflexivity.
Defined.

(** C7.  An entry whose project id is absent (null, or empty) is recorded
    as failed and skipped: its iteration raises [failed] by one, appends
    the error entry with the entry's id and the message "Project ID is
    missing", leaves the other counters alone and returns the state it
    was given, so it makes no adapter call (the trace is unchanged) and
    touches no stored record.  And after a run of the refresh job over a
    store that lists this entry, the report has that error entry and the
    entry's records are what they were before the run. *)
Theorem missing_project_id_skipped P cfg w e :
  truthy_opt truthy_string (project_id e) = false ->
  (forall results st,
     process_entry P cfg w e results st
     = (Ok (mkResults (success results) (S (failed results)) (deleted results)
              (errors results ++ [mkErrorEntry (startup_id e) "Project ID is missing"])),
        st))
  /\ (forall request st,
        authorized cfg request ->
        db_error w (trace st) EvSelectApiKeys = None ->
        api_keys (db st) !! startup_id e
        = Some (mkApiKey (encrypted_api_key e) (project_id e)) ->
        exists report st',
          GET P cfg w request st = (Ok (completed_response report), st')
          /\ mkErrorEntry (startup_id e) "Project ID is missing" ∈ errors report
          /\ (0 < failed report)%nat
          /\ List.length (errors report) = failed report
          /\ records (db st') (startup_id e) = records (db st) (startup_id e)
          /\ (EvDeleteStartup (startup_id e) ∉ new_events st st')).
Proof.
  intros Hmissing.
  assert (Hskip : forall results st,
             process_entry P cfg w e results st
             = (Ok (mkResults (success results) (S (failed results)) (deleted results)
                      (errors results
                       ++ [mkErrorEntry (startup_id e) "Project ID is missing"])), st)).
  { intros results st. by rewrite (missing_project_id_run P cfg w e results st Hmissing). }
  split; [exact Hskip|].
  intros request st Hauth Hselect Hrow.
  destruct (GET_at P cfg w request st e Hauth Hselect Hrow)
    as (r1 & st1 & r2 & st2 & report & st' & Hrun & _ & Hget & Hbefore & Hafter
        & [more Hmore] & [_ Hle] & Hlength).
  rewrite Hskip in Hrun. injection Hrun as <- <-.
  cbn [errors failed] in Hmore, Hle.
  exists report, st'. split; [exact Hget|].
  split; [rewrite Hmore, !elem_of_app, list_elem_of_singleton; by left; right|].
  split; [lia|]. split; [exact Hlength|]. split; [by rewrite Hafter|].
  intros Hin.
  destruct (GET_cases P cfg w request st)
    as [(response & st'' & Hget' & _ & _ & Hempty) | (_ & _ & report' & st'' & Hloop & Hget')].
  { rewrite (Hempty Hauth Hselect) in Hrow. by rewrite lookup_empty in Hrow. }
  rewrite Hget in Hget'. apply (f_equal snd) in Hget'. cbn [snd] in Hget'. subst st''.
  destruct (for_of_deletes _ _ _ _ _ _ _ _ Hloop) as (events & Htrace & Hevents).
  rewrite (new_events_app st st' (EvSelectApiKeys :: events)) in Hin
    by (rewrite Htrace; cbn; by rewrite <- app_assoc).
  apply elem_of_cons in Hin as [Hin|Hin]; [discriminate|].
  destruct (Hevents _ Hin)
    as (e' & st0 & before & later & He' & Hid & _ & _ & apiKey & projectId & Hcred & _).
  apply (listed_entries (api_keys (db st))) in He'.
  rewrite Hid, Hrow in He'. injection He' as _ Hpid.
  destruct Hcred as (Hproject & Htruthy & _).
  assert (Hsame : project_id e = Some projectId) by congruence.
  rewrite Hsame in Hmissing. cbn in Hmissing. congruence.
Qed.

Lemma unlinked_db_lists_entry :
  api_keys (db (state_of (mkDb ∅ {[ 4 := api_key_row entry_unlinked ]} ∅)))
    !! startup_id entry_unlinked
  = Some (mkApiKey (encrypted_api_key entry_unlinked) (project_id entry_unlinked)).
Proof. reflexivity. Qed.

Lemma missing_project_id_skipped_witness :
  truthy_opt truthy_string (project_id entry_unlinked) = false
  /\ process_entry sample_platform sample_cfg sample_world entry_unlinked initial_results
                   (state_of sample_db)
     = (Ok (mkResults 0 1 0 [mkErrorEntry 4 "Project ID is missing"]), state_of sample_db)
  /\ exists report st',
       GET sample_platform sample_cfg sample_world sample_request
           (state_of (mkDb ∅ {[ 4 := api_key_row entry_unlinked ]} ∅))
       = (Ok (completed_response report), st')
       /\ mkErrorEntry 4 "Project ID is missing" ∈ errors report
       /\ (0 < failed report)%nat
       /\ List.length (errors report) = failed report
       /\ records (db st') 4 = records (mkDb ∅ {[ 4 := api_key_row entry_unlinked ]} ∅) 4
       /\ (EvDeleteStartup 4 ∉ new_events
              (state_of (mkDb ∅ {[ 4 := api_key_row entry_unlinked ]} ∅)) st').
Proof.
  split; [reflexivity|].
  destruct (missing_project_id_skipped sample_platform sample_cfg sample_world entry_unlinked
              eq_refl) as [Hiteration Hrun].
  split; [exact (Hiteration initial_results (state_of sample_db))|].
  apply (Hrun sample_request (state_of (mkDb ∅ {[ 4 := api_key_row entry_unlinked ]} ∅))).
  - by apply sample_request_authorized.
  - reflexivity.
  - exact unlinked_db_lists_entry.
Defined.

(** * Further properties of the code *)

(** ** Credential cipher: the stored token *)

Lemma toString_hex_length buf :
  String.length (toString_hex buf) = (2 * List.length buf)%nat.
Proof. induction buf as [|b rest IH]; cbn [toString_hex String.length List.length]; lia. Qed.

(** X1.  With the master secret [K] present, [encryptApiKey] draws a salt of
    64 bytes and then a nonce of 16 bytes from the random generator (its
    only interactions with the outside) and returns a token of four
    colon-separated hex fields that carry exactly what was drawn: decoded,
    the first field is the drawn salt and the second the drawn nonce, and
    the third and fourth are the tag and the ciphertext that the cipher
    gives for the plaintext under the key derived from [K] and that salt,
    with that nonce.  The first field has 128 and the second 32 hex
    digits. *)
Theorem encrypted_token_format P cfg w apiKey K st :
  random_sized w ->
  getEncryptionKey cfg = Ok K ->
  let salt := randomBytes w (trace st) SALT_LENGTH in
  let iv := randomBytes w (trace (record_event (EvRandomBytes SALT_LENGTH) st)) IV_LENGTH in
  let sealed := gcm_encrypt P (pbkdf2Sync P K salt 100000 32 "sha512") iv
                  (list_byte_of_string apiKey) in
  exists token st' field0 field1 field2 field3,
    encryptApiKey P cfg w apiKey st = (Ok token, st')
    /\ split ":" token = [field0; field1; field2; field3]
    /\ Buffer_from_hex field0 = salt
    /\ Buffer_from_hex field1 = iv
    /\ Buffer_from_hex field2 = sealed.2
    /\ Buffer_from_hex field3 = sealed.1
    /\ String.length field0 = 128%nat
    /\ String.length field1 = 32%nat
    /\ new_events st st' = [EvRandomBytes 64; EvRandomBytes 16]
    /\ db st' = db st.
Proof.
  intros Hrandom HK. cbv zeta.
  set (salt := randomBytes w (trace st) SALT_LENGTH).
  set (iv := randomBytes w (trace (record_event (EvRandomBytes SALT_LENGTH) st)) IV_LENGTH).
  destruct (gcm_encrypt P (pbkdf2Sync P K salt 100000 32 "sha512") iv
              (list_byte_of_string apiKey)) as [ciphertext tag] eqn:Hsealed.
  exists (toString_hex salt +:+ ":" +:+ toString_hex iv +:+ ":"
          +:+ toString_hex tag +:+ ":" +:+ toString_hex ciphertext),
    (record_event (EvRandomBytes IV_LENGTH) (record_event (EvRandomBytes SALT_LENGTH) st)),
    (toString_hex salt), (toString_hex iv), (toString_hex tag), (toString_hex ciphertext).
  split; [|split; [|split; [|split; [|split; [|split; [|split; [|split; [|split]]]]]]]].
  - unfold encryptApiKey, try_catch, bind, crypto_randomBytes, lift, ret, deriveKey,
      utf8_encode.
    rewrite HK. cbn [fst snd]. fold salt. fold iv. by rewrite Hsealed.
  - apply split_token; apply toString_hex_no_colon.
  - apply Buffer_from_toString_hex.
  - apply Buffer_from_toString_hex.
  - apply Buffer_from_toString_hex.
  - apply Buffer_from_toString_hex.
  - subst salt. by rewrite toString_hex_length, Hrandom.
  - subst iv. by rewrite toString_hex_length, Hrandom.
  - apply (proj1 (new_events_two _ _ _ empty_db)).
  - reflexivity.
Qed.

Lemma encrypted_token_format_witness :
  random_sized sample_world
  /\ getEncryptionKey sample_cfg = Ok "master secret"
  /\ exists token st' field0 field1 field2 field3,
       encryptApiKey sample_platform sample_cfg sample_world "sk_alpha_key"
                     (state_of empty_db) = (Ok token, st')
       /\ split ":" token = [field0; field1; field2; field3]
       /\ Buffer_from_hex field0 = repeat Byte.x2a 64
       /\ Buffer_from_hex field1 = repeat Byte.x2a 16
       /\ Buffer_from_hex field2 = repeat Byte.x2a 16
       /\ Buffer_from_hex field3 = rev (list_byte_of_string "sk_alpha_key")
       /\ String.length field0 = 128%nat
       /\ String.length field1 = 32%nat
       /\ new_events (state_of empty_db) st' = [EvRandomBytes 64; EvRandomBytes 16]
       /\ db st' = empty_db.
Proof.
  split; [exact sample_world_random_sized|]. split; [reflexivity|].
  apply (encrypted_token_format sample_platform sample_cfg sample_world "sk_alpha_key"
           "master secret" (state_of empty_db)).
  - exact sample_world_random_sized.
  - reflexivity.
Defined.

(** ** Metrics source adapter *)

(** X2.  All that [fetchRevenueCatMetrics] does to the outside is one GET
    of the project's overview URL with the key as bearer token; with an
    empty project id it throws "Project ID is required" and makes no
    request at all.  It never changes the store. *)
Theorem fetch_makes_one_request P w apiKey projectId st :
  let out := fetchRevenueCatMetrics P w apiKey projectId st in
  db out.2 = db st
  /\ (truthy_string projectId = false ->
      out = (Throw (Error "Project ID is required"), st))
  /\ (truthy_string projectId = true ->
      new_events st out.2 = [EvHttpGet (overview_url projectId) ("Bearer " +:+ apiKey)]).
Proof.
  cbv zeta. destruct (truthy_string projectId) eqn:Htruthy.
  - rewrite (fetch_run P w apiKey projectId st Htruthy). cbn [snd].
    repeat split; [discriminate | intros _; apply new_events_one].
  - unfold fetchRevenueCatMetrics. rewrite Htruthy. cbn.
    repeat split; discriminate.
Qed.

Lemma fetch_makes_one_request_witness :
  truthy_string "proj_alpha" = true
  /\ new_events (state_of sample_db)
       (fetchRevenueCatMetrics sample_platform sample_world "sk_alpha_key" "proj_alpha"
                               (state_of sample_db)).2
     = [EvHttpGet (overview_url "proj_alpha") ("Bearer " +:+ "sk_alpha_key")].
Proof.
  split; [reflexivity|].
  apply (fetch_makes_one_request sample_platform sample_world "sk_alpha_key" "proj_alpha"
           (state_of sample_db)).
  reflexivity.
Defined.

Lemma fetch_answer P w apiKey projectId st :
  truthy_string projectId = true ->
  (fetchRevenueCatMetrics P w apiKey projectId st).1
  = match http_get w (trace st) (overview_url projectId) ("Bearer " +:+ apiKey) with
    | NetworkFailure msg => Throw (TypeError msg)
    | Responded response =>
        if ok response then parse_metrics P response else error_of_response P response
    end.
Proof.
  intros Htruthy. unfold fetchRevenueCatMetrics. rewrite Htruthy. cbn [negb].
  unfold bind, fetch. fold (overview_url projectId).
  destruct (http_get w (trace st) _ _) as [msg|response]; [reflexivity|].
  by destruct (ok response).
Qed.

Lemma error_of_response_throws P response :
  exists e, error_of_response P response = Throw e.
Proof.
  unfold error_of_response.
  destruct (get_property _ "message") as [body_message|e1]; [|by eexists].
  destruct (get_property _ "error") as [body_error|e2]; [|by eexists].
  cbn [result_bind].
  match goal with
  | |- exists e, result_bind ?c _ = _ => destruct c as [[]|e3]
  end; by eexists.
Qed.

Lemma error_of_response_status P response e :
  error_of_response P response = Throw e -> name e = "InvalidApiKeyError" ->
  status response = 401.
Proof.
  unfold error_of_response.
  destruct (get_property _ "message") as [body_message|e1] eqn:H1; cbn [result_bind];
    [|intros [= <-] Hname; apply get_property_error in H1; congruence].
  destruct (get_property _ "error") as [body_error|e2] eqn:H2; cbn [result_bind];
    [|intros [= <-] Hname; apply get_property_error in H2; congruence].
  destruct (status response =? 401) eqn:Hstatus; [intros _ _; lia|].
  cbn [result_bind]. intros [= <-]. discriminate.
Qed.

(** X3.  The adapter reports an invalid key only for an answer with status
    401: when the fetch throws an error named InvalidApiKeyError, the
    request was answered, the status of the answer is 401 and the error is
    [InvalidApiKeyError] with the message "Invalid API key".  A network
    failure, a 2xx answer and every other status never give it. *)
Theorem invalid_key_only_from_401 P w apiKey projectId st e :
  (fetchRevenueCatMetrics P w apiKey projectId st).1 = Throw e ->
  name e = "InvalidApiKeyError" ->
  exists response,
    http_get w (trace st) (overview_url projectId) ("Bearer " +:+ apiKey) = Responded response
    /\ status response = 401
    /\ e = InvalidApiKeyError.
Proof.
  intros Hfetch Hname.
  pose proof (fetch_error_invalid P w apiKey projectId st e Hfetch Hname) as ->.
  destruct (truthy_string projectId) eqn:Htruthy.
  - rewrite (fetch_answer P w apiKey projectId st Htruthy) in Hfetch.
    destruct (http_get w (trace st) _ _) as [msg|response]; [discriminate|].
    exists response. split; [reflexivity|]. split; [|reflexivity].
    destruct (ok response) eqn:Hok.
    + by apply parse_metrics_error in Hfetch.
    + by apply (error_of_response_status P response InvalidApiKeyError).
  - unfold fetchRevenueCatMetrics in Hfetch. rewrite Htruthy in Hfetch. discriminate.
Qed.

Lemma invalid_key_only_from_401_witness :
  (fetchRevenueCatMetrics sample_platform sample_world "sk_revoked_key" "proj_revoked"
                          (state_of sample_db)).1 = Throw InvalidApiKeyError
  /\ exists response,
       http_get sample_world (trace (state_of sample_db)) (overview_url "proj_revoked")
                ("Bearer " +:+ "sk_revoked_key") = Responded response
       /\ status response = 401
       /\ InvalidApiKeyError = InvalidApiKeyError.
Proof.
  split; [vm_compute; reflexivity|].
  apply (invalid_key_only_from_401 sample_platform sample_world "sk_revoked_key"
           "proj_revoked" (state_of sample_db) InvalidApiKeyError).
  - vm_compute. reflexivity.
  - reflexivity.
Defined.

Lemma includes_truthy haystack needle :
  truthy_string needle = true -> includes haystack needle = true ->
  truthy_string haystack = true.
Proof.
  destruct haystack; [|reflexivity].
  destruct needle; [discriminate|]. cbn. discriminate.
Qed.

(** X4.  An answer with status 401 whose body is a JSON object with a
    string [message] that contains "Invalid API key", or whose body is not
    JSON and contains that phrase, makes the fetch throw
    [InvalidApiKeyError]. *)
Theorem rejected_key_is_recognised P w apiKey projectId st response :
  truthy_string projectId = true ->
  http_get w (trace st) (overview_url projectId) ("Bearer " +:+ apiKey) = Responded response ->
  status response = 401 ->
  (exists fields m,
     JSON_parse P (text response) = inl (JObj fields)
     /\ lookup_field "message" fields = Some (JStr m)
     /\ includes m "Invalid API key" = true)
  \/ (exists syntax_error,
        JSON_parse P (text response) = inr syntax_error
        /\ includes (text response) "Invalid API key" = true) ->
  (fetchRevenueCatMetrics P w apiKey projectId st).1 = Throw InvalidApiKeyError.
Proof.
  intros Htruthy Hhttp Hstatus Hbody.
  rewrite (fetch_answer P w apiKey projectId st Htruthy), Hhttp.
  assert (Hok : ok response = false) by (unfold ok; rewrite Hstatus; reflexivity).
  rewrite Hok. unfold error_of_response. rewrite Hstatus.
  destruct Hbody as [(fields & m & -> & Hmessage & Hincludes)
                    | (syntax_error & -> & Hincludes)].
  - cbn [get_property result_bind]. rewrite Hmessage.
    unfold js_or. cbn [truthy_opt truthy].
    rewrite (includes_truthy m "Invalid API key" eq_refl Hincludes).
    cbn [truthy]. rewrite (includes_truthy m "Invalid API key" eq_refl Hincludes).
    cbn. by rewrite Hincludes, orb_true_r.
  - cbn [get_property result_bind lookup_field String.eqb Ascii.eqb Bool.eqb].
    unfold js_or. cbn [truthy_opt truthy].
    rewrite (includes_truthy _ "Invalid API key" eq_refl Hincludes).
    cbn [truthy]. rewrite (includes_truthy _ "Invalid API key" eq_refl Hincludes).
    cbn. by rewrite Hincludes, orb_true_r.
Qed.

Lemma rejected_key_is_recognised_witness :
  (fetchRevenueCatMetrics sample_platform sample_world "sk_revoked_key" "proj_revoked"
                          (state_of sample_db)).1 = Throw InvalidApiKeyError.
Proof.
  apply (rejected_key_is_recognised sample_platform sample_world "sk_revoked_key"
           "proj_revoked" (state_of sample_db)
           (mkHttpResponse 401 "Unauthorized" "invalid key body") eq_refl eq_refl eq_refl).
  left. eexists _, _. split; [reflexivity|]. split; reflexivity.
Defined.

(** X5.  The adapter returns metrics only for a 2xx answer with a JSON
    body: for a network failure, and for every answer with another status,
    the fetch throws. *)
Theorem metrics_only_from_2xx P w apiKey projectId st m :
  (fetchRevenueCatMetrics P w apiKey projectId st).1 = Ok m ->
  exists response data,
    http_get w (trace st) (overview_url projectId) ("Bearer " +:+ apiKey) = Responded response
    /\ 200 <= status response <= 299
    /\ JSON_parse P (text response) = inl data.
Proof.
  intros Hfetch.
  destruct (truthy_string projectId) eqn:Htruthy.
  - rewrite (fetch_answer P w apiKey projectId st Htruthy) in Hfetch.
    destruct (http_get w (trace st) _ _) as [msg|response]; [discriminate|].
    destruct (ok response) eqn:Hok.
    + unfold parse_metrics in Hfetch.
      destruct (JSON_parse P (text response)) as [data|msg] eqn:Hparse; [|discriminate].
      exists response, data. split; [reflexivity|]. split; [|exact Hparse].
      unfold ok in Hok. apply andb_true_iff in Hok as [Hlow Hhigh]. lia.
    + destruct (error_of_response_throws P response) as [e He]. congruence.
  - unfold fetchRevenueCatMetrics in Hfetch. rewrite Htruthy in Hfetch. discriminate.
Qed.

Lemma metrics_only_from_2xx_witness :
  (fetchRevenueCatMetrics sample_platform sample_world "sk_alpha_key" "proj_alpha"
                          (state_of sample_db)).1 = Ok alpha_metrics
  /\ exists response data,
       http_get sample_world (trace (state_of sample_db)) (overview_url "proj_alpha")
                ("Bearer " +:+ "sk_alpha_key") = Responded response
       /\ 200 <= status response <= 299
       /\ JSON_parse sample_platform (text response) = inl data.
Proof.
  split; [vm_compute; reflexivity|].
  apply (metrics_only_from_2xx sample_platform sample_world "sk_alpha_key" "proj_alpha"
           (state_of sample_db) alpha_metrics).
  vm_compute. reflexivity.
Defined.

Lemma find_metric_find id items :
  Forall (fun m => m <> JNull) items ->
  find_metric id items = Ok (List.find (has_id id) items).
Proof.
  induction items as [|m rest IH]; [reflexivity|].
  intros Hnonnull. apply Forall_cons in Hnonnull as [Hm Hrest].
  cbn [find_metric List.find]. unfold has_id at 1.
  destruct (get_property m "id") as [m_id|e] eqn:Hid.
  - cbn [result_bind]. destruct (is_string m_id id); [reflexivity | by apply IH].
  - destruct m; try discriminate. congruence.
Qed.

(** X6.  For a 2xx answer whose body parses to an object with a metric list
    without null elements, the parsed [mrr] and [revenue] are the values of
    the first element with id "mrr" and of the first with id "revenue"; and
    a value that is missing or falsy (0, null, false, the empty string)
    reads as 0, so that a parsed value is either truthy or the number 0. *)
Theorem parsed_values_are_first_matches P response data items :
  JSON_parse P (text response) = inl data ->
  get_property data "metrics" = Ok (Some (JArr items)) ->
  Forall (fun m => m <> JNull) items ->
  parse_metrics P response
  = Ok (mkParsedMetrics (value_or_zero (List.find (has_id "mrr") items))
                        (value_or_zero (List.find (has_id "revenue") items)))
  /\ forall metric,
       value_or_zero metric = JNum 0 \/ truthy (value_or_zero metric) = true.
Proof.
  intros Hparse Hmetrics Hnonnull. split.
  - unfold parse_metrics. rewrite Hparse. cbn [result_bind].
    unfold data_metrics_find. rewrite Hmetrics. cbn [result_bind].
    by rewrite !find_metric_find.
  - intros [m|]; [|by left]. unfold value_or_zero.
    destruct (get_property m "value") as [[v|]|]; try by left.
    destruct (truthy v) eqn:Hv; [by right | by left].
Qed.

Lemma parsed_values_are_first_matches_witness :
  parse_metrics sample_platform (mkHttpResponse 200 "OK" "overview of proj_alpha")
  = Ok (mkParsedMetrics (JNum 1200) (JNum 54000)).
Proof.
  refine (proj1 (parsed_values_are_first_matches sample_platform
                   (mkHttpResponse 200 "OK" "overview of proj_alpha") sample_overview
                   [JObj [("id", JStr "active_trials"); ("value", JNum 12)];
                    JObj [("id", JStr "mrr"); ("value", JNum 1200)];
                    JObj [("id", JStr "revenue"); ("value", JNum 54000)]]
                   eq_refl eq_refl _)).
  repeat constructor; discriminate.
Defined.

(** ** Persistence *)

Lemma counted_project_registered projectId d :
  (0 < project_id_count projectId d)%nat -> project_id_registered projectId d.
Proof.
  unfold project_id_count. intros Hcount.
  destruct (map_size_ne_0_lookup_1
              (filter (fun r : Z * ApiKey => revenuecat_project_id r.2 = Some projectId)
                      (api_keys d))) as (id & row & Hrow); [lia|].
  apply map_lookup_filter_Some in Hrow as [Hrow Hpid]. by exists id, row.
Qed.

(** X7.  [isProjectIdTaken] answers false, without asking the datastore,
    for a project id that is empty or only white space.  Otherwise it asks
    once, for the trimmed id: when the datastore answers, the result is
    true exactly when some credential row carries that id, and when the
    datastore errors the call throws.  The store is never changed. *)
Theorem isProjectIdTaken_decides w projectId st :
  let normalized := trim projectId in
  let out := isProjectIdTaken w projectId st in
  db out.2 = db st
  /\ (truthy_string normalized = false -> out = (Ok false, st))
  /\ (truthy_string normalized = true ->
      match db_error w (trace st) (EvCountProjectId normalized) with
      | None =>
          exists taken,
            out = (Ok taken, record_event (EvCountProjectId normalized) st)
            /\ (taken = true <-> project_id_registered normalized (db st))
      | Some msg =>
          out = (Throw (Error ("Failed to validate project ID uniqueness: " +:+ msg)),
                 record_event (EvCountProjectId normalized) st)
      end).
Proof.
  cbv zeta. unfold isProjectIdTaken.
  destruct (truthy_string projectId) eqn:Hraw; cbn [negb].
  - destruct (truthy_string (trim projectId)) eqn:Htrimmed; cbn [negb].
    + unfold bind, db_call.
      destruct (db_error w (trace st) _) as [msg|].
      * split; [reflexivity|]. split; [discriminate|]. intros _. reflexivity.
      * split; [reflexivity|]. split; [discriminate|]. intros _.
        eexists. split; [reflexivity|].
        rewrite bool_decide_eq_true. split.
        -- apply counted_project_registered.
        -- apply registered_project_counted.
    + split; [reflexivity|]. split; [reflexivity | discriminate].
  - destruct projectId; [|discriminate].
    split; [reflexivity|]. split; [reflexivity | discriminate].
Qed.

Lemma isProjectIdTaken_decides_witness :
  truthy_string (trim " proj_alpha ") = true
  /\ exists taken,
       isProjectIdTaken sample_world " proj_alpha " (state_of sample_db)
       = (Ok taken, record_event (EvCountProjectId "proj_alpha") (state_of sample_db))
       /\ (taken = true <-> project_id_registered "proj_alpha" sample_db).
Proof.
  split; [reflexivity|].
  apply (proj2 (proj2 (isProjectIdTaken_decides sample_world " proj_alpha "
                         (state_of sample_db)))).
  reflexivity.
Defined.

(** X8.  [upsertRevenueMetrics] overwrites: after two writes for the same
    startup, of which the second is accepted, the metrics table is the
    original one with the single row of the second write (its values, and
    the time of that write) for the startup, whatever the first write did;
    the other tables are untouched.  A write the datastore refuses throws
    and changes nothing. *)
Theorem metrics_upsert_overwrites w id revenue1 mrr1 revenue2 mrr2 st :
  let st1 := (upsertRevenueMetrics w id revenue1 mrr1 st).2 in
  let out := upsertRevenueMetrics w id revenue2 mrr2 st1 in
  (db_error w (trace st1) (EvUpsertRevenueMetrics id revenue2 mrr2) = None ->
   out.1 = Ok tt
   /\ revenue_metrics (db out.2)
      = <[id := mkRevenueMetrics revenue2 mrr2 (clock w (trace st1))]>
          (revenue_metrics (db st))
   /\ startups (db out.2) = startups (db st)
   /\ api_keys (db out.2) = api_keys (db st))
  /\ (forall msg,
        db_error w (trace st1) (EvUpsertRevenueMetrics id revenue2 mrr2) = Some msg ->
        out.1 = Throw (Error ("Failed to upsert revenue metrics: " +:+ msg))
        /\ db out.2 = db st1).
Proof.
  cbv zeta.
  pose proof (upsertRevenueMetrics_run w id (mkParsedMetrics mrr1 revenue1) st) as Hfirst.
  cbn [parsed_revenue parsed_mrr] in Hfirst. rewrite Hfirst. clear Hfirst.
  set (st1 := (match db_error w (trace st) _ with Some _ => _ | None => _ end).2).
  pose proof (upsertRevenueMetrics_run w id (mkParsedMetrics mrr2 revenue2) st1) as Hsecond.
  cbn [parsed_revenue parsed_mrr] in Hsecond. rewrite Hsecond. clear Hsecond.
  assert (Hst1 : startups (db st1) = startups (db st) /\ api_keys (db st1) = api_keys (db st)
                 /\ <[id := mkRevenueMetrics revenue2 mrr2 (clock w (trace st1))]>
                      (revenue_metrics (db st1))
                    = <[id := mkRevenueMetrics revenue2 mrr2 (clock w (trace st1))]>
                        (revenue_metrics (db st))).
  { subst st1. destruct (db_error w (trace st) _); cbn; [done|].
    by rewrite insert_insert_eq. }
  destruct Hst1 as (Hstartups & Hkeys & Hmetrics).
  split.
  - intros ->. cbn. by rewrite Hmetrics.
  - intros msg ->. by cbn.
Qed.

Lemma metrics_upsert_overwrites_witness :
  let st1 := (upsertRevenueMetrics sample_world 1 (JNum 10) (JNum 1) (state_of sample_db)).2 in
  let out := upsertRevenueMetrics sample_world 1 (JNum 20) (JNum 2) st1 in
  out.1 = Ok tt
  /\ revenue_metrics (db out.2)
     = <[1 := mkRevenueMetrics (JNum 20) (JNum 2) (clock sample_world (trace st1))]>
         (revenue_metrics sample_db)
  /\ startups (db out.2) = startups sample_db
  /\ api_keys (db out.2) = api_keys sample_db.
Proof.
  apply (proj1 (metrics_upsert_overwrites sample_world 1 (JNum 10) (JNum 1) (JNum 20) (JNum 2)
                  (state_of sample_db))).
  reflexivity.
Defined.

Lemma delete_preserves_unique id d :
  project_ids_unique d ->
  project_ids_unique (mkDb (delete id (startups d)) (delete id (api_keys d))
                           (delete id (revenue_metrics d))).
Proof.
  intros Hunique i j ri rj projectId Hi Hj. cbn in Hi, Hj.
  apply lookup_delete_Some in Hi as [_ Hi]. apply lookup_delete_Some in Hj as [_ Hj].
  by apply (Hunique i j ri rj projectId).
Qed.

(** X9.  An accepted [deleteStartup] cascades: no row of the startup is
    left in any of the three tables, the rows of every other startup are
    as before, and project ids stay unique.  Deleting a startup that has no
    rows changes nothing, and a delete the datastore refuses throws and
    changes nothing. *)
Theorem delete_cascades w id st :
  let out := deleteStartup w id st in
  (db_error w (trace st) (EvDeleteStartup id) = None ->
   out.1 = Ok tt
   /\ records (db out.2) id = (None, None, None)
   /\ (forall id', id' <> id -> records (db out.2) id' = records (db st) id')
   /\ (project_ids_unique (db st) -> project_ids_unique (db out.2))
   /\ (records (db st) id = (None, None, None) -> db out.2 = db st))
  /\ (forall msg,
        db_error w (trace st) (EvDeleteStartup id) = Some msg ->
        out.1 = Throw (Error ("Failed to delete startup: " +:+ msg))
        /\ db out.2 = db st).
Proof.
  cbv zeta. rewrite deleteStartup_run. split.
  - intros ->. cbn. unfold records. cbn.
    split; [reflexivity|]. split; [by rewrite !lookup_delete_eq|].
    split; [intros id' Hne; by rewrite !lookup_delete_ne|].
    split; [apply delete_preserves_unique|].
    intros [= Hs Hk Hm]. rewrite !delete_id by done. by destruct (db st).
  - intros msg ->. by cbn.
Qed.

Lemma delete_cascades_witness :
  let out := deleteStartup sample_world 2 (state_of sample_db) in
  out.1 = Ok tt
  /\ records (db out.2) 2 = (None, None, None)
  /\ (forall id', id' <> 2 -> records (db out.2) id' = records sample_db id')
  /\ (project_ids_unique sample_db -> project_ids_unique (db out.2))
  /\ (records sample_db 2 = (None, None, None) -> db out.2 = sample_db).
Proof.
  apply (proj1 (delete_cascades sample_world 2 (state_of sample_db))).
  reflexivity.
Defined.

(** X10.  When the datastore answers, [getStartupsWithApiKeys] lists the
    credential rows exactly: one entry per row, with distinct startup ids,
    each carrying the row's encrypted key and project id; and nothing is
    changed in the store. *)
Theorem listing_matches_rows w st :
  db_error w (trace st) EvSelectApiKeys = None ->
  exists entries,
    getStartupsWithApiKeys w st = (Ok entries, record_event EvSelectApiKeys st)
    /\ NoDup (map startup_id entries)
    /\ List.length entries = size (api_keys (db st))
    /\ forall e,
         e ∈ entries
         <-> api_keys (db st) !! startup_id e
             = Some (mkApiKey (encrypted_api_key e) (project_id e)).
Proof.
  intros Hdb. eexists. split; [by apply getStartupsWithApiKeys_run|].
  apply listed_entries.
Qed.

Lemma listing_matches_rows_witness :
  exists entries,
    getStartupsWithApiKeys sample_world (state_of sample_db)
    = (Ok entries, record_event EvSelectApiKeys (state_of sample_db))
    /\ NoDup (map startup_id entries)
    /\ List.length entries = size (api_keys sample_db)
    /\ forall e,
         e ∈ entries
         <-> api_keys sample_db !! startup_id e
             = Some (mkApiKey (encrypted_api_key e) (project_id e)).
Proof.
  apply (listing_matches_rows sample_world (state_of sample_db)). reflexivity.
Defined.

(** X11.  A credential stored by an accepted [upsertApiKey] is the one
    row of its startup, and the next listing returns it with the same
    encrypted key; an empty project id is stored, and listed, as null. *)
Theorem stored_credential_is_listed w id token projectId st :
  let st1 := (upsertApiKey w id token projectId st).2 in
  db_error w (trace st) (EvUpsertApiKey id (mkApiKey token (js_or truthy_string projectId None)))
  = None ->
  db_error w (trace st1) EvSelectApiKeys = None ->
  exists entries,
    getStartupsWithApiKeys w st1 = (Ok entries, record_event EvSelectApiKeys st1)
    /\ mkEntry id token (js_or truthy_string projectId None) ∈ entries
    /\ (forall e, e ∈ entries -> startup_id e = id ->
                  e = mkEntry id token (js_or truthy_string projectId None))
    /\ (truthy_opt truthy_string projectId = false ->
        mkEntry id token None ∈ entries).
Proof.
  cbv zeta. intros Hupsert.
  assert (Hst1 : (upsertApiKey w id token projectId st).2
                 = set_db (mkDb (startups (db st))
                                (<[id := mkApiKey token (js_or truthy_string projectId None)]>
                                   (api_keys (db st)))
                                (revenue_metrics (db st)))
                     (record_event
                        (EvUpsertApiKey id (mkApiKey token (js_or truthy_string projectId None)))
                        st)).
  { unfold upsertApiKey, bind, db_call. by rewrite Hupsert. }
  rewrite Hst1. intros Hselect.
  eexists. split; [exact (getStartupsWithApiKeys_run w _ Hselect)|].
  match goal with
  | |- context [map_to_list ?rows] =>
      destruct (listed_entries rows) as (_ & _ & Hin)
  end.
  cbv zeta in Hin. cbn [db set_db api_keys] in Hin |- *.
  set (entries := map _ (map_to_list _)) in *.
  assert (Hlisted : mkEntry id token (js_or truthy_string projectId None) ∈ entries).
  { apply Hin. cbn. apply lookup_insert_eq. }
  split; [exact Hlisted|]. split.
  - intros e He Hid. apply Hin in He. rewrite Hid, lookup_insert_eq in He.
    destruct e as [i k p]. cbn in *. congruence.
  - intros Hfalsy. unfold js_or in Hlisted. by rewrite Hfalsy in Hlisted.
Qed.

Lemma stored_credential_is_listed_witness :
  let st1 := (upsertApiKey sample_world 4 "token" (Some EmptyString) (state_of sample_db)).2 in
  exists entries,
    getStartupsWithApiKeys sample_world st1 = (Ok entries, record_event EvSelectApiKeys st1)
    /\ mkEntry 4 "token" None ∈ entries
    /\ (forall e, e ∈ entries -> startup_id e = 4 -> e = mkEntry 4 "token" None)
    /\ (truthy_opt truthy_string (Some EmptyString) = false ->
        mkEntry 4 "token" None ∈ entries).
Proof.
  apply (stored_credential_is_listed sample_world 4 "token" (Some EmptyString)
           (state_of sample_db)); reflexivity.
Defined.

(** ** Refresh job: the endpoint *)

(** X12.  The trigger fails closed: unless a non-empty CRON_SECRET is
    configured and the request carries exactly "Bearer <secret>" in its
    authorization header, the endpoint answers 401 "Unauthorized" and does
    nothing: no query, no adapter call, no change of state. *)
Theorem unauthorized_trigger_is_refused P cfg w request st :
  ~ authorized cfg request ->
  GET P cfg w request st = (Ok unauthorized, st)
  /\ response_status unauthorized = 401.
Proof. intros Hno. split; [by apply GET_unauthorized | reflexivity]. Qed.

Lemma unconfigured_is_unauthorized request :
  ~ authorized (mkConfig None (mkEnv (Some "master secret") None)) request.
Proof. by intros (secret & [=] & _). Qed.

Lemma unauthorized_trigger_is_refused_witness :
  GET sample_platform (mkConfig None (mkEnv (Some "master secret") None)) sample_world
      sample_request (state_of sample_db)
  = (Ok unauthorized, state_of sample_db)
  /\ response_status unauthorized = 401.
Proof.
  apply (unauthorized_trigger_is_refused sample_platform
           (mkConfig None (mkEnv (Some "master secret") None)) sample_world sample_request
           (state_of sample_db)).
  apply unconfigured_is_unauthorized.
Defined.

(** X13.  The endpoint always answers, with status 200, 401 or 500, and
    never throws.  It answers 500 only when the query for the credential
    rows failed: the body then carries the datastore's message, and
    nothing but that query was done.  No failure while an entry is
    processed turns the answer into a 500. *)
Theorem GET_always_answers P cfg w request st :
  exists response st',
    GET P cfg w request st = (Ok response, st')
    /\ (response_status response = 200 \/ response_status response = 401
        \/ response_status response = 500)
    /\ (response_status response = 500 ->
        exists msg,
          db_error w (trace st) EvSelectApiKeys = Some msg
          /\ response = job_error_response (Error ("Failed to fetch API keys: " +:+ msg))
          /\ st' = record_event EvSelectApiKeys st).
Proof.
  destruct (authorized_or_not cfg request) as [Hauth|Hno].
  - pose proof (GET_run P cfg w request st Hauth) as Hrun.
    destruct (db_error w (trace st) EvSelectApiKeys) as [msg|].
    + eexists _, _. split; [exact Hrun|]. split; [by right; right|].
      intros _. by exists msg.
    + cbv zeta in Hrun. destruct (List.length _ =? 0)%nat.
      * eexists _, _. split; [exact Hrun|]. split; [by left | discriminate].
      * destruct Hrun as (report & st' & _ & Hrun).
        eexists _, _. split; [exact Hrun|]. split; [by left | discriminate].
  - eexists _, _. split; [by apply GET_unauthorized|].
    split; [by right; left | discriminate].
Qed.

Lemma subset_preserves_unique d d' :
  api_keys d' ⊆ api_keys d -> project_ids_unique d -> project_ids_unique d'.
Proof.
  intros Hsub Hunique i j ri rj projectId Hi Hj.
  apply (Hunique i j ri rj projectId); by eapply lookup_weaken.
Qed.

Lemma processed_shrinks P cfg w e results st results' st' :
  processed P cfg w e results st results' st' ->
  startups (db st') ⊆ startups (db st) /\ api_keys (db st') ⊆ api_keys (db st).
Proof.
  destruct 1; cbn [db written removed after_fetch set_db record_event startups api_keys];
    try done; split; apply delete_subseteq.
Qed.

Lemma for_of_shrinks P cfg w l results st report st' :
  for_of P cfg w l results st = (Ok report, st') ->
  startups (db st') ⊆ startups (db st) /\ api_keys (db st') ⊆ api_keys (db st).
Proof.
  revert results st. induction l as [|e l IH]; intros results st.
  - by intros [= <- <-].
  - destruct (process_entry_processed P cfg w e results st) as (r1 & st1 & Hrun & Hstep).
    cbn [for_of]. unfold bind. rewrite Hrun. intros Hrest.
    destruct (IH _ _ Hrest) as [Hs Hk].
    destruct (processed_shrinks _ _ _ _ _ _ _ _ Hstep) as [Hs1 Hk1].
    split; etrans; eauto.
Qed.

(** X14.  Whatever the request and the outside do, the refresh endpoint
    never adds or alters a startup or a credential row: after the call
    both tables are sub-maps of what they were (rows are only ever
    removed), project ids that were unique stay unique, and the metrics of
    a startup that has no credential row are untouched. *)
Theorem refresh_only_removes P cfg w request st :
  let st' := (GET P cfg w request st).2 in
  startups (db st') ⊆ startups (db st)
  /\ api_keys (db st') ⊆ api_keys (db st)
  /\ (project_ids_unique (db st) -> project_ids_unique (db st'))
  /\ (forall id,
        api_keys (db st) !! id = None ->
        revenue_metrics (db st') !! id = revenue_metrics (db st) !! id).
Proof.
  cbv zeta.
  assert (Hgoal : startups (db (GET P cfg w request st).2) ⊆ startups (db st)
                  /\ api_keys (db (GET P cfg w request st).2) ⊆ api_keys (db st)
                  /\ forall id,
                       api_keys (db st) !! id = None ->
                       revenue_metrics (db (GET P cfg w request st).2) !! id
                       = revenue_metrics (db st) !! id).
  { destruct (authorized_or_not cfg request) as [Hauth|Hno].
    - pose proof (GET_run P cfg w request st Hauth) as Hrun.
      destruct (db_error w (trace st) EvSelectApiKeys) as [msg|]; [by rewrite Hrun|].
      cbv zeta in Hrun. destruct (List.length _ =? 0)%nat; [by rewrite Hrun|].
      destruct Hrun as (report & st' & Hloop & ->). cbn [snd].
      destruct (for_of_shrinks _ _ _ _ _ _ _ _ Hloop) as [Hs Hk].
      destruct (for_of_frame _ _ _ _ _ _ _ _ Hloop) as (Hframe & _).
      split; [exact Hs|]. split; [exact Hk|].
      intros id Hnone.
      assert (Hnot : id ∉ map startup_id
                        (map (fun row => mkEntry row.1 (revenuecat_api_key row.2)
                                           (revenuecat_project_id row.2))
                             (map_to_list (api_keys (db st))))).
      { rewrite map_map. cbn. intros Hin.
        apply list_elem_of_In, in_map_iff in Hin as ([i row] & <- & Hin).
        apply list_elem_of_In, elem_of_map_to_list in Hin. cbn in Hnone. congruence. }
      pose proof (Hframe id Hnot) as Hrecords. unfold records in Hrecords.
      by injection Hrecords.
    - by rewrite (GET_unauthorized P cfg w request st Hno). }
  destruct Hgoal as (Hs & Hk & Hm). repeat split; try done.
  by apply subset_preserves_unique.
Qed.

(** X15.  For an authorized trigger, when the datastore returns the
    credential rows and there is at least one, the endpoint answers 200
    with a report whose three counters add up to the number of credential
    rows, whose error list has one element per failed entry, and in which
    every error names the startup of one of those rows. *)
Theorem report_covers_the_credential_rows P cfg w request st :
  authorized cfg request ->
  db_error w (trace st) EvSelectApiKeys = None ->
  api_keys (db st) <> ∅ ->
  exists report st',
    GET P cfg w request st = (Ok (completed_response report), st')
    /\ (success report + failed report + deleted report = size (api_keys (db st)))%nat
    /\ List.length (errors report) = failed report
    /\ forall entry, entry ∈ errors report ->
                     is_Some (api_keys (db st) !! error_startup_id entry).
Proof.
  intros Hauth Hdb Hrows.
  pose proof (GET_run P cfg w request st Hauth) as Hrun. rewrite Hdb in Hrun.
  cbv zeta in Hrun.
  set (entries := map _ (map_to_list (api_keys (db st)))) in Hrun.
  destruct (listed_entries (api_keys (db st))) as (_ & Hlength & Hin).
  cbv zeta in Hlength, Hin. fold entries in Hlength, Hin.
  destruct (List.length entries =? 0)%nat eqn:Hzero.
  { apply Nat.eqb_eq in Hzero. rewrite Hlength in Hzero.
    by apply map_size_empty_iff in Hzero. }
  destruct Hrun as (report & st' & Hloop & Hget).
  destruct (for_of_counts P cfg w entries initial_results (record_event EvSelectApiKeys st))
    as (report' & st'' & more & Hloop' & Hsum & Herrors & Hfailed & Hsub).
  rewrite Hloop in Hloop'. injection Hloop' as <- <-.
  cbn in Hsum, Herrors, Hfailed. subst more.
  exists report, st'. split; [exact Hget|]. split; [by rewrite <- Hlength|].
  split; [done|].
  intros entry Hentry.
  assert (Hid : error_startup_id entry ∈ map startup_id entries).
  { eapply elem_of_sublist; [|exact Hsub]. by apply list_elem_of_fmap_2. }
  apply list_elem_of_In, in_map_iff in Hid as (e & <- & He).
  apply list_elem_of_In, Hin in He. by rewrite He.
Qed.

Lemma report_covers_the_credential_rows_witness :
  exists report st',
    GET sample_platform sample_cfg sample_world sample_request (state_of sample_db)
    = (Ok (completed_response report), st')
    /\ (success report + failed report + deleted report = size (api_keys sample_db))%nat
    /\ List.length (errors report) = failed report
    /\ forall entry, entry ∈ errors report ->
                     is_Some (api_keys sample_db !! error_startup_id entry).
Proof.
  apply (report_covers_the_credential_rows sample_platform sample_cfg sample_world
           sample_request (state_of sample_db)).
  - by apply sample_request_authorized.
  - reflexivity.
  - intros Hempty. apply (f_equal (fun rows => rows !! 1)) in Hempty.
    vm_compute in Hempty. discriminate.
Defined.

(** ** Rate limiter *)

(** One call, with the periodic cleanup folded in: [store2] is the store
    the lookup sees. *)
Lemma checkRateLimit_step w identifier config_max config_windowMs st :
  let now := clock w (trace st) in
  let max := default 5 config_max in
  let windowMs := default 60000 config_windowMs in
  exists store2,
    (forall k, store2 !! k = rateLimitStore st !! k
               \/ (store2 !! k = None
                   /\ exists r, rateLimitStore st !! k = Some r /\ resetAt r < now))
    /\ checkRateLimit w identifier config_max config_windowMs st
       = match rateLimitStore st !! identifier with
         | Some record =>
             if resetAt record <? now
             then (Ok (mkRateLimitResult true 1 max (now + windowMs) 0),
                   mkState (db st)
                     (<[identifier := mkRateLimitRecord 1 (now + windowMs)]> store2)
                     (requestCount st + 1) (trace st))
             else (Ok (mkRateLimitResult (count record + 1 <=? max) (count record + 1) max
                         (resetAt record)
                         (if count record + 1 <=? max then 0
                          else ceil_div_1000 (resetAt record - now))),
                   mkState (db st)
                     (<[identifier := mkRateLimitRecord (count record + 1) (resetAt record)]>
                        store2)
                     (requestCount st + 1) (trace st))
         | None =>
             (Ok (mkRateLimitResult true 1 max (now + windowMs) 0),
              mkState (db st)
                (<[identifier := mkRateLimitRecord 1 (now + windowMs)]> store2)
                (requestCount st + 1) (trace st))
         end.
Proof.
  cbv zeta. unfold checkRateLimit, cleanup.
  cbn [requestCount trace db rateLimitStore snd].
  destruct ((requestCount st + 1) mod CLEANUP_INTERVAL =? 0);
    cbn [requestCount trace db rateLimitStore snd].
  - exists (filter (fun entry : string * RateLimitRecord =>
                    ~ (resetAt entry.2 < clock w (trace st))) (rateLimitStore st)).
    split.
    + intros k.
      destruct (rateLimitStore st !! k) as [r|] eqn:Hk.
      * destruct (decide (resetAt r < clock w (trace st))) as [Hold|Hlive].
        -- right. split; [|by exists r].
           apply map_lookup_filter_None. right. intros r' Hr'.
           rewrite Hk in Hr'. injection Hr' as <-. cbn. tauto.
        -- left. by apply map_lookup_filter_Some.
      * left. apply map_lookup_filter_None. left. exact Hk.
    + destruct (rateLimitStore st !! identifier) as [record|] eqn:Hid.
      * destruct (resetAt record <? clock w (trace st)) eqn:Hexpired.
        -- apply Z.ltb_lt in Hexpired.
           replace (filter _ (rateLimitStore st) !! identifier)
             with (@None RateLimitRecord); [reflexivity|].
           symmetry. apply map_lookup_filter_None. right. intros r' Hr'.
           rewrite Hid in Hr'. injection Hr' as <-. cbn. tauto.
        -- apply Z.ltb_ge in Hexpired.
           replace (filter _ (rateLimitStore st) !! identifier) with (Some record).
           ++ apply Z.ltb_ge in Hexpired. by rewrite Hexpired.
           ++ symmetry. apply map_lookup_filter_Some. split; [exact Hid|]. cbn. lia.
      * replace (filter _ (rateLimitStore st) !! identifier)
          with (@None RateLimitRecord); [reflexivity|].
        symmetry. apply map_lookup_filter_None. by left.
  - exists (rateLimitStore st). split; [by left|].
    destruct (rateLimitStore st !! identifier) as [record|]; [|reflexivity].
    by destruct (resetAt record <? clock w (trace st)).
Qed.

(** X16.  The window is fixed and the counter counts: once a call for an
    identifier has returned, any later call for it that finds the stored
    record unchanged and a clock not past the returned reset time returns
    a counter one higher and the same reset time, and is allowed exactly
    when the new counter is at most the maximum.  The periodic cleanup,
    which may run in either call, never resets a window that is still
    open. *)
Theorem window_is_fixed w identifier config_max config_windowMs st first st1 st2 :
  checkRateLimit w identifier config_max config_windowMs st = (Ok first, st1) ->
  rateLimitStore st2 !! identifier = rateLimitStore st1 !! identifier ->
  clock w (trace st2) <= result_resetAt first ->
  exists second st3,
    checkRateLimit w identifier config_max config_windowMs st2 = (Ok second, st3)
    /\ current second = current first + 1
    /\ result_resetAt second = result_resetAt first
    /\ limit second = default 5 config_max
    /\ allowed second = (current second <=? default 5 config_max).
Proof.
  intros Hfirst Hsame Hclock.
  assert (Hstored : rateLimitStore st1 !! identifier
                    = Some (mkRateLimitRecord (current first) (result_resetAt first))).
  { destruct (checkRateLimit_step w identifier config_max config_windowMs st)
      as (store2 & _ & Hstep).
    cbv zeta in Hstep. rewrite Hfirst in Hstep.
    destruct (rateLimitStore st !! identifier) as [record|];
      [destruct (resetAt record <? clock w (trace st))|];
      injection Hstep as -> ->; cbn; by rewrite lookup_insert_eq. }
  destruct (checkRateLimit_step w identifier config_max config_windowMs st2)
    as (store2 & _ & Hstep).
  cbv zeta in Hstep. rewrite Hsame, Hstored in Hstep. cbn [resetAt count] in Hstep.
  apply Z.ltb_ge in Hclock. rewrite Hclock in Hstep.
  eexists _, _. split; [exact Hstep|]. by cbn.
Qed.

Lemma window_is_fixed_witness :
  exists second st3,
    checkRateLimit sample_world "203.0.113.7" (Some 3) (Some 3600000)
      (mkState empty_db
         {[ "203.0.113.7" := mkRateLimitRecord 4 1700003600000 ]} 8 [EvSelectApiKeys])
    = (Ok second, st3)
    /\ current second = 4 + 1
    /\ result_resetAt second = 1700003600000
    /\ limit second = 3
    /\ allowed second = (current second <=? 3).
Proof.
  apply (window_is_fixed sample_world "203.0.113.7" (Some 3) (Some 3600000)
           (exhausted_state empty_db)
           (mkRateLimitResult false 4 3 1700003600000 3600)
           (mkState empty_db {[ "203.0.113.7" := mkRateLimitRecord 4 1700003600000 ]} 8 [])
           (mkState empty_db
              {[ "203.0.113.7" := mkRateLimitRecord 4 1700003600000 ]} 8 [EvSelectApiKeys])).
  - vm_compute. reflexivity.
  - reflexivity.
  - vm_compute. discriminate.
Defined.

(** X17.  A call that finds no record for the identifier, or one whose
    reset time has passed, opens a new window: the request is allowed with
    counter 1 and reset time now + windowMs, whatever the maximum is (a
    maximum of zero or less still lets this first request through), and
    the stored record is replaced by the new one. *)
Theorem new_window_always_allows w identifier config_max config_windowMs st :
  match rateLimitStore st !! identifier with
  | Some record => resetAt record < clock w (trace st)
  | None => True
  end ->
  exists st',
    checkRateLimit w identifier config_max config_windowMs st
    = (Ok (mkRateLimitResult true 1 (default 5 config_max)
             (clock w (trace st) + default 60000 config_windowMs) 0), st')
    /\ rateLimitStore st' !! identifier
       = Some (mkRateLimitRecord 1 (clock w (trace st) + default 60000 config_windowMs)).
Proof.
  intros Hnone.
  destruct (checkRateLimit_step w identifier config_max config_windowMs st)
    as (store2 & _ & Hstep).
  cbv zeta in Hstep.
  destruct (rateLimitStore st !! identifier) as [record|].
  - apply Z.ltb_lt in Hnone. rewrite Hnone in Hstep.
    eexists. split; [exact Hstep|]. cbn. by rewrite lookup_insert_eq.
  - eexists. split; [exact Hstep|]. cbn. by rewrite lookup_insert_eq.
Qed.

Lemma new_window_always_allows_witness :
  exists st',
    checkRateLimit sample_world "203.0.113.7" (Some 0) None (state_of empty_db)
    = (Ok (mkRateLimitResult true 1 0 (1700000000000 + 60000) 0), st')
    /\ rateLimitStore st' !! "203.0.113.7"
       = Some (mkRateLimitRecord 1 (1700000000000 + 60000)).
Proof.
  apply (new_window_always_allows sample_world "203.0.113.7" (Some 0) None
           (state_of empty_db)).
  exact I.
Defined.

(** X18.  The limiter touches nothing but its own bookkeeping: a call
    leaves the datastore and the history of outside interactions as they
    were and adds one to the request counter.  A record of another
    identifier is never altered: it is either kept as it is or, when its
    reset time has passed, removed by the cleanup; a record whose window
    is still open is always kept. *)
Theorem rate_limit_is_isolated w identifier config_max config_windowMs st :
  let st' := (checkRateLimit w identifier config_max config_windowMs st).2 in
  db st' = db st
  /\ trace st' = trace st
  /\ requestCount st' = requestCount st + 1
  /\ (forall other,
        other <> identifier ->
        rateLimitStore st' !! other = rateLimitStore st !! other
        \/ (rateLimitStore st' !! other = None
            /\ exists r, rateLimitStore st !! other = Some r
                         /\ resetAt r < clock w (trace st))).
Proof.
  cbv zeta.
  destruct (checkRateLimit_step w identifier config_max config_windowMs st)
    as (store2 & Hstore & Hstep).
  cbv zeta in Hstep. rewrite Hstep.
  destruct (rateLimitStore st !! identifier) as [record|];
    [destruct (resetAt record <? clock w (trace st))|];
    cbn [snd db trace requestCount rateLimitStore];
    (repeat split; try done; intros other Hother;
     rewrite lookup_insert_ne by done; apply Hstore).
Qed.

(** X19.  A refused request is told a whole number of seconds that covers
    the rest of the window: when a call answers with allowed = false, its
    counter exceeds the limit, and retryAfter is the least number of
    seconds that is at least the time left until the reset, so it is never
    negative; an allowed request always gets retryAfter = 0. *)
Theorem retry_after_covers_the_window w identifier config_max config_windowMs st result st' :
  checkRateLimit w identifier config_max config_windowMs st = (Ok result, st') ->
  (allowed result = true -> retryAfter result = 0)
  /\ (allowed result = false ->
      limit result < current result
      /\ 0 <= retryAfter result
      /\ (retryAfter result - 1) * 1000 < result_resetAt result - clock w (trace st)
         <= retryAfter result * 1000).
Proof.
  intros Hrun.
  destruct (checkRateLimit_step w identifier config_max config_windowMs st)
    as (store2 & _ & Hstep).
  cbv zeta in Hstep. rewrite Hrun in Hstep.
  destruct (rateLimitStore st !! identifier) as [record|];
    [destruct (resetAt record <? clock w (trace st)) eqn:Hexpired|];
    injection Hstep as -> ->; cbn; try (split; [done | discriminate]).
  apply Z.ltb_ge in Hexpired.
  destruct (count record + 1 <=? default 5 config_max) eqn:Hallowed;
    [split; [done | discriminate]|].
  apply Z.leb_gt in Hallowed.
  split; [discriminate|]. intros _. split; [lia|].
  unfold ceil_div_1000.
  pose proof (Z.div_mod (- (resetAt record - clock w (trace st))) 1000 ltac:(lia)).
  pose proof (Z.mod_pos_bound (- (resetAt record - clock w (trace st))) 1000 ltac:(lia)).
  lia.
Qed.

Lemma retry_after_covers_the_window_witness :
  (allowed (mkRateLimitResult false 4 3 1700003600000 3600) = true ->
   retryAfter (mkRateLimitResult false 4 3 1700003600000 3600) = 0)
  /\ (allowed (mkRateLimitResult false 4 3 1700003600000 3600) = false ->
      limit (mkRateLimitResult false 4 3 1700003600000 3600)
      < current (mkRateLimitResult false 4 3 1700003600000 3600)
      /\ 0 <= retryAfter (mkRateLimitResult false 4 3 1700003600000 3600)
      /\ (retryAfter (mkRateLimitResult false 4 3 1700003600000 3600) - 1) * 1000
         < result_resetAt (mkRateLimitResult false 4 3 1700003600000 3600)
           - clock sample_world (trace (exhausted_state empty_db))
         <= retryAfter (mkRateLimitResult false 4 3 1700003600000 3600) * 1000).
Proof.
  apply (retry_after_covers_the_window sample_world "203.0.113.7" (Some 3) (Some 3600000)
           (exhausted_state empty_db)
           (mkRateLimitResult false 4 3 1700003600000 3600)
           (mkState empty_db {[ "203.0.113.7" := mkRateLimitRecord 4 1700003600000 ]} 8 [])).
  vm_compute. reflexivity.
Defined.

(** ** Input validation: what sanitizing does to a string *)

Lemma thinned_refl s : thinned s s.
Proof. induction s; by constructor. Qed.

Lemma thinned_trans a b c : thinned a b -> thinned b c -> thinned a c.
Proof.
  intros Hab. revert c.
  induction Hab as [|x s s' Hab IH|x s s' Hab IH|x s s' Hab IH]; intros c0 Hbc.
  - exact Hbc.
  - inversion Hbc; subst; constructor; by apply IH.
  - constructor. by apply IH.
  - inversion Hbc; subst; constructor; by apply IH.
Qed.

Lemma thinned_app a b c d : thinned a b -> thinned c d -> thinned (a +:+ c) (b +:+ d).
Proof.
  intros Hab Hcd. induction Hab as [|x s s' Hab IH|x s s' Hab IH|x s s' Hab IH].
  - exact Hcd.
  - exact (thinned_keep x (s +:+ c) (s' +:+ d) IH).
  - exact (thinned_drop x (s +:+ c) (s' +:+ d) IH).
  - exact (thinned_blank x (s +:+ c) (s' +:+ d) IH).
Qed.

Lemma string_of_list_ascii_snoc l c :
  string_of_list_ascii (l ++ [c]) = string_of_list_ascii l +:+ String c EmptyString.
Proof.
  induction l as [|x l IH]; [reflexivity|].
  cbn [app string_of_list_ascii]. rewrite IH. reflexivity.
Qed.

Lemma reverse_cons c s : reverse (String c s) = reverse s +:+ String c EmptyString.
Proof. unfold reverse. cbn [list_ascii_of_string rev]. apply string_of_list_ascii_snoc. Qed.

Lemma append_empty_r s : s +:+ EmptyString = s.
Proof.
  induction s as [|c s IH]; [reflexivity|].
  change (String c (s +:+ EmptyString) = String c s). by f_equal.
Qed.

Lemma thinned_reverse a b : thinned a b -> thinned (reverse a) (reverse b).
Proof.
  induction 1 as [|c s s' Hab IH|c s s' Hab IH|c s s' Hab IH]; rewrite ?reverse_cons.
  - constructor.
  - apply thinned_app; [exact IH | apply thinned_refl].
  - rewrite <- (append_empty_r (reverse s')).
    apply thinned_app; [exact IH | apply thinned_drop, thinned_nil].
  - apply thinned_app; [exact IH | apply thinned_blank, thinned_nil].
Qed.

Lemma remove_chars_thinned p s : thinned s (remove_chars p s).
Proof. induction s as [|c s IH]; cbn; [constructor|]. destruct (p c); by constructor. Qed.

Lemma strip_tags_thinned inside s : thinned s (strip_tags inside s).
Proof.
  revert inside. induction s as [|c s IH]; intros inside; cbn [strip_tags]; [constructor|].
  destruct inside; [by constructor|].
  destruct (_ && _); by constructor.
Qed.

Lemma remove_javascript_thinned skip s : thinned s (remove_javascript skip s).
Proof.
  revert skip.
  induction s as [|c s IH]; intros skip; cbn [remove_javascript]; [constructor|].
  destruct skip; [|by constructor].
  destruct (starts_with_ci _ _); by constructor.
Qed.

Lemma remove_handlers_thinned skip s : thinned s (remove_handlers skip s).
Proof.
  revert skip.
  induction s as [|c s IH]; intros skip; cbn [remove_handlers]; [constructor|].
  destruct skip; [|by constructor].
  destruct (handler_match _) as [[|more]|]; by constructor.
Qed.

Lemma collapse_spaces_thinned in_space skip s : thinned s (collapse_spaces in_space skip s).
Proof.
  revert in_space skip.
  induction s as [|a s IH]; intros in_space skip; cbn [collapse_spaces]; [constructor|].
  destruct skip; [|by constructor].
  cbv zeta.
  destruct (if is_space a then 1%nat else _) as [|more]; [by constructor|].
  destruct in_space; by constructor.
Qed.

Lemma strip_thinned two three s : thinned s (strip two three s).
Proof.
  enough (Hall : forall n s, (String.length s <= n)%nat -> thinned s (strip two three s))
    by (apply (Hall (String.length s)); lia).
  clear s. induction n as [|n IH]; intros [|a rest] Hlen; cbn [strip].
  - apply thinned_nil.
  - cbn in Hlen. lia.
  - apply thinned_nil.
  - cbn in Hlen.
    destruct (is_space a); [apply thinned_drop, IH; lia|].
    destruct rest as [|b rest2]; [apply thinned_refl|].
    cbn in Hlen.
    destruct (two a b); [do 2 apply thinned_drop; apply IH; lia|].
    destruct rest2 as [|c rest3]; [apply thinned_refl|].
    cbn in Hlen.
    destruct (three a b c); [do 3 apply thinned_drop; apply IH; lia | apply thinned_refl].
Qed.

Lemma trim_thinned s : thinned s (trim s).
Proof.
  unfold trim, trimEnd, trimStart.
  eapply thinned_trans; [apply strip_thinned|].
  rewrite <- (reverse_involutive (strip is_space2 is_space3 s)) at 1.
  apply thinned_reverse, strip_thinned.
Qed.

Lemma thinned_all_chars p a b :
  thinned a b -> p " "%char = true -> all_chars p a = true -> all_chars p b = true.
Proof.
  intros Hab Hspace.
  induction Hab as [|c s s' Hab IH|c s s' Hab IH|c s s' Hab IH]; cbn;
    rewrite ?andb_true_iff; tauto.
Qed.

Lemma thinned_any_char p a b :
  thinned a b -> p " "%char = false -> any_char p b = true -> any_char p a = true.
Proof.
  intros Hab Hspace.
  induction Hab as [|c s s' Hab IH|c s s' Hab IH|c s s' Hab IH]; cbn;
    rewrite ?orb_true_iff; try tauto.
  rewrite Hspace. intros [?|?]; [discriminate | tauto].
Qed.

Lemma thinned_tag_free a b : thinned a b -> tag_free a = true -> tag_free b = true.
Proof.
  induction 1 as [|c s s' Hab IH|c s s' Hab IH|c s s' Hab IH]; cbn [tag_free];
    rewrite ?andb_true_iff.
  - done.
  - intros [Hc Hs]. split; [|by apply IH].
    destruct (code c =? 60)%N; [|reflexivity]. cbn [andb] in *.
    destruct (any_char _ s') eqn:Hany; [|reflexivity].
    by rewrite (thinned_any_char _ s s' Hab eq_refl Hany) in Hc.
  - intros [_ Hs]. by apply IH.
  - intros [_ Hs]. split; [reflexivity | by apply IH].
Qed.

Lemma strip_tags_tag_free inside s : tag_free (strip_tags inside s) = true.
Proof.
  revert inside. induction s as [|c s IH]; intros inside; cbn [strip_tags]; [reflexivity|].
  destruct inside; [apply IH|].
  destruct (code c =? 60)%N eqn:Hopen; cbn [andb].
  - destruct (any_char _ s) eqn:Hclose; [apply IH|].
    cbn [tag_free]. rewrite Hopen, IH. cbn [andb].
    destruct (any_char _ (strip_tags false s)) eqn:Hany; [|reflexivity].
    by rewrite (thinned_any_char _ s _ (strip_tags_thinned false s) eq_refl Hany) in Hclose.
  - cbn [tag_free]. by rewrite Hopen, IH.
Qed.

Lemma remove_chars_clean p s : all_chars (fun c => negb (p c)) (remove_chars p s) = true.
Proof.
  induction s as [|c s IH]; cbn; [reflexivity|].
  destruct (p c) eqn:Hc; [exact IH|]. cbn. by rewrite Hc, IH.
Qed.

Lemma plain_is_printable c : is_control c = false -> is_space c = false -> is_printable c = true.
Proof.
  destruct c as [[] [] [] [] [] [] [] []]; vm_compute; intros; congruence.
Qed.

Lemma collapse_spaces_printable in_space skip s :
  all_chars (fun c => negb (is_control c)) s = true ->
  all_chars is_printable (collapse_spaces in_space skip s) = true.
Proof.
  revert in_space skip.
  induction s as [|a s IH]; intros in_space skip; cbn [collapse_spaces all_chars];
    [reflexivity|].
  rewrite andb_true_iff, negb_true_iff. intros [Ha Hs].
  destruct skip; [|by apply IH].
  cbv zeta.
  destruct (is_space a) eqn:Hspace.
  - destruct in_space; cbn [all_chars]; rewrite ?andb_true_iff; auto.
  - destruct (match s with EmptyString => _ | _ => _ end) as [|more].
    + cbn [all_chars]. rewrite andb_true_iff. split; [by apply plain_is_printable | auto].
    + destruct in_space; cbn [all_chars]; rewrite ?andb_true_iff; auto.
Qed.

(** X20.  Sanitizing only takes away: the sanitized string is the input
    with some characters left out and some (white space) replaced by a
    single space.  No character is added, changed into anything but a
    space, or moved. *)
Theorem sanitize_only_removes input : thinned input (sanitizeString input).
Proof.
  unfold sanitizeString.
  eapply thinned_trans; [|apply trim_thinned].
  eapply thinned_trans; [|apply collapse_spaces_thinned].
  eapply thinned_trans; [|apply remove_handlers_thinned].
  eapply thinned_trans; [|apply remove_javascript_thinned].
  eapply thinned_trans; [|apply strip_tags_thinned].
  eapply thinned_trans; [|apply remove_chars_thinned].
  apply remove_chars_thinned.
Qed.

(** X21.  A sanitized string holds no control character: every byte is
    at least U+0020 and none is DEL.  Tabs and line breaks, which the
    control-character filter lets through, are turned into spaces by the
    white-space step. *)
Theorem sanitized_is_printable input :
  all_chars is_printable (sanitizeString input) = true.
Proof.
  unfold sanitizeString.
  apply (thinned_all_chars _ _ _ (trim_thinned _) eq_refl).
  apply collapse_spaces_printable.
  apply (thinned_all_chars _ _ _ (remove_handlers_thinned _ _) eq_refl).
  apply (thinned_all_chars _ _ _ (remove_javascript_thinned _ _) eq_refl).
  apply (thinned_all_chars _ _ _ (strip_tags_thinned _ _) eq_refl).
  apply remove_chars_clean.
Qed.

(** X22.  A sanitized string contains no tag: none of its "<" has a ">"
    after it.  One pass of the tag filter is enough for that, because a
    "<" that survives it had no ">" after it in the input, and the later
    steps add nothing but spaces. *)
Theorem sanitized_is_tag_free input : tag_free (sanitizeString input) = true.
Proof.
  unfold sanitizeString.
  apply (thinned_tag_free _ _ (trim_thinned _)).
  apply (thinned_tag_free _ _ (collapse_spaces_thinned _ _ _)).
  apply (thinned_tag_free _ _ (remove_handlers_thinned _ _)).
  apply (thinned_tag_free _ _ (remove_javascript_thinned _ _)).
  apply strip_tags_tag_free.
Qed.

(** ** Input validation: accepted values *)

(** What a character of a project id is not. *)
Lemma project_char_plain c :
  is_project_char c = true ->
  (code c =? 0)%N = false /\ is_control c = false /\ (code c =? 60)%N = false
  /\ is_space c = false /\ utf16_units c = 1%nat
  /\ Ascii.eqb (lower c) ":" = false /\ c <> "="%char
  /\ (forall b, is_space2 c b = false) /\ (forall b d, is_space3 c b d = false).
Proof.
  intros Hc.
  assert (Hcode : (45 <= code c < 128)%N) by (by apply project_char_code).
  assert (Hbytes : (forall b, is_space2 c b = false) /\ (forall b d, is_space3 c b d = false)).
  { split.
    - intros b. destruct (is_space2 c b) eqn:H2; [|reflexivity].
      apply is_space2_codes in H2. lia.
    - intros b d. destruct (is_space3 c b d) eqn:H3; [|reflexivity].
      apply is_space3_codes in H3. lia. }
  revert Hc. clear Hcode.
  destruct c as [[] [] [] [] [] [] [] []]; vm_compute; intros Hc;
    try discriminate Hc; repeat split; try apply Hbytes; discriminate.
Qed.

Lemma word_is_project_char s : all_chars is_word s = true -> all_chars is_project_char s = true.
Proof.
  induction s as [|c s IH]; cbn; [done|].
  rewrite !andb_true_iff. unfold is_project_char. intros [-> Hs]. auto.
Qed.

Lemma js_length_project_chars s :
  all_chars is_project_char s = true -> js_length s = String.length s.
Proof.
  induction s as [|c s IH]; cbn; [done|].
  rewrite andb_true_iff. intros [Hc Hs].
  destruct (project_char_plain c Hc) as (_ & _ & _ & _ & -> & _). by rewrite IH.
Qed.

Lemma drop_chars_project_chars n s :
  all_chars is_project_char s = true -> all_chars is_project_char (drop_chars n s) = true.
Proof.
  revert s. induction n as [|n IH]; intros [|c s]; cbn; try done.
  rewrite andb_true_iff. intros [_ Hs]. by apply IH.
Qed.

Lemma starts_with_ci_project_chars pattern s :
  starts_with_ci pattern s = true -> all_chars is_project_char s = true ->
  all_chars (fun p => negb (Ascii.eqb p ":")) pattern = true.
Proof.
  revert s. induction pattern as [|p pattern IH]; intros [|c s]; cbn; try done.
  rewrite !andb_true_iff. intros [Hp Hrest] [Hc Hs].
  apply Ascii.eqb_eq in Hp. subst p.
  destruct (project_char_plain c Hc) as (_ & _ & _ & _ & _ & -> & _).
  split; [reflexivity | by eapply IH].
Qed.

Lemma handler_match_project_chars s :
  all_chars is_project_char s = true -> handler_match s = None.
Proof.
  intros Hs. unfold handler_match.
  destruct (starts_with_ci "on" s); [|reflexivity].
  destruct (word_run (drop_chars 2 s) =? 0)%nat; [reflexivity|].
  pose proof (drop_chars_project_chars (word_run (drop_chars 2 s)) _
                (drop_chars_project_chars 2 s Hs)) as Hrest.
  destruct (drop_chars (word_run (drop_chars 2 s)) (drop_chars 2 s)) as [|c rest];
    [reflexivity|].
  cbn [all_chars] in Hrest. apply andb_true_iff in Hrest as [Hc _].
  destruct (project_char_plain c Hc) as (_ & _ & _ & Hspace & _ & _ & Hequals & H2 & H3).
  unfold trimStart. rewrite (strip_plain _ _ c rest Hspace H2 H3).
  cbn [String.prefix]. destruct (ascii_dec "=" c) as [<-|_]; [done | reflexivity].
Qed.

(** A string of project-id characters goes through the sanitizer
    unchanged. *)
Lemma sanitize_project_chars s :
  all_chars is_project_char s = true -> sanitizeString s = s.
Proof.
  intros Hs. unfold sanitizeString.
  assert (Hnul : remove_chars (fun c => (code c =? 0)%N) s = s).
  { induction s as [|c s IH]; cbn; [done|].
    cbn in Hs. apply andb_true_iff in Hs as [Hc Hs].
    destruct (project_char_plain c Hc) as (-> & _). by rewrite IH. }
  assert (Hcontrol : remove_chars is_control s = s).
  { induction s as [|c s IH]; cbn; [done|].
    cbn in Hs. apply andb_true_iff in Hs as [Hc Hs].
    destruct (project_char_plain c Hc) as (_ & -> & _). rewrite IH; [done | done |].
    cbn in Hnul. destruct (project_char_plain c Hc) as (Hc0 & _).
    rewrite Hc0 in Hnul. by injection Hnul. }
  assert (Htags : strip_tags false s = s).
  { clear Hnul Hcontrol. induction s as [|c s IH]; cbn [strip_tags]; [done|].
    cbn in Hs. apply andb_true_iff in Hs as [Hc Hs].
    destruct (project_char_plain c Hc) as (_ & _ & -> & _). cbn [andb]. by rewrite IH. }
  assert (Hjavascript : remove_javascript 0 s = s).
  { clear Hnul Hcontrol Htags. induction s as [|c s IH]; cbn [remove_javascript]; [done|].
    destruct (starts_with_ci "javascript:" (String c s)) eqn:Hstarts.
    - by apply (starts_with_ci_project_chars _ _ Hstarts) in Hs.
    - cbn in Hs. apply andb_true_iff in Hs as [_ Hs]. by rewrite IH. }
  assert (Hhandlers : remove_handlers 0 s = s).
  { clear Hnul Hcontrol Htags Hjavascript.
    induction s as [|c s IH]; cbn [remove_handlers]; [done|].
    rewrite (handler_match_project_chars _ Hs).
    cbn in Hs. apply andb_true_iff in Hs as [_ Hs]. by rewrite IH. }
  assert (Hspaces : collapse_spaces false 0 s = s).
  { clear Hnul Hcontrol Htags Hjavascript Hhandlers.
    induction s as [|c s IH]; cbn [collapse_spaces]; [done|].
    cbn in Hs. apply andb_true_iff in Hs as [Hc Hs].
    destruct (project_char_plain c Hc) as (_ & _ & _ & Hspace & _ & _ & _ & H2 & H3).
    cbv zeta. rewrite Hspace.
    destruct s as [|b [|d rest]]; rewrite ?H2, ?H3; [reflexivity| |]; by rewrite IH. }
  rewrite Hnul, Hcontrol, Htags, Hjavascript, Hhandlers, Hspaces.
  by apply trim_project_chars.
Qed.

(** X23.  An accepted project id is canonical: it was a string, it
    consists of 4 to 100 characters of [a-zA-Z0-9_-], and validating the
    accepted value again accepts it unchanged (sanitizing does nothing to
    it). *)
Theorem accepted_project_id_is_canonical input :
  valid (validateProjectId input) = true ->
  let projectId := value (validateProjectId input) in
  (exists raw, input = Some (JStr raw) /\ projectId = sanitizeString raw)
  /\ all_chars is_project_char projectId = true
  /\ (4 <= String.length projectId <= 100)%nat
  /\ validateProjectId (Some (JStr projectId)) = accept projectId.
Proof.
  intros Hvalid.
  assert (Hshape : exists raw,
             input = Some (JStr raw)
             /\ value (validateProjectId input) = sanitizeString raw
             /\ (MIN_LENGTHS_projectId <= js_length (sanitizeString raw))%nat
             /\ (js_length (sanitizeString raw) <= MAX_LENGTHS_projectId)%nat
             /\ only_chars is_project_char (sanitizeString raw) = true).
  { unfold validateProjectId in *.
    destruct input as [[| | |raw| |]|]; try discriminate.
    destruct (js_length (sanitizeString raw) <? MIN_LENGTHS_projectId)%nat eqn:Hmin;
      [discriminate|].
    destruct (MAX_LENGTHS_projectId <? js_length (sanitizeString raw))%nat eqn:Hmax;
      [discriminate|].
    destruct (only_chars is_project_char (sanitizeString raw)) eqn:Hchars; [|discriminate].
    apply Nat.ltb_ge in Hmin, Hmax. by exists raw. }
  destruct Hshape as (raw & -> & Hvalue & Hmin & Hmax & Honly).
  cbv zeta. rewrite Hvalue. clear Hvalid Hvalue.
  pose proof Honly as Hchars.
  unfold only_chars in Hchars. apply andb_true_iff in Hchars as [_ Hall].
  rewrite (js_length_project_chars _ Hall) in Hmin, Hmax.
  split; [by exists raw|]. split; [exact Hall|].
  split; [unfold MIN_LENGTHS_projectId, MAX_LENGTHS_projectId in *; lia|].
  unfold validateProjectId. rewrite (sanitize_project_chars _ Hall).
  rewrite (js_length_project_chars _ Hall), Honly.
  apply Nat.ltb_ge in Hmin, Hmax. by rewrite Hmin, Hmax.
Qed.

Lemma accepted_project_id_is_canonical_witness :
  let projectId := value (validateProjectId (Some (JStr "  proj_<b>alpha</b> "))) in
  (exists raw, Some (JStr "  proj_<b>alpha</b> ") = Some (JStr raw)
               /\ projectId = sanitizeString raw)
  /\ all_chars is_project_char projectId = true
  /\ (4 <= String.length projectId <= 100)%nat
  /\ validateProjectId (Some (JStr projectId)) = accept projectId.
Proof.
  apply (accepted_project_id_is_canonical (Some (JStr "  proj_<b>alpha</b> "))).
  vm_compute. reflexivity.
Defined.

(** X24.  An accepted API key is canonical: it is the trimmed input
    string, it starts with "sk_", it consists of 10 to 500 characters of
    [a-zA-Z0-9_], and validating the accepted value again accepts it
    unchanged. *)
Theorem accepted_api_key_is_canonical input :
  valid (validateApiKey input) = true ->
  let apiKey := value (validateApiKey input) in
  (exists raw, input = Some (JStr raw) /\ apiKey = trim raw)
  /\ String.prefix "sk_" apiKey = true
  /\ all_chars is_word apiKey = true
  /\ (10 <= String.length apiKey <= 500)%nat
  /\ validateApiKey (Some (JStr apiKey)) = accept apiKey.
Proof.
  intros Hvalid.
  assert (Hshape : exists raw,
             input = Some (JStr raw)
             /\ value (validateApiKey input) = trim raw
             /\ (MIN_LENGTHS_revenuecatApiKey <= js_length (trim raw))%nat
             /\ (js_length (trim raw) <= MAX_LENGTHS_revenuecatApiKey)%nat
             /\ String.prefix "sk_" (trim raw) = true
             /\ only_chars is_word (trim raw) = true).
  { unfold validateApiKey in *.
    destruct input as [[| | |raw| |]|]; try discriminate.
    cbv zeta in Hvalid |- *.
    destruct (js_length (trim raw) <? MIN_LENGTHS_revenuecatApiKey)%nat eqn:Hmin;
      [discriminate|].
    destruct (MAX_LENGTHS_revenuecatApiKey <? js_length (trim raw))%nat eqn:Hmax;
      [discriminate|].
    destruct (String.prefix "sk_" (trim raw)) eqn:Hprefix; [|discriminate].
    destruct (only_chars is_word (trim raw)) eqn:Hchars; [|discriminate].
    apply Nat.ltb_ge in Hmin, Hmax. by exists raw. }
  destruct Hshape as (raw & -> & Hvalue & Hmin & Hmax & Hprefix & Honly).
  cbv zeta. rewrite Hvalue. clear Hvalid Hvalue.
  pose proof Honly as Hchars.
  unfold only_chars in Hchars. apply andb_true_iff in Hchars as [_ Hword].
  pose proof (word_is_project_char _ Hword) as Hall.
  rewrite (js_length_project_chars _ Hall) in Hmin, Hmax.
  split; [by exists raw|]. split; [exact Hprefix|]. split; [exact Hword|].
  split; [unfold MIN_LENGTHS_revenuecatApiKey, MAX_LENGTHS_revenuecatApiKey in *; lia|].
  unfold validateApiKey. cbv zeta. rewrite (trim_project_chars _ Hall).
  rewrite (js_length_project_chars _ Hall), Hprefix, Honly.
  apply Nat.ltb_ge in Hmin, Hmax. by rewrite Hmin, Hmax.
Qed.

Lemma accepted_api_key_is_canonical_witness :
  let apiKey := value (validateApiKey (Some (JStr " sk_alpha_key "))) in
  (exists raw, Some (JStr " sk_alpha_key ") = Some (JStr raw) /\ apiKey = trim raw)
  /\ String.prefix "sk_" apiKey = true
  /\ all_chars is_word apiKey = true
  /\ (10 <= String.length apiKey <= 500)%nat
  /\ validateApiKey (Some (JStr apiKey)) = accept apiKey.
Proof.
  apply (accepted_api_key_is_canonical (Some (JStr " sk_alpha_key "))).
  vm_compute. reflexivity.
Defined.

(** ** Registration endpoint *)

Lemma isProjectIdTaken_run w projectId st1 :
  trim projectId = projectId -> truthy_string projectId = true ->
  isProjectIdTaken w projectId st1
  = (match db_error w (trace st1) (EvCountProjectId projectId) with
     | Some msg => Throw (Error ("Failed to validate project ID uniqueness: " +:+ msg))
     | None => Ok (bool_decide (0 < project_id_count projectId (db st1))%nat)
     end, counted projectId st1).
Proof.
  intros Htrim Htruthy. unfold isProjectIdTaken.
  rewrite Htrim, Htruthy. cbn [negb]. unfold bind, db_call.
  by destruct (db_error w (trace st1) _).
Qed.

Lemma encryptApiKey_run P cfg w apiKey st :
  encryptApiKey P cfg w apiKey st
  = match getEncryptionKey cfg with
    | Ok K => (Ok (sealed_token P K w apiKey st), drawn st)
    | Throw e =>
        (Throw (Error ("Failed to encrypt API key: " +:+ message e)),
         record_event (EvRandomBytes SALT_LENGTH) st)
    end.
Proof.
  unfold encryptApiKey, try_catch, bind, crypto_randomBytes, lift, ret, sealed_token.
  destruct (getEncryptionKey cfg) as [K|e]; [|reflexivity].
  cbn [fst snd]. by destruct (gcm_encrypt P _ _ _).
Qed.

Lemma sealed_token_decrypts P cfg w apiKey K st :
  PlatformCryptoOk P -> random_sized w -> getEncryptionKey cfg = Ok K ->
  decryptApiKey P cfg (sealed_token P K w apiKey st) = Ok apiKey.
Proof.
  intros [Hkeylen Hgcm] Hrandom HK.
  unfold decryptApiKey, sealed_token. cbv zeta.
  rewrite split_token by apply toString_hex_no_colon.
  rewrite HK. cbn [result_bind].
  rewrite !Buffer_from_toString_hex.
  rewrite Hgcm; [|apply Hkeylen | apply Hrandom].
  cbn. by rewrite utf8_decode_encode.
Qed.

(** The steps 4 to 6 of a registration, step by step: what each answer of
    the outside leads to. *)
Lemma register_run P cfg w name websiteUrl founderUsername appStoreId apiKey projectId st1 :
  trim projectId = projectId -> truthy_string projectId = true ->
  register P cfg w name websiteUrl founderUsername appStoreId apiKey projectId st1
  = let row := mkStartup name websiteUrl founderUsername appStoreId in
    let s1 := counted projectId st1 in
    let s2 := after_fetch apiKey projectId s1 in
    let s3 := after_fetch apiKey projectId s2 in
    let id := next_startup_id w (trace s3) in
    let s4 := inserted w row s3 in
    match db_error w (trace st1) (EvCountProjectId projectId) with
    | Some msg =>
        (Throw (Error ("Failed to validate project ID uniqueness: " +:+ msg)), s1)
    | None =>
        if bool_decide (0 < project_id_count projectId (db st1))%nat
        then (Ok conflict_response, s1)
        else
          match (fetchRevenueCatMetrics P w apiKey projectId s1).1 with
          | Throw _ => (Ok invalid_credentials_response, s2)
          | Ok _ =>
              match (fetchRevenueCatMetrics P w apiKey projectId s2).1 with
              | Throw e => (Throw e, s3)
              | Ok metrics =>
                  match db_error w (trace s3) (EvInsertStartup row) with
                  | Some msg =>
                      (Throw (Error ("Failed to create startup: " +:+ msg)),
                       record_event (EvInsertStartup row) s3)
                  | None =>
                      match getEncryptionKey cfg with
                      | Throw e =>
                          (Throw (Error ("Failed to encrypt API key: " +:+ message e)),
                           record_event (EvRandomBytes SALT_LENGTH) s4)
                      | Ok K =>
                          let credential :=
                            mkApiKey (sealed_token P K w apiKey s4) (Some projectId) in
                          match db_error w (trace (drawn s4))
                                  (EvUpsertApiKey id credential) with
                          | Some msg =>
                              (Throw (Error ("Failed to upsert API key: " +:+ msg)),
                               record_event (EvUpsertApiKey id credential) (drawn s4))
                          | None =>
                              let s6 := keyed id credential (drawn s4) in
                              match db_error w (trace s6)
                                      (EvUpsertRevenueMetrics id (parsed_revenue metrics)
                                         (parsed_mrr metrics)) with
                              | Some msg =>
                                  (Throw (Error ("Failed to upsert revenue metrics: "
                                                 +:+ msg)),
                                   record_event
                                     (EvUpsertRevenueMetrics id (parsed_revenue metrics)
                                        (parsed_mrr metrics)) s6)
                              | None =>
                                  (Ok (created_response id name metrics),
                                   written w id metrics s6)
                              end
                          end
                      end
                  end
              end
          end
    end.
Proof.
  intros Htrim Htruthy. cbv zeta. unfold register.
  unfold bind at 1. rewrite (isProjectIdTaken_run w projectId st1 Htrim Htruthy).
  destruct (db_error w (trace st1) (EvCountProjectId projectId)) as [msg|]; [reflexivity|].
  destruct (bool_decide _); [reflexivity|].
  unfold bind at 1. unfold validateRevenueCatApiKey, try_catch. unfold bind at 1.
  rewrite (fetch_run P w apiKey projectId (counted projectId st1) Htruthy).
  destruct (fetchRevenueCatMetrics P w apiKey projectId (counted projectId st1)).1
    as [checked|e]; [|reflexivity].
  unfold ret at 1. cbn [negb].
  unfold bind at 1.
  rewrite (fetch_run P w apiKey projectId _ Htruthy).
  destruct (fetchRevenueCatMetrics P w apiKey projectId
              (after_fetch apiKey projectId (counted projectId st1))).1
    as [metrics|e]; [|reflexivity].
  unfold bind at 1. unfold createStartup. unfold bind at 1. unfold db_call.
  destruct (db_error w _ (EvInsertStartup _)) as [msg|]; [reflexivity|].
  unfold bind at 1. unfold modify_db, ret at 1.
  fold (inserted w (mkStartup name websiteUrl founderUsername appStoreId)
          (after_fetch apiKey projectId
             (after_fetch apiKey projectId (counted projectId st1)))).
  unfold bind at 1. rewrite encryptApiKey_run.
  destruct (getEncryptionKey cfg) as [K|e]; [|reflexivity].
  cbn [fst]. unfold bind at 1. unfold upsertApiKey. unfold bind at 1. unfold db_call.
  unfold js_or, truthy_opt. rewrite Htruthy.
  destruct (db_error w (trace (drawn _)) _) as [msg|]; [reflexivity|].
  unfold modify_db.
  unfold bind at 1. rewrite upsertRevenueMetrics_run.
  destruct (db_error w _ (EvUpsertRevenueMetrics _ _ _)) as [msg|]; reflexivity.
Qed.

Lemma optional_cases field validate label :
  (exists e, optional field validate label = inl (bad_request e))
  \/ (exists v, optional field validate label = inr v).
Proof.
  unfold optional.
  destruct (truthy_opt truthy field); [|right; by eexists].
  destruct (negb (valid (validate field))); [left | right]; by eexists.
Qed.

Ltac refuse_request := right; left; split; [reflexivity|]; eexists; reflexivity.

Ltac check_optional validate :=
  match goal with
  | |- context [optional ?field validate ?label] =>
      let e := fresh "e" in
      let Hoptional := fresh "Hoptional" in
      destruct (optional_cases field validate label) as [[e Hoptional]|[e Hoptional]];
      rewrite Hoptional; clear Hoptional; [refuse_request|]
  end.

(** The [try] block up to step 3: the request is turned away by the
    limiter, fails to parse, fails validation, or goes on to [register]
    with validated values. *)
Lemma POST_attempt_cases P cfg w request st :
  exists rateLimit st1,
    checkRateLimit w (getClientIdentifier request) (Some 3) (Some (60 * 60 * 1000)) st
    = (Ok rateLimit, st1)
    /\ db st1 = db st /\ trace st1 = trace st
    /\ ((allowed rateLimit = false
         /\ POST_attempt P cfg w request st = (Ok (createRateLimitResponse rateLimit), st1))
        \/ (allowed rateLimit = true
            /\ exists e, POST_attempt P cfg w request st = (Throw e, st1))
        \/ (allowed rateLimit = true
            /\ exists e, POST_attempt P cfg w request st = (Ok (bad_request e), st1))
        \/ (allowed rateLimit = true
            /\ exists body websiteUrl founderUsername appStoreId,
                JSON_parse P (body_text request) = inl body
                /\ valid (validateName (property body "name")) = true
                /\ valid (validateProjectId (property body "projectId")) = true
                /\ valid (validateApiKey (property body "revenuecatApiKey")) = true
                /\ POST_attempt P cfg w request st
                   = register P cfg w (value (validateName (property body "name")))
                       websiteUrl founderUsername appStoreId
                       (value (validateApiKey (property body "revenuecatApiKey")))
                       (value (validateProjectId (property body "projectId"))) st1)).
Proof.
  destruct (checkRateLimit_run w (getClientIdentifier request) (Some 3)
              (Some (60 * 60 * 1000)) st) as (rateLimit & st1 & Hlimit & Hdb & Htrace).
  exists rateLimit, st1. split; [exact Hlimit|]. split; [exact Hdb|]. split; [exact Htrace|].
  unfold POST_attempt, bind. rewrite Hlimit.
  destruct (allowed rateLimit); cbn [negb]; [right | by left].
  unfold request_json.
  destruct (JSON_parse P (body_text request)) as [body|msg];
    [|left; split; [done|]; by eexists].
  unfold ret, throw. cbv beta iota.
  destruct body; [left; split; [done|]; by eexists|..];
    (destruct (valid (validateName _)) eqn:Hname; cbn [negb]; [|refuse_request];
     destruct (valid (validateProjectId _)) eqn:Hpid; cbn [negb]; [|refuse_request];
     destruct (valid (validateApiKey _)) eqn:Hkey; cbn [negb]; [|refuse_request];
     check_optional (validateUrl P);
     check_optional validateAppStoreId;
     check_optional validateUsername;
     destruct (_ && _); [refuse_request|];
     right; right; split; [reflexivity|];
     eexists _, _, _, _; split; [reflexivity|];
     split; [exact Hname|]; split; [exact Hpid|]; split; [exact Hkey|]; reflexivity).
Qed.

Ltac status_in H :=
  unfold conflict_response, invalid_credentials_response, bad_request, created_response,
    createRateLimitResponse, failure_response in H;
  cbn [response_status] in H.

Ltac trace_of Htrace :=
  apply new_events_app;
  unfold written, keyed, drawn, inserted, after_fetch, counted, set_db, record_event;
  cbn [trace]; rewrite Htrace, <- ?app_assoc; reflexivity.

(** X25.  The registration endpoint always answers, and only with status
    201, 400, 409, 429 or 500: whatever is thrown on the way becomes a 500.
    An answer in the 4xx range is given before anything is encrypted or
    written: the datastore is as it was. *)
Theorem registration_always_answers P cfg w request st :
  exists response st',
    POST P cfg w request st = (Ok response, st')
    /\ (response_status response = 201 \/ response_status response = 400
        \/ response_status response = 409 \/ response_status response = 429
        \/ response_status response = 500)
    /\ (400 <= response_status response < 500 ->
        db st' = db st
        /\ Forall (fun ev => ~ encrypts_or_stores ev) (new_events st st')).
Proof.
  destruct (POST_attempt_cases P cfg w request st)
    as (rateLimit & st1 & _ & Hdb & Htrace
        & [[_ Hrun] | [[_ [e Hrun]] | [[_ [e Hrun]]
        | [_ (body & websiteUrl & founderUsername & appStoreId
              & Hparse & Hname & Hpid & Hkey & Hrun)]]]]);
    unfold POST, try_catch; rewrite Hrun.
  - eexists _, _. split; [reflexivity|]. split; [by do 3 right; left|].
    intros _. split; [exact Hdb|].
    rewrite (proj1 (new_events_same st st1 EvSelectApiKeys Htrace)). constructor.
  - eexists _, _. split; [reflexivity|]. split; [by do 4 right|].
    cbn. lia.
  - eexists _, _. split; [reflexivity|]. split; [by right; left|].
    intros _. split; [exact Hdb|].
    rewrite (proj1 (new_events_same st st1 EvSelectApiKeys Htrace)). constructor.
  - destruct (validateProjectId_valid _ Hpid) as [Htrim Htruthy].
    rewrite (register_run P cfg w _ _ _ _ _ _ st1 Htrim Htruthy). cbv zeta.
    set (projectId := value (validateProjectId (property body "projectId"))).
    set (apiKey := value (validateApiKey (property body "revenuecatApiKey"))).
    assert (Hcounted : new_events st (counted projectId st1) = [EvCountProjectId projectId])
      by trace_of Htrace.
    assert (Hfetched :
              new_events st (after_fetch apiKey projectId (counted projectId st1))
              = [EvCountProjectId projectId;
                 EvHttpGet (overview_url projectId) ("Bearer " +:+ apiKey)])
      by trace_of Htrace.
    destruct (db_error w (trace st1) (EvCountProjectId _)) as [msg|].
    { eexists _, _. split; [reflexivity|]. split; [by do 4 right|]. cbn. lia. }
    destruct (bool_decide _).
    { eexists _, _. split; [reflexivity|]. split; [by do 2 right; left|].
      intros _. split; [exact Hdb|]. rewrite Hcounted. repeat constructor. cbn. tauto. }
    destruct (fetchRevenueCatMetrics P w _ _ (counted _ st1)).1 as [checked|e]; cycle 1.
    { eexists _, _. split; [reflexivity|]. split; [by right; left|].
      intros _. split; [exact Hdb|]. rewrite Hfetched. repeat constructor; cbn; tauto. }
    destruct (fetchRevenueCatMetrics P w _ _ (after_fetch _ _ (counted _ st1))).1
      as [metrics|e]; cycle 1.
    { eexists _, _. split; [reflexivity|]. split; [by do 4 right|]. cbn. lia. }
    destruct (db_error w _ (EvInsertStartup _)) as [msg|].
    { eexists _, _. split; [reflexivity|]. split; [by do 4 right|]. cbn. lia. }
    destruct (getEncryptionKey cfg) as [K|e]; cycle 1.
    { eexists _, _. split; [reflexivity|]. split; [by do 4 right|]. cbn. lia. }
    destruct (db_error w _ (EvUpsertApiKey _ _)) as [msg|].
    { eexists _, _. split; [reflexivity|]. split; [by do 4 right|]. cbn. lia. }
    destruct (db_error w _ (EvUpsertRevenueMetrics _ _ _)) as [msg|].
    { eexists _, _. split; [reflexivity|]. split; [by do 4 right|]. cbn. lia. }
    eexists _, _. split; [reflexivity|]. split; [by left|]. cbn. lia.
Qed.

(** X26.  A client that has used up its three registrations of the hour
    is turned away with 429 before anything else happens: the body is not
    parsed, nothing is asked of the datastore or of the metrics source,
    and the store is unchanged.  The refused attempt is still counted, and
    the window is not extended. *)
Theorem exhausted_client_is_turned_away P cfg w request st record :
  rateLimitStore st !! getClientIdentifier request = Some record ->
  clock w (trace st) <= resetAt record ->
  3 <= count record ->
  exists st',
    POST P cfg w request st
    = (Ok (createRateLimitResponse
             (mkRateLimitResult false (count record + 1) 3 (resetAt record)
                (ceil_div_1000 (resetAt record - clock w (trace st))))), st')
    /\ db st' = db st /\ trace st' = trace st
    /\ rateLimitStore st' !! getClientIdentifier request
       = Some (mkRateLimitRecord (count record + 1) (resetAt record)).
Proof.
  intros Hrecord Hclock Hcount.
  destruct (checkRateLimit_step w (getClientIdentifier request) (Some 3)
              (Some (60 * 60 * 1000)) st) as (store2 & _ & Hstep).
  cbv zeta in Hstep. rewrite Hrecord in Hstep.
  apply Z.ltb_ge in Hclock. rewrite Hclock in Hstep.
  assert (Hover : (count record + 1 <=? default 5 (Some 3)) = false)
    by (apply Z.leb_gt; cbn; lia).
  rewrite Hover in Hstep.
  unfold POST, try_catch, POST_attempt, bind. rewrite Hstep. cbn [allowed negb].
  eexists. split; [reflexivity|]. cbn [db trace rateLimitStore].
  repeat split. by rewrite lookup_insert_eq.
Qed.

Lemma exhausted_client_is_turned_away_witness :
  exists st',
    POST sample_platform sample_cfg sample_world registration_request
         (exhausted_state empty_db)
    = (Ok (createRateLimitResponse
             (mkRateLimitResult false (3 + 1) 3 1700003600000
                (ceil_div_1000 (1700003600000 - 1700000000000)))), st')
    /\ db st' = empty_db /\ trace st' = []
    /\ rateLimitStore st' !! "203.0.113.7"
       = Some (mkRateLimitRecord (3 + 1) 1700003600000).
Proof.
  apply (exhausted_client_is_turned_away sample_platform sample_cfg sample_world
           registration_request (exhausted_state empty_db)
           (mkRateLimitRecord 3 1700003600000)).
  - reflexivity.
  - vm_compute. discriminate.
  - vm_compute. discriminate.
Defined.

(** X27.  A request with an invalid name, project id or API key is
    refused before the outside is involved: the endpoint answers 400 (or
    429, when the limiter refuses first), and neither the datastore nor
    the metrics source has been asked anything. *)
Theorem invalid_input_is_refused_early P cfg w request st body :
  JSON_parse P (body_text request) = inl body ->
  valid (validateName (property body "name")) = false
  \/ valid (validateProjectId (property body "projectId")) = false
  \/ valid (validateApiKey (property body "revenuecatApiKey")) = false ->
  exists response st',
    POST P cfg w request st = (Ok response, st')
    /\ (response_status response = 400 \/ response_status response = 429
        \/ (body = JNull /\ response_status response = 500))
    /\ db st' = db st /\ trace st' = trace st.
Proof.
  intros Hparse Hinvalid.
  destruct (POST_attempt_cases P cfg w request st)
    as (rateLimit & st1 & Hlimit & Hdb & Htrace
        & [[_ Hrun] | [[Hallowed [e Hrun]] | [[_ [e Hrun]]
        | [_ (body' & websiteUrl & founderUsername & appStoreId
              & Hparse' & Hname & Hpid & Hkey & Hrun)]]]]).
  - unfold POST, try_catch. rewrite Hrun.
    eexists _, _. split; [reflexivity|]. split; [by right; left|]. by split.
  - unfold POST, try_catch. rewrite Hrun.
    eexists _, _. split; [reflexivity|]. split; [|by split].
    do 2 right. split; [|reflexivity].
    revert Hrun. unfold POST_attempt, bind. rewrite Hlimit, Hallowed. cbn [negb].
    unfold request_json. rewrite Hparse. unfold ret at 1.
    destruct body; [reflexivity|..];
      (destruct Hinvalid as [Hbad | [Hbad | Hbad]];
       destruct (valid (validateName _)); cbn [negb]; try discriminate;
       destruct (valid (validateProjectId _)); cbn [negb]; try discriminate;
       destruct (valid (validateApiKey _)); cbn [negb]; discriminate).
  - unfold POST, try_catch. rewrite Hrun.
    eexists _, _. split; [reflexivity|]. split; [by left|]. by split.
  - rewrite Hparse in Hparse'. injection Hparse' as <-.
    destruct Hinvalid as [Hbad | [Hbad | Hbad]]; congruence.
Qed.

Lemma invalid_input_is_refused_early_witness :
  exists response st',
    POST sample_platform sample_cfg sample_world
         (mkRequest {[ "x-real-ip" := "203.0.113.7" ]} "invalid key body")
         (state_of sample_db) = (Ok response, st')
    /\ (response_status response = 400 \/ response_status response = 429
        \/ (JObj [("type", JStr "authentication_error"); ("message", JStr "Invalid API key.")]
            = JNull /\ response_status response = 500))
    /\ db st' = sample_db /\ trace st' = [].
Proof.
  apply (invalid_input_is_refused_early sample_platform sample_cfg sample_world
           (mkRequest {[ "x-real-ip" := "203.0.113.7" ]} "invalid key body")
           (state_of sample_db)
           (JObj [("type", JStr "authentication_error");
                  ("message", JStr "Invalid API key.")])).
  - reflexivity.
  - left. reflexivity.
Defined.

Ltac not_created :=
  let Hstatus := fresh "Hstatus" in
  intros [= <- <-] Hstatus; status_in Hstatus; discriminate Hstatus.

(** What a 201 answer tells about the run that gave it. *)
Lemma POST_created P cfg w request st response st' :
  POST P cfg w request st = (Ok response, st') ->
  response_status response = 201 ->
  exists body st1 websiteUrl founderUsername appStoreId K metrics,
    let name := value (validateName (property body "name")) in
    let apiKey := value (validateApiKey (property body "revenuecatApiKey")) in
    let projectId := value (validateProjectId (property body "projectId")) in
    let row := mkStartup name websiteUrl founderUsername appStoreId in
    let s3 := after_fetch apiKey projectId
                (after_fetch apiKey projectId (counted projectId st1)) in
    let id := next_startup_id w (trace s3) in
    let s4 := inserted w row s3 in
    let credential := mkApiKey (sealed_token P K w apiKey s4) (Some projectId) in
    JSON_parse P (body_text request) = inl body
    /\ db st1 = db st /\ trace st1 = trace st
    /\ valid (validateProjectId (property body "projectId")) = true
    /\ getEncryptionKey cfg = Ok K
    /\ project_id_count projectId (db st) = 0%nat
    /\ response = created_response id name metrics
    /\ st' = written w id metrics (keyed id credential (drawn s4)).
Proof.
  destruct (POST_attempt_cases P cfg w request st)
    as (rateLimit & st1 & _ & Hdb & Htrace
        & [[_ Hrun] | [[_ [e Hrun]] | [[_ [e Hrun]]
        | [_ (body & websiteUrl & founderUsername & appStoreId
              & Hparse & Hname & Hpid & Hkey & Hrun)]]]]);
    unfold POST, try_catch; rewrite Hrun; unfold POST_recover, ret; try not_created.
  destruct (validateProjectId_valid _ Hpid) as [Htrim Htruthy].
  rewrite (register_run P cfg w _ _ _ _ _ _ st1 Htrim Htruthy). cbv zeta.
  destruct (db_error w (trace st1) (EvCountProjectId _)) as [msg|]; [not_created|].
  destruct (bool_decide _) eqn:Htaken; [not_created|].
  destruct (fetchRevenueCatMetrics P w _ _ (counted _ st1)).1 as [checked|e];
    [|not_created].
  destruct (fetchRevenueCatMetrics P w _ _ (after_fetch _ _ (counted _ st1))).1
    as [metrics|e]; [|not_created].
  destruct (db_error w _ (EvInsertStartup _)) as [msg|]; [not_created|].
  destruct (getEncryptionKey cfg) as [K|e] eqn:HK; [|not_created].
  destruct (db_error w _ (EvUpsertApiKey _ _)) as [msg|]; [not_created|].
  destruct (db_error w _ (EvUpsertRevenueMetrics _ _ _)) as [msg|]; [not_created|].
  intros [= <- <-] _.
  exists body, st1, websiteUrl, founderUsername, appStoreId, K, metrics. cbv zeta.
  repeat split; try done.
  apply bool_decide_eq_false in Htaken. rewrite <- Hdb. lia.
Qed.

(** The store and the trace after the five steps that follow the second
    fetch, and after the three steps that precede them. *)
Lemma stored_state w id metrics credential row s3 :
  let st' := written w id metrics (keyed id credential (drawn (inserted w row s3))) in
  startups (db st') = <[next_startup_id w (trace s3) := row]> (startups (db s3))
  /\ api_keys (db st') = <[id := credential]> (api_keys (db s3))
  /\ revenue_metrics (db st')
     = <[id := mkRevenueMetrics (parsed_revenue metrics) (parsed_mrr metrics)
                (clock w (trace (keyed id credential (drawn (inserted w row s3)))))]>
         (revenue_metrics (db s3))
  /\ trace st'
     = (trace s3
        ++ [EvInsertStartup row; EvRandomBytes SALT_LENGTH; EvRandomBytes IV_LENGTH;
            EvUpsertApiKey id credential;
            EvUpsertRevenueMetrics id (parsed_revenue metrics) (parsed_mrr metrics)])%list.
Proof.
  cbv zeta. unfold written, keyed, drawn, inserted, set_db, record_event.
  cbn [db startups api_keys revenue_metrics trace].
  repeat split. by rewrite <- !app_assoc.
Qed.

Lemma fetched_state apiKey projectId st1 :
  let s3 := after_fetch apiKey projectId
              (after_fetch apiKey projectId (counted projectId st1)) in
  db s3 = db st1
  /\ trace s3
     = (trace st1
        ++ [EvCountProjectId projectId;
            EvHttpGet (overview_url projectId) ("Bearer " +:+ apiKey);
            EvHttpGet (overview_url projectId) ("Bearer " +:+ apiKey)])%list.
Proof.
  cbv zeta. unfold after_fetch, counted, record_event. cbn [db trace].
  split; [reflexivity|]. by rewrite <- !app_assoc.
Qed.

(** X28.  A 201 answer means that everything was stored: the project id
    was not registered before; the startup row (with the validated name),
    the credential row (with the validated project id) and the metrics row
    are in the datastore under the id the answer names; and the run
    consisted of the uniqueness query, two identical requests to the
    metrics source (one to check the key, one for the figures), the
    insert, the two draws of random bytes and the two upserts, in this
    order. *)
Theorem created_means_stored P cfg w request st response st' :
  POST P cfg w request st = (Ok response, st') ->
  response_status response = 201 ->
  exists body id metrics row credential stamp,
    let name := value (validateName (property body "name")) in
    let apiKey := value (validateApiKey (property body "revenuecatApiKey")) in
    let projectId := value (validateProjectId (property body "projectId")) in
    JSON_parse P (body_text request) = inl body
    /\ project_id_count projectId (db st) = 0%nat
    /\ response = created_response id name metrics
    /\ startup_name row = name
    /\ revenuecat_project_id credential = Some projectId
    /\ startups (db st') = <[id := row]> (startups (db st))
    /\ api_keys (db st') = <[id := credential]> (api_keys (db st))
    /\ revenue_metrics (db st')
       = <[id := mkRevenueMetrics (parsed_revenue metrics) (parsed_mrr metrics) stamp]>
           (revenue_metrics (db st))
    /\ new_events st st'
       = [EvCountProjectId projectId;
          EvHttpGet (overview_url projectId) ("Bearer " +:+ apiKey);
          EvHttpGet (overview_url projectId) ("Bearer " +:+ apiKey);
          EvInsertStartup row;
          EvRandomBytes SALT_LENGTH; EvRandomBytes IV_LENGTH;
          EvUpsertApiKey id credential;
          EvUpsertRevenueMetrics id (parsed_revenue metrics) (parsed_mrr metrics)].
Proof.
  intros Hrun Hstatus.
  destruct (POST_created P cfg w request st response st' Hrun Hstatus)
    as (body & st1 & websiteUrl & founderUsername & appStoreId & K & metrics & Hcreated).
  cbv zeta in Hcreated.
  destruct Hcreated as (Hparse & Hdb & Htrace & _ & _ & Hfree & Hresponse & Hst').
  set (name := value (validateName (property body "name"))) in *.
  set (apiKey := value (validateApiKey (property body "revenuecatApiKey"))) in *.
  set (projectId := value (validateProjectId (property body "projectId"))) in *.
  destruct (fetched_state apiKey projectId st1) as [Hdb3 Htrace3]. cbv zeta in Hdb3, Htrace3.
  set (s3 := after_fetch apiKey projectId
               (after_fetch apiKey projectId (counted projectId st1))) in *.
  set (row := mkStartup name websiteUrl founderUsername appStoreId) in *.
  set (id := next_startup_id w (trace s3)) in *.
  set (credential := mkApiKey (sealed_token P K w apiKey (inserted w row s3))
                       (Some projectId)) in *.
  destruct (stored_state w id metrics credential row s3)
    as (Hstartups & Hkeys & Hmetrics & Hevents).
  cbv zeta in Hstartups, Hkeys, Hmetrics, Hevents.
  rewrite <- Hst' in Hstartups, Hkeys, Hmetrics, Hevents.
  rewrite Hdb3, Hdb in Hstartups, Hkeys, Hmetrics.
  exists body, id, metrics, row, credential,
    (clock w (trace (keyed id credential (drawn (inserted w row s3))))).
  cbv zeta.
  split; [exact Hparse|]. split; [exact Hfree|]. split; [exact Hresponse|].
  split; [reflexivity|]. split; [reflexivity|].
  split; [exact Hstartups|]. split; [exact Hkeys|]. split; [exact Hmetrics|].
  apply new_events_app. rewrite Hevents, Htrace3, Htrace, <- !app_assoc. reflexivity.
Qed.

Lemma created_means_stored_witness :
  exists response st',
    POST sample_platform sample_cfg sample_world registration_request (state_of empty_db)
    = (Ok response, st')
    /\ exists body id metrics row credential stamp,
         JSON_parse sample_platform (body_text registration_request) = inl body
         /\ project_id_count (value (validateProjectId (property body "projectId"))) empty_db
            = 0%nat
         /\ response
            = created_response id (value (validateName (property body "name"))) metrics
         /\ startup_name row = value (validateName (property body "name"))
         /\ revenuecat_project_id credential
            = Some (value (validateProjectId (property body "projectId")))
         /\ startups (db st') = <[id := row]> (startups empty_db)
         /\ api_keys (db st') = <[id := credential]> (api_keys empty_db)
         /\ revenue_metrics (db st')
            = <[id := mkRevenueMetrics (parsed_revenue metrics) (parsed_mrr metrics) stamp]>
                (revenue_metrics empty_db)
         /\ new_events (state_of empty_db) st'
            = [EvCountProjectId (value (validateProjectId (property body "projectId")));
               EvHttpGet
                 (overview_url (value (validateProjectId (property body "projectId"))))
                 ("Bearer "
                  +:+ value (validateApiKey (property body "revenuecatApiKey")));
               EvHttpGet
                 (overview_url (value (validateProjectId (property body "projectId"))))
                 ("Bearer "
                  +:+ value (validateApiKey (property body "revenuecatApiKey")));
               EvInsertStartup row;
               EvRandomBytes SALT_LENGTH; EvRandomBytes IV_LENGTH;
               EvUpsertApiKey id credential;
               EvUpsertRevenueMetrics id (parsed_revenue metrics) (parsed_mrr metrics)].
Proof.
  eexists _, _. split; [vm_compute; reflexivity|].
  eapply (created_means_stored sample_platform sample_cfg sample_world registration_request
            (state_of empty_db)).
  - vm_compute. reflexivity.
  - reflexivity.
Defined.

(** X29.  Without the master secret no registration succeeds and no
    credential or metrics row is ever written; but the key is only looked
    up after the startup row has been inserted, so a request that gets
    that far leaves the startup row behind and is answered 500 with the
    message of the missing-key error, which names the API key and is
    therefore passed on to the client. *)
Theorem registration_without_master_secret P cfg w request st :
  master_secret_absent cfg ->
  exists response st',
    POST P cfg w request st = (Ok response, st')
    /\ response_status response <> 201
    /\ api_keys (db st') = api_keys (db st)
    /\ revenue_metrics (db st') = revenue_metrics (db st)
    /\ (startups (db st') = startups (db st)
        \/ exists id row events,
            startups (db st') = <[id := row]> (startups (db st))
            /\ new_events st st'
               = (events ++ [EvInsertStartup row; EvRandomBytes SALT_LENGTH])%list
            /\ response
               = failure_response ("Failed to encrypt API key: " +:+ key_missing_message)).
Proof.
  intros Habsent. unfold master_secret_absent in Habsent.
  destruct (POST_attempt_cases P cfg w request st)
    as (rateLimit & st1 & _ & Hdb & Htrace
        & [[_ Hrun] | [[_ [e Hrun]] | [[_ [e Hrun]]
        | [_ (body & websiteUrl & founderUsername & appStoreId
              & Hparse & Hname & Hpid & Hkey & Hrun)]]]]);
    unfold POST, try_catch; rewrite Hrun; unfold POST_recover, ret;
    try (eexists _, _; split; [reflexivity|]; rewrite Hdb;
         split; [discriminate|]; split; [done|]; split; [done|]; by left).
  destruct (validateProjectId_valid _ Hpid) as [Htrim Htruthy].
  rewrite (register_run P cfg w _ _ _ _ _ _ st1 Htrim Htruthy). cbv zeta.
  rewrite Habsent.
  destruct (db_error w (trace st1) (EvCountProjectId _)) as [msg|];
    [|destruct (bool_decide _);
      [|destruct (fetchRevenueCatMetrics P w _ _ (counted _ st1)).1 as [checked|e];
        [destruct (fetchRevenueCatMetrics P w _ _ (after_fetch _ _ (counted _ st1))).1
           as [metrics|e];
         [destruct (db_error w _ (EvInsertStartup _)) as [msg|]|]|]]];
    (eexists _, _; split; [reflexivity|];
     unfold inserted, after_fetch, counted, set_db, record_event;
     cbn [db startups api_keys revenue_metrics trace]; rewrite Hdb;
     split; [discriminate|]; split; [done|]; split; [done|]);
    try (by left).
  right. eexists _, _, [_; _; _]. split; [reflexivity|]. split; [|reflexivity].
  apply new_events_app. cbn [trace]. rewrite Htrace.
  rewrite <- (app_assoc (trace st)), <- (app_assoc (trace st)),
    <- (app_assoc (trace st)), <- (app_assoc (trace st)).
  reflexivity.
Qed.

Lemma registration_without_master_secret_witness :
  exists response st',
    POST sample_platform keyless_cfg sample_world registration_request (state_of empty_db)
    = (Ok response, st')
    /\ response_status response <> 201
    /\ api_keys (db st') = api_keys empty_db
    /\ revenue_metrics (db st') = revenue_metrics empty_db
    /\ (startups (db st') = startups empty_db
        \/ exists id row events,
            startups (db st') = <[id := row]> (startups empty_db)
            /\ new_events (state_of empty_db) st'
               = (events ++ [EvInsertStartup row; EvRandomBytes SALT_LENGTH])%list
            /\ response
               = failure_response ("Failed to encrypt API key: " +:+ key_missing_message)).
Proof.
  apply (registration_without_master_secret sample_platform keyless_cfg sample_world
           registration_request (state_of empty_db)).
  reflexivity.
Defined.

(** On the sample world the request does get that far: the startup row is
    left behind, with no credential. *)
Example orphan_startup_row :
  let st' := (POST sample_platform keyless_cfg sample_world registration_request
                   (state_of empty_db)).2 in
  startups (db st') !! 103 = Some (mkStartup "Alpha" (Some "https://alpha.example") None None)
  /\ api_keys (db st') !! 103 = None.
Proof. vm_compute. split; reflexivity. Qed.

(** X30.  What registration stores, the refresh job can use: after a 201
    answer the next listing of credentials contains an entry for the new
    startup whose project id is the validated one and whose token
    decrypts, under the same configuration, to the validated API key. *)
Theorem registered_startup_is_refreshable P cfg w request st response st' :
  PlatformCryptoOk P -> random_sized w ->
  POST P cfg w request st = (Ok response, st') ->
  response_status response = 201 ->
  db_error w (trace st') EvSelectApiKeys = None ->
  exists body entries e metrics,
    JSON_parse P (body_text request) = inl body
    /\ getStartupsWithApiKeys w st' = (Ok entries, record_event EvSelectApiKeys st')
    /\ e ∈ entries
    /\ response
       = created_response (startup_id e) (value (validateName (property body "name")))
           metrics
    /\ credentials P cfg e (value (validateApiKey (property body "revenuecatApiKey")))
         (value (validateProjectId (property body "projectId"))).
Proof.
  intros Hcrypto Hrandom Hrun Hstatus Hselect.
  destruct (POST_created P cfg w request st response st' Hrun Hstatus)
    as (body & st1 & websiteUrl & founderUsername & appStoreId & K & metrics & Hcreated).
  cbv zeta in Hcreated.
  destruct Hcreated as (Hparse & Hdb & Htrace & Hpid & HK & _ & Hresponse & Hst').
  destruct (validateProjectId_valid _ Hpid) as [_ Htruthy].
  set (name := value (validateName (property body "name"))) in *.
  set (apiKey := value (validateApiKey (property body "revenuecatApiKey"))) in *.
  set (projectId := value (validateProjectId (property body "projectId"))) in *.
  set (s3 := after_fetch apiKey projectId
               (after_fetch apiKey projectId (counted projectId st1))) in *.
  set (row := mkStartup name websiteUrl founderUsername appStoreId) in *.
  set (id := next_startup_id w (trace s3)) in *.
  set (token := sealed_token P K w apiKey (inserted w row s3)) in *.
  destruct (stored_state w id metrics (mkApiKey token (Some projectId)) row s3)
    as (_ & Hkeys & _).
  cbv zeta in Hkeys. rewrite <- Hst' in Hkeys.
  exists body,
    (map (fun r => mkEntry r.1 (revenuecat_api_key r.2) (revenuecat_project_id r.2))
         (map_to_list (api_keys (db st')))),
    (mkEntry id token (Some projectId)), metrics.
  split; [exact Hparse|].
  split; [exact (getStartupsWithApiKeys_run w st' Hselect)|].
  split; [|split; [exact Hresponse|]].
  - apply (listed_entries (api_keys (db st'))). cbn [startup_id encrypted_api_key project_id].
    rewrite Hkeys. apply lookup_insert_eq.
  - split; [reflexivity|]. split; [exact Htruthy|].
    by apply sealed_token_decrypts.
Qed.

Lemma registered_startup_is_refreshable_witness :
  exists response st',
    POST sample_platform sample_cfg sample_world registration_request (state_of empty_db)
    = (Ok response, st')
    /\ exists body entries e metrics,
         JSON_parse sample_platform (body_text registration_request) = inl body
         /\ getStartupsWithApiKeys sample_world st'
            = (Ok entries, record_event EvSelectApiKeys st')
         /\ e ∈ entries
         /\ response
            = created_response (startup_id e) (value (validateName (property body "name")))
                metrics
         /\ credentials sample_platform sample_cfg e
              (value (validateApiKey (property body "revenuecatApiKey")))
              (value (validateProjectId (property body "projectId"))).
Proof.
  eexists _, _. split; [vm_compute; reflexivity|].
  eapply (registered_startup_is_refreshable sample_platform sample_cfg sample_world
            registration_request (state_of empty_db)).
  - exact sample_platform_crypto_ok.
  - exact sample_world_random_sized.
  - vm_compute. reflexivity.
  - reflexivity.
  - reflexivity.
Defined.
